(** * Reconciliation logic of the azuread provider, embedded in Rocq

    The Go resource functions (groups, users, applications and their
    sub-resources, the domains data source) are written here as functions
    of a small state monad over a model of the remote directory.  Every
    API call is recorded in a trace, so that statements of the form
    "exactly two write-backs" or "no Update call" are statements about
    that trace. *)

From Stdlib Require Import ZArith Lia Ascii.
From stdpp Require Import base strings list gmap sets.

Local Open Scope Z_scope.

(** ** Go standard library: [strings.Split] *)

Module strings.

(** [genSplit] of the Go library for a non-empty separator: cut [s] at
    every occurrence of [sep], scanning left to right.  [skip] counts
    the bytes of a separator that was just matched and still has to be
    stepped over; [cur] is the piece under construction. *)
Fixpoint genSplit (sep : string) (skip : nat) (cur s : string) : list string :=
  match s with
  | EmptyString => [cur]
  | String c s' =>
      match skip with
      | S k => genSplit sep k cur s'
      | O =>
          if String.prefix sep s
          then cur :: genSplit sep (String.length sep - 1) EmptyString s'
          else genSplit sep 0 (cur +:+ String c EmptyString) s'
      end
  end.

(** With an empty separator Go cuts after every UTF-8 sequence; on the
    ASCII identifiers of this provider that is one piece per byte.  The
    provider never passes an empty separator. *)
Fixpoint explode (s : string) : list string :=
  match s with
  | EmptyString => []
  | String c s' => String c EmptyString :: explode s'
  end.

Definition Split (s sep : string) : list string :=
  match sep with
  | EmptyString => explode s
  | _ => genSplit sep 0 EmptyString s
  end.

End strings.

(** ** Errors and diagnostics *)

Definition http_StatusNotFound : Z := 404.

(** Go [error] values that the provider creates or receives. *)
Inductive error : Type :=
| HttpError (status : Z)                (* failure reported by the API client *)
| ErrorString (msg : string)            (* errors.New, fmt.Errorf *)
| AlreadyExistsError (obj id : string)  (* graphErrors.AlreadyExistsError *)
| TimeoutError.                         (* replication wait gave up *)

(** One [diag.Diagnostic].  [diag.Diagnostics] is a slice of them and the
    nil slice means success. *)
Inductive Diagnostic : Type :=
| ErrorDiag (err : option error) (attr summary : string) (args : list string)
| ImportAsExistsDiag (resourceName id : string)
| ImportAsDuplicateDiag (resourceName id name : string).

Definition Diagnostics : Type := list Diagnostic.

Module tf.

(** Modelled from the spec: the helpers of package [tf] that build
    diagnostics are not part of the sources at hand.  "All errors bubble
    to the top-level operation with added context": each helper returns
    one error diagnostic, the wrapped error (possibly nil) being its
    detail. *)
Definition ErrorDiagPathF (err : option error) (attr summary : string)
    (args : list string) : Diagnostics :=
  [ErrorDiag err attr summary args].

Definition ErrorDiagF (err : option error) (summary : string)
    (args : list string) : Diagnostics :=
  ErrorDiagPathF err "" summary args.

Definition ImportAsExistsDiag (resourceName id : string) : Diagnostics :=
  [ImportAsExistsDiag resourceName id].

Definition ImportAsDuplicateDiag (resourceName id name : string) : Diagnostics :=
  [ImportAsDuplicateDiag resourceName id name].

End tf.

(** [diags != nil] *)
Definition HasError (ds : Diagnostics) : Prop := ds ≠ [].

Definition isAlreadyExists (ds : Diagnostics) : bool :=
  match ds with
  | [ImportAsExistsDiag _ _] => true
  | _ => false
  end.

(** ** Package utils *)

Module utils.

(** Modelled from the spec: [utils.Difference] is called by
    [groupResourceUpdate] but its body is not part of the sources at
    hand.  "Set differences (desired minus current = additions; current
    minus desired = removals)", where "duplicate entries in either input
    are treated as a single logical member (set semantics collapse them
    before differencing)": the elements of [a] that do not occur in
    [b], each one once. *)
Definition Difference (a b : list string) : list string :=
  list_difference (remove_dups a) b.

End utils.

(** ** Package msgraph: the payload types of the API client

    A Go pointer field is an [option]; a pointer to a slice is an
    [option (list _)].  Object references (members, owners) are kept as
    the referenced object IDs. *)

Module msgraph.

Record Group : Type := mkGroup {
  grp_ID : option string;
  grp_DisplayName : option string;
  grp_Description : option string;
  grp_MailNickname : option string;
  grp_SecurityEnabled : option bool;
  grp_MailEnabled : option bool;
  grp_Members : option (list string);
  grp_Owners : option (list string);
}.

Definition emptyGroup : Group :=
  mkGroup None None None None None None None None.

Definition default_list {A} (o : option (list A)) : list A :=
  match o with Some l => l | None => [] end.

(** [AppendMember] / [AppendOwner]: add one object reference. *)
Definition AppendMember (g : Group) (id : string) : Group :=
  mkGroup (grp_ID g) (grp_DisplayName g) (grp_Description g) (grp_MailNickname g)
    (grp_SecurityEnabled g) (grp_MailEnabled g)
    (Some (default_list (grp_Members g) ++ [id])) (grp_Owners g).

Definition AppendOwner (g : Group) (id : string) : Group :=
  mkGroup (grp_ID g) (grp_DisplayName g) (grp_Description g) (grp_MailNickname g)
    (grp_SecurityEnabled g) (grp_MailEnabled g)
    (grp_Members g) (Some (default_list (grp_Owners g) ++ [id])).

Record UserPasswordProfile : Type := mkUserPasswordProfile {
  pwd_ForceChangePasswordNextSignIn : option bool;
  pwd_Password : option string;
}.

(** The fourteen optional text properties of a user (given name,
    surname, usage location, ...) are carried as one table from the
    attribute name to its value: the provider copies each of them
    verbatim. *)
Record User : Type := mkUser {
  usr_ID : option string;
  usr_AccountEnabled : option bool;
  usr_DisplayName : option string;
  usr_MailNickname : option string;
  usr_PasswordProfile : option UserPasswordProfile;
  usr_UserPrincipalName : option string;
  usr_Optional : list (string * string);
}.

Record AppRole : Type := mkAppRole {
  role_AllowedMemberTypes : option (list string);
  role_Description : option string;
  role_DisplayName : option string;
  role_ID : option string;
  role_IsEnabled : option bool;
  role_Value : option string;
}.

Record PermissionScope : Type := mkPermissionScope {
  scope_AdminConsentDescription : option string;
  scope_AdminConsentDisplayName : option string;
  scope_ID : option string;
  scope_IsEnabled : option bool;
  scope_Type : string;
  scope_UserConsentDescription : option string;
  scope_UserConsentDisplayName : option string;
  scope_Value : option string;
}.

Record KeyCredential : Type := mkKeyCredential {
  cred_KeyId : option string;
  cred_Type : string;
  cred_Usage : string;
  cred_Key : option string;
  cred_StartDateTime : option string;
  cred_EndDateTime : option string;
}.

Record ApplicationApi : Type := mkApplicationApi {
  api_OAuth2PermissionScopes : option (list PermissionScope);
}.

Record ApplicationWeb : Type := mkApplicationWeb {
  web_HomePageUrl : option string;
  web_LogoutUrl : option string;
  web_RedirectUris : option (list string);
  web_EnableAccessTokenIssuance : option bool;   (* ImplicitGrantSettings *)
}.

Record Application : Type := mkApplication {
  app_ID : option string;
  app_DisplayName : option string;
  app_AppRoles : option (list AppRole);
  app_Api : option ApplicationApi;
  app_KeyCredentials : option (list KeyCredential);
  app_IdentifierUris : option (list string);
  app_IsFallbackPublicClient : option bool;
  app_SignInAudience : string;
  app_GroupMembershipClaims : option (list string);
  app_Web : option ApplicationWeb;
  app_Owners : option (list string);
}.

Definition emptyApplication : Application :=
  mkApplication None None None None None None None "" None None None.

Definition set_app_ID (v : option string) (a : Application) : Application :=
  mkApplication v (app_DisplayName a) (app_AppRoles a) (app_Api a)
    (app_KeyCredentials a) (app_IdentifierUris a) (app_IsFallbackPublicClient a)
    (app_SignInAudience a) (app_GroupMembershipClaims a) (app_Web a) (app_Owners a).

Definition set_app_AppRoles (v : option (list AppRole)) (a : Application) : Application :=
  mkApplication (app_ID a) (app_DisplayName a) v (app_Api a)
    (app_KeyCredentials a) (app_IdentifierUris a) (app_IsFallbackPublicClient a)
    (app_SignInAudience a) (app_GroupMembershipClaims a) (app_Web a) (app_Owners a).

Definition set_app_Api (v : option ApplicationApi) (a : Application) : Application :=
  mkApplication (app_ID a) (app_DisplayName a) (app_AppRoles a) v
    (app_KeyCredentials a) (app_IdentifierUris a) (app_IsFallbackPublicClient a)
    (app_SignInAudience a) (app_GroupMembershipClaims a) (app_Web a) (app_Owners a).

Definition set_app_KeyCredentials (v : option (list KeyCredential)) (a : Application)
    : Application :=
  mkApplication (app_ID a) (app_DisplayName a) (app_AppRoles a) (app_Api a)
    v (app_IdentifierUris a) (app_IsFallbackPublicClient a)
    (app_SignInAudience a) (app_GroupMembershipClaims a) (app_Web a) (app_Owners a).

Definition set_app_Owners (v : option (list string)) (a : Application) : Application :=
  mkApplication (app_ID a) (app_DisplayName a) (app_AppRoles a) (app_Api a)
    (app_KeyCredentials a) (app_IdentifierUris a) (app_IsFallbackPublicClient a)
    (app_SignInAudience a) (app_GroupMembershipClaims a) (app_Web a) v.

Definition set_role_IsEnabled (v : option bool) (r : AppRole) : AppRole :=
  mkAppRole (role_AllowedMemberTypes r) (role_Description r) (role_DisplayName r)
    (role_ID r) v (role_Value r).

Definition set_scope_IsEnabled (v : option bool) (s : PermissionScope) : PermissionScope :=
  mkPermissionScope (scope_AdminConsentDescription s) (scope_AdminConsentDisplayName s)
    (scope_ID s) v (scope_Type s) (scope_UserConsentDescription s)
    (scope_UserConsentDisplayName s) (scope_Value s).

Record Domain : Type := mkDomain {
  dmn_ID : option string;
  dmn_AuthenticationType : option string;
  dmn_IsDefault : option bool;
  dmn_IsInitial : option bool;
  dmn_IsVerified : option bool;
}.

(** *** Collection helpers

    Modelled from the spec: the methods of [Application] and
    [ApplicationApi] that edit a sub-resource collection live in the API
    client library, outside the sources at hand.  "Locate the target
    sub-resource entry by ID within the parent's collection (linear
    scan)"; "mutate the in-memory collection (append, replace, or
    remove)"; on append "verify no existing entry already has this
    value ... AlreadyExists is fatal". *)

Definition hasID (id : string) (o : option string) : bool :=
  match o with
  | Some i => bool_decide (i = id)
  | None => false
  end.

Section Collection.
Context {A : Type} (ID : A → option string) (kind : string).

Definition findByID (id : string) (l : list A) : option A :=
  List.find (λ x, hasID id (ID x)) l.

Definition appendEntry (x : A) (coll : option (list A)) : error + list A :=
  match ID x with
  | None => inl (ErrorString "ID of new entry is nil")
  | Some id =>
      match findByID id (default_list coll) with
      | Some _ => inl (AlreadyExistsError kind id)
      | None => inr (default_list coll ++ [x])
      end
  end.

Definition updateEntry (x : A) (coll : option (list A)) : error + list A :=
  match ID x, coll with
  | None, _ => inl (ErrorString "ID of entry is nil")
  | _, None => inl (ErrorString "no entries to update")
  | Some id, Some l =>
      inr (List.map (λ y, if hasID id (ID y) then x else y) l)
  end.

Definition removeEntry (x : A) (coll : option (list A)) : error + list A :=
  match ID x, coll with
  | None, _ => inl (ErrorString "ID of entry is nil")
  | _, None => inl (ErrorString "no entries to remove")
  | Some id, Some l =>
      let l' := List.filter (λ y, negb (hasID id (ID y))) l in
      if bool_decide (length l' = length l)
      then inl (ErrorString "could not find entry to remove")
      else inr l'
  end.
End Collection.

Definition AppendAppRole (a : Application) (r : AppRole) : error + Application :=
  match appendEntry role_ID "App Role" r (app_AppRoles a) with
  | inl e => inl e
  | inr l => inr (set_app_AppRoles (Some l) a)
  end.

Definition UpdateAppRole (a : Application) (r : AppRole) : error + Application :=
  match updateEntry role_ID r (app_AppRoles a) with
  | inl e => inl e
  | inr l => inr (set_app_AppRoles (Some l) a)
  end.

Definition RemoveAppRole (a : Application) (r : AppRole) : error + Application :=
  match removeEntry role_ID r (app_AppRoles a) with
  | inl e => inl e
  | inr l => inr (set_app_AppRoles (Some l) a)
  end.

Definition AppendOAuth2PermissionScope (api : ApplicationApi) (s : PermissionScope)
    : error + ApplicationApi :=
  match appendEntry scope_ID "OAuth2 Permission Scope" s (api_OAuth2PermissionScopes api) with
  | inl e => inl e
  | inr l => inr (mkApplicationApi (Some l))
  end.

Definition UpdateOAuth2PermissionScope (api : ApplicationApi) (s : PermissionScope)
    : error + ApplicationApi :=
  match updateEntry scope_ID s (api_OAuth2PermissionScopes api) with
  | inl e => inl e
  | inr l => inr (mkApplicationApi (Some l))
  end.

Definition RemoveOAuth2PermissionScope (api : ApplicationApi) (s : PermissionScope)
    : error + ApplicationApi :=
  match removeEntry scope_ID s (api_OAuth2PermissionScopes api) with
  | inl e => inl e
  | inr l => inr (mkApplicationApi (Some l))
  end.

End msgraph.

Export msgraph.


(** ** The remote directory and the API client

    The directory service is an external collaborator.  Its model keeps
    one table per object type; a relationship set (members, owners) is a
    finite set of object IDs.  Transport failures are scripted: every API
    call consumes one [Reply] of the script, and an exhausted script means
    that the service answers normally.  The state an operation runs in
    holds, next to the directory, the two parts of the [ResourceData] [d]
    that the operations below depend on: its ID and its new-resource flag.
    The computed attributes that [tf.Set] copies into [d] are read by no
    operation and are left out (the domains data source returns its
    result list instead). *)

Inductive Reply : Type :=
| Normal                (* the service processes the call *)
| Fail (status : Z)     (* the call fails with this HTTP status *)
| NilID.                (* a create call succeeds but reports no object ID *)

Record GroupEntry : Type := mkGroupEntry {
  ge_props : Group;
  ge_members : gset string;
  ge_owners : gset string;
}.

Inductive Call : Type :=
| GroupsCreate (g : Group)
| GroupsGet (id : string)
| GroupsUpdate (g : Group)
| GroupsListMembers (id : string)
| GroupsListOwners (id : string)
| GroupsAddMembers (g : Group)
| GroupsRemoveMembers (id : string) (ms : list string)
| GroupsAddOwners (g : Group)
| GroupsRemoveOwners (id : string) (os : list string)
| CheckGroupName (name : string) (exclude : option string)
| UsersCreate (u : User)
| UsersGet (id : string)
| ApplicationsCreate (a : Application)
| ApplicationsGet (id : string)
| ApplicationsUpdate (a : Application)
| ApplicationsListOwners (id : string)
| FindApplicationByName (name : string)
| SetApplicationOwners (id : option string) (owners : list string)
| SetApplicationAppRoles (id : option string) (roles : option (list AppRole))
| SetApplicationScopes (id : option string) (scopes : list PermissionScope)
| DomainsList
| ReplicationWait
| Lock (name key : string)
| Unlock (name key : string).

(** A recorded exchange: the call, the HTTP status of the response, whether
    it succeeded, and the ID of the object it returned (if any). *)
Record Event : Type := mkEvent {
  ev_call : Call;
  ev_status : Z;
  ev_ok : bool;
  ev_objectId : option string;
}.

Record World : Type := mkWorld {
  groups : gmap string GroupEntry;
  users : gmap string User;
  applications : gmap string Application;
  domains : option (list Domain);
  tenantId : string;
  replies : list Reply;   (* scripted outcome of the next API calls *)
  serverIds : list string;   (* object IDs the service will assign *)
  uuids : list string;   (* outcome of the next uuid.GenerateUUID calls *)
  retries : nat;   (* retry budget of the replication waiter *)
  trace : list Event;   (* the calls made so far, oldest first *)
  resourceId : string;   (* d.Id() of the resource being operated on *)
  isNewResource : bool;   (* d.IsNewResource() *)
}.

Definition set_groups (v : gmap string GroupEntry) (w : World) : World :=
  mkWorld v (users w) (applications w) (domains w) (tenantId w) (replies w) (serverIds w) (uuids w) (retries w) (trace w) (resourceId w) (isNewResource w).
Definition set_users (v : gmap string User) (w : World) : World :=
  mkWorld (groups w) v (applications w) (domains w) (tenantId w) (replies w) (serverIds w) (uuids w) (retries w) (trace w) (resourceId w) (isNewResource w).
Definition set_applications (v : gmap string Application) (w : World) : World :=
  mkWorld (groups w) (users w) v (domains w) (tenantId w) (replies w) (serverIds w) (uuids w) (retries w) (trace w) (resourceId w) (isNewResource w).
Definition set_replies (v : list Reply) (w : World) : World :=
  mkWorld (groups w) (users w) (applications w) (domains w) (tenantId w) v (serverIds w) (uuids w) (retries w) (trace w) (resourceId w) (isNewResource w).
Definition set_serverIds (v : list string) (w : World) : World :=
  mkWorld (groups w) (users w) (applications w) (domains w) (tenantId w) (replies w) v (uuids w) (retries w) (trace w) (resourceId w) (isNewResource w).
Definition set_uuids (v : list string) (w : World) : World :=
  mkWorld (groups w) (users w) (applications w) (domains w) (tenantId w) (replies w) (serverIds w) v (retries w) (trace w) (resourceId w) (isNewResource w).
Definition set_trace (v : list Event) (w : World) : World :=
  mkWorld (groups w) (users w) (applications w) (domains w) (tenantId w) (replies w) (serverIds w) (uuids w) (retries w) v (resourceId w) (isNewResource w).
Definition set_resourceId (v : string) (w : World) : World :=
  mkWorld (groups w) (users w) (applications w) (domains w) (tenantId w) (replies w) (serverIds w) (uuids w) (retries w) (trace w) v (isNewResource w).

(** *** The state monad of the provider's operations *)

Definition M (A : Type) : Type := World → A * World.

Global Instance M_ret : MRet M := λ A a w, (a, w).
Global Instance M_bind : MBind M :=
  λ A B f m w, let (a, w') := m w in f a w'.

Definition getWorld : M World := λ w, (w, w).
Definition modify (f : World → World) : M unit := λ w, (tt, f w).

(** Take the next scripted reply. *)
Definition nextReply : M Reply :=
  λ w,
    match replies w with
    | [] => (Normal, w)
    | r :: rs => (r, set_replies rs w)
    end.

(** [(object, status, err)] as returned by the client: either an object
    with a success status, or an error with the status that caused it. *)
Inductive Response (A : Type) : Type :=
| Ok (a : A) (status : Z)
| Failed (status : Z) (err : error).
Arguments Ok {A} a status.
Arguments Failed {A} status err.

Definition notFound {A} : Response A := Failed http_StatusNotFound (HttpError 404).

Definition record (e : Event) : M unit :=
  modify (λ w, set_trace (trace w ++ [e]) w).

(** An event of the provider itself (lock, unlock, start of a wait). *)
Definition note (c : Call) : M unit := record (mkEvent c 0 false None).

(** One exchange with the service: take the scripted reply, let [serve]
    compute the response, and record the call with its outcome.  [oid]
    reads the object ID off a returned object. *)
Definition exchange {A} (c : Call) (oid : A → option string)
    (serve : Reply → M (Response A)) : M (Response A) :=
  r ← nextReply;
  resp ← serve r;
  record (match resp with
          | Ok a status => mkEvent c status true (oid a)
          | Failed status _ => mkEvent c status false None
          end);;
  mret resp.

Definition noID {A} (_ : A) : option string := None.

(** The next object ID the service assigns; the empty ID when the supply
    is exhausted. *)
Definition freshServerId : M string :=
  λ w,
    match serverIds w with
    | [] => ("", w)
    | i :: rest => (i, set_serverIds rest w)
    end.

(** [uuid.GenerateUUID]: fails when the random source is exhausted. *)
Definition GenerateUUID : M (error + string) :=
  λ w,
    match uuids w with
    | [] => (inl (ErrorString "failed to read random bytes"), w)
    | u :: rest => (inr u, set_uuids rest w)
    end.

(** *** The named mutex registry

    [tf.LockByName] and the deferred [tf.UnlockByName]: in this sequential
    model the pair only brackets the critical section in the trace.  The
    unlock is deferred, so it runs on every return path. *)
Definition withLock {A} (name key : string) (body : M A) : M A :=
  note (Lock name key);;
  r ← body;
  note (Unlock name key);;
  mret r.

Definition mergeOpt {A} (new old : option A) : option A :=
  match new with
  | Some _ => new
  | None => old
  end.

(** *** Groups client *)

Module GroupsClient.

Definition set_grp_ID (v : option string) (g : Group) : Group :=
  mkGroup v (grp_DisplayName g) (grp_Description g) (grp_MailNickname g)
    (grp_SecurityEnabled g) (grp_MailEnabled g) (grp_Members g) (grp_Owners g).

Definition Create (g : Group) : M (Response Group) :=
  exchange (GroupsCreate g) grp_ID (λ r,
    match r with
    | Fail s => mret (Failed s (HttpError s))
    | NilID => mret (Ok g 201)
    | Normal =>
        id ← freshServerId;
        let g' := set_grp_ID (Some id) g in
        modify (λ w, set_groups
          (<[id := mkGroupEntry g' (list_to_set (default_list (grp_Members g)))
                    (list_to_set (default_list (grp_Owners g)))]> (groups w)) w);;
        mret (Ok g' 201)
    end).

Definition Get (id : string) : M (Response Group) :=
  exchange (GroupsGet id) grp_ID (λ r,
    match r with
    | Fail s => mret (Failed s (HttpError s))
    | _ =>
        w ← getWorld;
        match groups w !! id with
        | Some e => mret (Ok (set_grp_ID (Some id) (ge_props e)) 200)
        | None => mret notFound
        end
    end).

(** Apply [f] to the stored entry of the group [id]. *)
Definition onEntry (c : Call) (id : option string) (f : GroupEntry → GroupEntry)
    : M (Response unit) :=
  exchange c noID (λ r,
    match r with
    | Fail s => mret (Failed s (HttpError s))
    | _ =>
        match id with
        | None => mret (Failed 0 (ErrorString "cannot update group with nil ID"))
        | Some i =>
            w ← getWorld;
            match groups w !! i with
            | Some e =>
                modify (λ w, set_groups (<[i := f e]> (groups w)) w);;
                mret (Ok tt 204)
            | None => mret notFound
            end
        end
    end).

Definition patch (g : Group) (e : GroupEntry) : GroupEntry :=
  let p := ge_props e in
  mkGroupEntry
    (mkGroup (grp_ID p) (mergeOpt (grp_DisplayName g) (grp_DisplayName p))
       (mergeOpt (grp_Description g) (grp_Description p)) (grp_MailNickname p)
       (grp_SecurityEnabled p) (grp_MailEnabled p) (grp_Members p) (grp_Owners p))
    (ge_members e) (ge_owners e).

Definition Update (g : Group) : M (Response unit) :=
  onEntry (GroupsUpdate g) (grp_ID g) (patch g).

Definition listOf (c : Call) (id : string) (rel : GroupEntry → gset string)
    : M (Response (list string)) :=
  exchange c noID (λ r,
    match r with
    | Fail s => mret (Failed s (HttpError s))
    | _ =>
        w ← getWorld;
        match groups w !! id with
        | Some e => mret (Ok (elements (rel e)) 200)
        | None => mret notFound
        end
    end).

Definition ListMembers (id : string) : M (Response (list string)) :=
  listOf (GroupsListMembers id) id ge_members.

Definition ListOwners (id : string) : M (Response (list string)) :=
  listOf (GroupsListOwners id) id ge_owners.

Definition AddMembers (g : Group) : M (Response unit) :=
  onEntry (GroupsAddMembers g) (grp_ID g)
    (λ e, mkGroupEntry (ge_props e)
            (ge_members e ∪ list_to_set (default_list (grp_Members g))) (ge_owners e)).

Definition RemoveMembers (id : string) (ms : list string) : M (Response unit) :=
  onEntry (GroupsRemoveMembers id ms) (Some id)
    (λ e, mkGroupEntry (ge_props e) (ge_members e ∖ list_to_set ms) (ge_owners e)).

Definition AddOwners (g : Group) : M (Response unit) :=
  onEntry (GroupsAddOwners g) (grp_ID g)
    (λ e, mkGroupEntry (ge_props e) (ge_members e)
            (ge_owners e ∪ list_to_set (default_list (grp_Owners g)))).

Definition RemoveOwners (id : string) (os : list string) : M (Response unit) :=
  onEntry (GroupsRemoveOwners id os) (Some id)
    (λ e, mkGroupEntry (ge_props e) (ge_members e) (ge_owners e ∖ list_to_set os)).

End GroupsClient.

(** *** Users client *)

Module UsersClient.

Definition set_usr_ID (v : option string) (u : User) : User :=
  mkUser v (usr_AccountEnabled u) (usr_DisplayName u) (usr_MailNickname u)
    (usr_PasswordProfile u) (usr_UserPrincipalName u) (usr_Optional u).

Definition Create (u : User) : M (Response User) :=
  exchange (UsersCreate u) usr_ID (λ r,
    match r with
    | Fail s => mret (Failed s (HttpError s))
    | NilID => mret (Ok u 201)
    | Normal =>
        id ← freshServerId;
        let u' := set_usr_ID (Some id) u in
        modify (λ w, set_users (<[id := u']> (users w)) w);;
        mret (Ok u' 201)
    end).

Definition Get (id : string) : M (Response User) :=
  exchange (UsersGet id) usr_ID (λ r,
    match r with
    | Fail s => mret (Failed s (HttpError s))
    | _ =>
        w ← getWorld;
        match users w !! id with
        | Some u => mret (Ok (set_usr_ID (Some id) u) 200)
        | None => mret notFound
        end
    end).

End UsersClient.

(** *** Applications client *)

Module ApplicationsClient.

Definition Create (a : Application) : M (Response Application) :=
  exchange (ApplicationsCreate a) app_ID (λ r,
    match r with
    | Fail s => mret (Failed s (HttpError s))
    | NilID => mret (Ok a 201)
    | Normal =>
        id ← freshServerId;
        let a' := set_app_ID (Some id) a in
        modify (λ w, set_applications (<[id := a']> (applications w)) w);;
        mret (Ok a' 201)
    end).

Definition Get (id : string) : M (Response Application) :=
  exchange (ApplicationsGet id) app_ID (λ r,
    match r with
    | Fail s => mret (Failed s (HttpError s))
    | _ =>
        w ← getWorld;
        match applications w !! id with
        | Some a => mret (Ok (set_app_ID (Some id) a) 200)
        | None => mret notFound
        end
    end).

(** The update is a PATCH: a property that is nil in the payload keeps
    its stored value. *)
Definition patchApi (new old : option ApplicationApi) : option ApplicationApi :=
  match new with
  | None => old
  | Some n =>
      Some (mkApplicationApi
              (mergeOpt (api_OAuth2PermissionScopes n)
                 (match old with
                  | Some o => api_OAuth2PermissionScopes o
                  | None => None
                  end)))
  end.

Definition patch (p a : Application) : Application :=
  mkApplication (app_ID a)
    (mergeOpt (app_DisplayName p) (app_DisplayName a))
    (mergeOpt (app_AppRoles p) (app_AppRoles a))
    (patchApi (app_Api p) (app_Api a))
    (mergeOpt (app_KeyCredentials p) (app_KeyCredentials a))
    (mergeOpt (app_IdentifierUris p) (app_IdentifierUris a))
    (mergeOpt (app_IsFallbackPublicClient p) (app_IsFallbackPublicClient a))
    (if bool_decide (app_SignInAudience p = "") then app_SignInAudience a
     else app_SignInAudience p)
    (mergeOpt (app_GroupMembershipClaims p) (app_GroupMembershipClaims a))
    (mergeOpt (app_Web p) (app_Web a))
    (app_Owners a).

Definition onStored (c : Call) (id : option string) (f : Application → Application)
    : M (Response unit) :=
  exchange c noID (λ r,
    match r with
    | Fail s => mret (Failed s (HttpError s))
    | _ =>
        match id with
        | None => mret (Failed 0 (ErrorString "cannot update application with nil ID"))
        | Some i =>
            w ← getWorld;
            match applications w !! i with
            | Some a =>
                modify (λ w, set_applications (<[i := f a]> (applications w)) w);;
                mret (Ok tt 204)
            | None => mret notFound
            end
        end
    end).

Definition Update (p : Application) : M (Response unit) :=
  onStored (ApplicationsUpdate p) (app_ID p) (patch p).

Definition ListOwners (id : string) : M (Response (list string)) :=
  exchange (ApplicationsListOwners id) noID (λ r,
    match r with
    | Fail s => mret (Failed s (HttpError s))
    | _ =>
        w ← getWorld;
        match applications w !! id with
        | Some a => mret (Ok (default_list (app_Owners a)) 200)
        | None => mret notFound
        end
    end).

End ApplicationsClient.

(** *** Domains client *)

Module DomainsClient.

Definition List : M (Response (option (list Domain))) :=
  exchange DomainsList noID (λ r,
    match r with
    | Fail s => mret (Failed s (HttpError s))
    | _ => w ← getWorld; mret (Ok (domains w) 200)
    end).

End DomainsClient.

(** [d.Id()], [d.SetId], [d.IsNewResource()] *)
Definition Id : M string := λ w, (resourceId w, w).
Definition SetId (id : string) : M unit := modify (set_resourceId id).
Definition IsNewResource : M bool := λ w, (isNewResource w, w).

(** ** Package helpers *)

Module helpers.

(** Modelled from the spec: [helpers.AppRoleFindById] and
    [helpers.OAuth2PermissionFindById] are not part of the sources at
    hand.  "Locate the target sub-resource entry by ID within the
    parent's collection (linear scan)"; a nil result means the entry is
    absent. *)
Definition AppRoleFindById (a : Application) (roleId : string)
    : option AppRole * option error :=
  match app_AppRoles a with
  | None => (None, None)
  | Some l =>
      if bool_decide (roleId = "")
      then (None, Some (ErrorString "specified role ID is blank"))
      else (findByID role_ID roleId l, None)
  end.

Definition OAuth2PermissionFindById (a : Application) (scopeId : string)
    : option PermissionScope * option error :=
  match app_Api a with
  | None => (None, None)
  | Some api =>
      match api_OAuth2PermissionScopes api with
      | None => (None, None)
      | Some l =>
          if bool_decide (scopeId = "")
          then (None, Some (ErrorString "specified scope ID is blank"))
          else (findByID scope_ID scopeId l, None)
      end
  end.

(** Modelled from the spec: [helpers.WaitForCreationReplication] is not
    part of the sources at hand.  "Given a zero-argument probe function
    returning (result, status-code, error), poll with bounded retries
    until the probe returns success or a non-not-found error, or a retry
    budget is exhausted.  Exhaustion is a fatal error." *)
Fixpoint poll {A} (budget : nat) (probe : M (Response A)) : M (error + A) :=
  match budget with
  | O => mret (inl TimeoutError)
  | S n =>
      r ← probe;
      match r with
      | Ok a _ => mret (inr a)
      | Failed status err =>
          if bool_decide (status = http_StatusNotFound)
          then poll n probe
          else mret (inl err)
      end
  end.

Definition WaitForCreationReplication {A} (probe : M (Response A)) : M (error + A) :=
  note ReplicationWait;;
  w ← getWorld;
  poll (retries w) probe.

(** Modelled from the spec: the remaining helpers each wrap a few API
    calls ("List(filter)", "relationship-specific AddOwners /
    RemoveOwners", whole-parent updates); they are kept as one recorded
    exchange each, failing when the transport fails. *)
Definition outcome {A} (r : Response A) : error + A :=
  match r with
  | Ok a _ => inr a
  | Failed _ err => inl err
  end.

Definition GroupCheckNameAvailability (name : string) (exclude : option string)
    : M (error + option string) :=
  r ← exchange (CheckGroupName name exclude) id (λ r,
        match r with
        | Fail s => mret (Failed s (HttpError s))
        | _ =>
            w ← getWorld;
            mret (Ok (fst <$> List.find
                        (λ kv, bool_decide (grp_DisplayName (ge_props (snd kv)) = Some name)
                               && negb (bool_decide (exclude = Some (fst kv))))
                        (map_to_list (groups w))) 200)
        end);
  mret (outcome r).

Definition ApplicationFindByName (name : string) : M (error + option Application) :=
  r ← exchange (FindApplicationByName name) (λ o, o ≫= app_ID) (λ r,
        match r with
        | Fail s => mret (Failed s (HttpError s))
        | NilID =>
            (* the service lists a matching application without an object ID *)
            mret (Ok (Some (mkApplication None (Some name) None None None None None
                              "" None None None)) 200)
        | Normal =>
            w ← getWorld;
            mret (Ok ((λ kv, set_app_ID (Some (fst kv)) (snd kv)) <$> List.find
                        (λ kv, bool_decide (app_DisplayName (snd kv) = Some name))
                        (map_to_list (applications w))) 200)
        end);
  mret (outcome r).

Definition failure {A} (r : Response A) : option error :=
  match r with
  | Ok _ _ => None
  | Failed _ err => Some err
  end.

Definition ApplicationSetOwners (a : Application) (owners : list string)
    : M (option error) :=
  r ← ApplicationsClient.onStored (SetApplicationOwners (app_ID a) owners) (app_ID a)
        (set_app_Owners (Some owners));
  mret (failure r).

Definition ApplicationSetAppRoles (a : Application) (roles : option (list AppRole))
    : M (option error) :=
  r ← ApplicationsClient.onStored (SetApplicationAppRoles (app_ID a) roles) (app_ID a)
        (set_app_AppRoles (Some (default_list roles)));
  mret (failure r).

Definition ApplicationSetOAuth2PermissionScopes (a : Application)
    (scopes : list PermissionScope) : M (option error) :=
  r ← ApplicationsClient.onStored (SetApplicationScopes (app_ID a) scopes) (app_ID a)
        (set_app_Api (Some (mkApplicationApi (Some scopes))));
  mret (failure r).

End helpers.

(** ** Package parse: composite identifiers of sub-resources *)

Module parse.

(** Modelled from the spec: the package is not part of the sources at
    hand.  "Sub-resources [are identified] by a composite identifier of
    the form <parentObjectId>/<subResourceId> (and, for credentials, a
    third segment distinguishing certificate vs. password type)". *)

Record AppRoleId : Type := mkAppRoleId { ar_ObjectId : string; ar_RoleId : string }.
Record OAuth2PermissionScopeId : Type :=
  mkOAuth2PermissionScopeId { ps_ObjectId : string; ps_ScopeId : string }.
Record CredentialId : Type :=
  mkCredentialId { cr_ObjectId : string; cr_KeyType : string; cr_KeyId : string }.

Definition NewAppRoleID (objectId roleId : string) : AppRoleId :=
  mkAppRoleId objectId roleId.
Definition NewOAuth2PermissionScopeID (objectId scopeId : string)
    : OAuth2PermissionScopeId :=
  mkOAuth2PermissionScopeId objectId scopeId.
Definition NewCredentialID (objectId keyType keyId : string) : CredentialId :=
  mkCredentialId objectId keyType keyId.

Definition AppRoleId_String (id : AppRoleId) : string :=
  ar_ObjectId id +:+ "/" +:+ ar_RoleId id.
Definition OAuth2PermissionScopeId_String (id : OAuth2PermissionScopeId) : string :=
  ps_ObjectId id +:+ "/" +:+ ps_ScopeId id.
Definition CredentialId_String (id : CredentialId) : string :=
  cr_ObjectId id +:+ "/" +:+ cr_KeyId id +:+ "/" +:+ cr_KeyType id.

Definition nonEmpty (s : string) : bool := negb (bool_decide (s = "")).

Definition AppRoleID (idString : string) : error + AppRoleId :=
  match strings.Split idString "/" with
  | [o; r] =>
      if nonEmpty o && nonEmpty r then inr (mkAppRoleId o r)
      else inl (ErrorString "ID has an empty segment")
  | _ => inl (ErrorString "ID should be in the format {objectId}/{roleId}")
  end.

Definition OAuth2PermissionScopeID (idString : string)
    : error + OAuth2PermissionScopeId :=
  match strings.Split idString "/" with
  | [o; r] =>
      if nonEmpty o && nonEmpty r then inr (mkOAuth2PermissionScopeId o r)
      else inl (ErrorString "ID has an empty segment")
  | _ => inl (ErrorString "ID should be in the format {objectId}/{scopeId}")
  end.

Definition CertificateID (idString : string) : error + CredentialId :=
  match strings.Split idString "/" with
  | [o; k; t] =>
      if nonEmpty o && nonEmpty k && bool_decide (t = "certificate")
      then inr (mkCredentialId o t k)
      else inl (ErrorString "ID is not a certificate credential ID")
  | _ => inl (ErrorString "ID should be in the format {objectId}/{keyId}/{type}")
  end.

End parse.

(** A run-time panic (nil pointer dereference, index out of range) ends
    the operation abnormally; it is reported as a diagnostic of its own so
    that every operation still has a result. *)
Definition panic (what : string) : Diagnostics :=
  [ErrorDiag (Some (ErrorString "panic")) "" what []].

Definition nonEmptyString (s : string) : bool := negb (bool_decide (s = "")).

(** ** Groups *)

Module groups.

(** The decoded configuration of an [azuread_group].  [gc_changed] lists
    the attributes for which [d.HasChange] holds; [gc_members_exists]
    and [gc_owners_exists] are the [ok] results of [d.GetOkExists]. *)
Record Config : Type := mkConfig {
  gc_display_name : string;
  gc_description : string;
  gc_members : list string;
  gc_owners : list string;
  gc_prevent_duplicate_names : bool;
  gc_changed : list string;
  gc_members_exists : bool;
  gc_owners_exists : bool;
}.

Definition HasChange (c : Config) (key : string) : bool :=
  bool_decide (key ∈ gc_changed c).

Definition set_DisplayName (v : option string) (g : Group) : Group :=
  mkGroup (grp_ID g) v (grp_Description g) (grp_MailNickname g)
    (grp_SecurityEnabled g) (grp_MailEnabled g) (grp_Members g) (grp_Owners g).
Definition set_Description (v : option string) (g : Group) : Group :=
  mkGroup (grp_ID g) (grp_DisplayName g) v (grp_MailNickname g)
    (grp_SecurityEnabled g) (grp_MailEnabled g) (grp_Members g) (grp_Owners g).

Definition groupResourceRead (c : Config) : M Diagnostics :=
  id ← Id;
  r ← GroupsClient.Get id;
  match r with
  | Failed status err =>
      if bool_decide (status = http_StatusNotFound) then
        (* Group was not found - removing from state *)
        SetId "";;
        mret []
      else
        mret (tf.ErrorDiagF (Some err) "Retrieving group with object ID: %q" [id])
  | Ok group _ =>
      (* tf.Set: description, display_name, mail_enabled, object_id,
         security_enabled *)
      match grp_ID group with
      | None => mret (panic "nil pointer dereference: group.ID")
      | Some gid =>
          r ← GroupsClient.ListOwners gid;
          match r with
          | Failed _ err =>
              mret (tf.ErrorDiagPathF (Some err) "owners"
                      "Could not retrieve owners for group with object ID %q" [id])
          | Ok owners _ =>
              (* tf.Set: owners *)
              r ← GroupsClient.ListMembers gid;
              match r with
              | Failed _ err =>
                  mret (tf.ErrorDiagPathF (Some err) "owners"
                          "Could not retrieve members for group with object ID %q" [id])
              | Ok members _ =>
                  (* tf.Set: members, prevent_duplicate_names *)
                  mret []
              end
          end
      end
  end.

(** The duplicate-name check shared by create and update: [Some ds] is
    an early return with [ds]. *)
Definition checkName (c : Config) (displayName : string) (exclude : option string)
    : M (option Diagnostics) :=
  r ← helpers.GroupCheckNameAvailability displayName exclude;
  match r with
  | inl err =>
      mret (Some (tf.ErrorDiagPathF (Some err) "display_name"
                    "Could not check for existing group(s)" []))
  | inr (Some existingId) =>
      mret (Some (tf.ImportAsDuplicateDiag "azuread_group" existingId displayName))
  | inr None => mret None
  end.

Definition groupResourceCreate (c : Config) : M Diagnostics :=
  let displayName := gc_display_name c in
  chk ← (if gc_prevent_duplicate_names c then checkName c displayName None
         else mret None);
  match chk with
  | Some ds => mret ds
  | None =>
      u ← GenerateUUID;
      match u with
      | inl err => mret (tf.ErrorDiagF (Some err) "Failed to generate mailNickname" [])
      | inr mailNickname =>
          let properties :=
            mkGroup None (Some displayName) None (Some mailNickname)
              (* API only supports creation of security groups *)
              (Some true) (Some false) None None in
          let properties :=
            if nonEmptyString (gc_description c)
            then set_Description (Some (gc_description c)) properties
            else properties in
          let properties := foldl AppendMember properties (gc_members c) in
          let properties := foldl AppendOwner properties (gc_owners c) in
          r ← GroupsClient.Create properties;
          match r with
          | Failed _ err =>
              mret (tf.ErrorDiagF (Some err) "Creating group %q" [displayName])
          | Ok group _ =>
              match grp_ID group with
              | None =>
                  mret (tf.ErrorDiagF
                          (Some (ErrorString "API returned group with nil object ID"))
                          "Bad API Response" [])
              | Some gid =>
                  SetId gid;;
                  r ← helpers.WaitForCreationReplication (GroupsClient.Get gid);
                  match r with
                  | inl err =>
                      mret (tf.ErrorDiagF (Some err)
                              "Waiting for Group with object ID: %q" [gid])
                  | inr _ => groupResourceRead c
                  end
              end
          end
      end
  end.

(** Lines 229-255: reconcile the members.  Removals are issued before
    additions; a nil difference issues no call.  The result is the
    [group] payload, which accumulates the appended references. *)
Definition reconcileMembers (c : Config) (id : string) (group : Group)
    : M (Diagnostics + Group) :=
  if gc_members_exists c && HasChange c "members" then
    match grp_ID group with
    | None => mret (inl (panic "nil pointer dereference: group.ID"))
    | Some gid =>
        r ← GroupsClient.ListMembers gid;
        match r with
        | Failed _ err =>
            mret (inl (tf.ErrorDiagF (Some err)
                         "Could not retrieve members for group with ID: %q" [id]))
        | Ok existingMembers _ =>
            let desiredMembers := gc_members c in
            let membersForRemoval := utils.Difference existingMembers desiredMembers in
            let membersToAdd := utils.Difference desiredMembers existingMembers in
            r1 ← match membersForRemoval with
                 | [] => mret None
                 | _ =>
                     r ← GroupsClient.RemoveMembers id membersForRemoval;
                     match r with
                     | Failed _ err =>
                         mret (Some (tf.ErrorDiagF (Some err)
                                 "Could not remove members from group with ID: %q" [id]))
                     | Ok _ _ => mret None
                     end
                 end;
            match r1 with
            | Some ds => mret (inl ds)
            | None =>
                match membersToAdd with
                | [] => mret (inr group)
                | _ =>
                    let group := foldl AppendMember group membersToAdd in
                    r ← GroupsClient.AddMembers group;
                    match r with
                    | Failed _ err =>
                        mret (inl (tf.ErrorDiagF (Some err)
                                "Could not add members to group with ID: %q" [id]))
                    | Ok _ _ => mret (inr group)
                    end
                end
            end
        end
    end
  else mret (inr group).

(** Lines 257-283: reconcile the owners.  Additions are issued before
    removals. *)
Definition reconcileOwners (c : Config) (id : string) (group : Group)
    : M (Diagnostics + Group) :=
  if gc_owners_exists c && HasChange c "owners" then
    match grp_ID group with
    | None => mret (inl (panic "nil pointer dereference: group.ID"))
    | Some gid =>
        r ← GroupsClient.ListOwners gid;
        match r with
        | Failed _ err =>
            mret (inl (tf.ErrorDiagF (Some err)
                         "Could not retrieve eowners for group with ID: %q" [id]))
        | Ok existingOwners _ =>
            let desiredOwners := gc_owners c in
            let ownersForRemoval := utils.Difference existingOwners desiredOwners in
            let ownersToAdd := utils.Difference desiredOwners existingOwners in
            r1 ← match ownersToAdd with
                 | [] => mret (inr group)
                 | _ =>
                     let group := foldl AppendOwner group ownersToAdd in
                     r ← GroupsClient.AddOwners group;
                     match r with
                     | Failed _ err =>
                         mret (inl (tf.ErrorDiagF (Some err)
                                 "Could not add owners to group with ID: %q" [id]))
                     | Ok _ _ => mret (inr group)
                     end
                 end;
            match r1 with
            | inl ds => mret (inl ds)
            | inr group =>
                match ownersForRemoval with
                | [] => mret (inr group)
                | _ =>
                    r ← GroupsClient.RemoveOwners id ownersForRemoval;
                    match r with
                    | Failed _ err =>
                        mret (inl (tf.ErrorDiagF (Some err)
                                "Could not remove owners from group with ID: %q" [id]))
                    | Ok _ _ => mret (inr group)
                    end
                end
            end
        end
    end
  else mret (inr group).

Definition groupResourceUpdate (c : Config) : M Diagnostics :=
  id ← Id;
  let group := GroupsClient.set_grp_ID (Some id) emptyGroup in
  let displayName := gc_display_name c in
  chk ← (if HasChange c "display_name" then
           chk ← (if gc_prevent_duplicate_names c
                  then checkName c displayName (grp_ID group)
                  else mret None);
           match chk with
           | Some ds => mret (inl ds)
           | None => mret (inr (set_DisplayName (Some displayName) group))
           end
         else mret (inr group));
  match chk with
  | inl ds => mret ds
  | inr group =>
      let group :=
        if HasChange c "description"
        then set_Description (Some (gc_description c)) group
        else group in
      r ← GroupsClient.Update group;
      match r with
      | Failed _ err =>
          mret (tf.ErrorDiagF (Some err) "Updating group with ID: %q" [id])
      | Ok _ _ =>
          r ← reconcileMembers c id group;
          match r with
          | inl ds => mret ds
          | inr group =>
              r ← reconcileOwners c id group;
              match r with
              | inl ds => mret ds
              | inr _ => groupResourceRead c
              end
          end
      end
  end.

End groups.

(** ** Users *)

Module users.

(** The decoded configuration of an [azuread_user].  [uc_optional] holds
    the fourteen optional text attributes (given_name, surname,
    usage_location, onpremises_immutable_id, job_title, department,
    company_name, office_location, street_address, city, state, country,
    postal_code, mobile_phone) by name. *)
Record Config : Type := mkConfig {
  uc_user_principal_name : string;
  uc_display_name : string;
  uc_mail_nickname : string;
  uc_account_enabled : bool;
  uc_password : string;
  uc_force_password_change : bool;
  uc_optional : list (string * string);
}.

(** [strings.Split(upn, "@")[0]] *)
Definition firstPart (upn : string) : option string :=
  strings.Split upn "@" !! 0%nat.

Definition userResourceRead (c : Config) : M Diagnostics :=
  objectId ← Id;
  r ← UsersClient.Get objectId;
  match r with
  | Failed status err =>
      if bool_decide (status = http_StatusNotFound) then
        (* User was not found - removing from state! *)
        SetId "";;
        mret []
      else
        mret (tf.ErrorDiagF (Some err) "Retrieving user with object ID: %q" [objectId])
  | Ok user _ =>
      (* tf.Set: the twenty-three computed attributes *)
      mret []
  end.

Definition userResourceCreate (c : Config) : M Diagnostics :=
  let upn := uc_user_principal_name c in
  let mailNickName := uc_mail_nickname c in
  (* default mail nickname to the first part of the UPN (matches the portal) *)
  match (if bool_decide (mailNickName = "") then firstPart upn else Some mailNickName) with
  | None => mret (panic "index out of range [0]")
  | Some mailNickName =>
      let properties :=
        mkUser None (Some (uc_account_enabled c)) (Some (uc_display_name c))
          (Some mailNickName)
          (Some (mkUserPasswordProfile (Some (uc_force_password_change c))
                   (Some (uc_password c))))
          (Some upn)
          (* d.GetOk: only the attributes with a non-empty value *)
          (List.filter (λ kv, nonEmptyString (snd kv)) (uc_optional c)) in
      r ← UsersClient.Create properties;
      match r with
      | Failed _ err => mret (tf.ErrorDiagF (Some err) "Creating user %q" [upn])
      | Ok user _ =>
          match usr_ID user with
          | None =>
              mret (tf.ErrorDiagF
                      (Some (ErrorString "API returned group with nil object ID"))
                      "Bad API Response" [])
          | Some uid =>
              if bool_decide (uid = "") then
                mret (tf.ErrorDiagF
                        (Some (ErrorString "API returned group with nil object ID"))
                        "Bad API Response" [])
              else
                SetId uid;;
                r ← helpers.WaitForCreationReplication (UsersClient.Get uid);
                match r with
                | inl err =>
                    mret (tf.ErrorDiagF (Some err)
                            "Waiting for User with object ID: %q" [uid])
                | inr _ => userResourceRead c
                end
          end
      end
  end.

End users.

(** ** Domains data source *)

Module domains_ds.

Record Config : Type := mkConfig {
  dc_include_unverified : bool;
  dc_only_default : bool;
  dc_only_initial : bool;
}.

(** One element of the computed [domains] list. *)
Record Entry : Type := mkEntry {
  domain_name : option string;
  authentication_type : option string;
  is_default : option bool;
  is_initial : option bool;
  is_verified : option bool;
}.

(** [p != nil && !*p] *)
Definition isFalse (p : option bool) : bool :=
  match p with
  | Some b => negb b
  | None => false
  end.

(** The body of the loop: [None] stands for [continue]. *)
Definition keep (c : Config) (v : Domain) : option Entry :=
  if dc_only_default c && isFalse (dmn_IsDefault v) then None
  else if dc_only_initial c && isFalse (dmn_IsInitial v) then None
  else if negb (dc_include_unverified c) && isFalse (dmn_IsVerified v) then None
  else Some (mkEntry (dmn_ID v) (dmn_AuthenticationType v) (dmn_IsDefault v)
               (dmn_IsInitial v) (dmn_IsVerified v)).

Fixpoint collect (c : Config) (result : list Domain) (domains : list Entry)
    : list Entry :=
  match result with
  | [] => domains
  | v :: rest =>
      match keep c v with
      | None => collect c rest domains
      | Some e => collect c rest (domains ++ [e])
      end
  end.

(** The operation returns its diagnostics and the value it stores in
    the [domains] attribute ([None] when it stores nothing). *)
Definition domainsDataSourceRead (c : Config) : M (Diagnostics * option (list Entry)) :=
  r ← DomainsClient.List;
  match r with
  | Failed _ err => mret (tf.ErrorDiagF (Some err) "Could not list domains" [], None)
  | Ok result _ =>
      w ← getWorld;
      SetId ("domains-" +:+ tenantId w);;
      let domains :=
        match result with
        | Some l => collect c l []
        | None => []
        end in
      if bool_decide (length domains = 0%nat) then
        (* err is nil here *)
        mret (tf.ErrorDiagF None "No domains found for the provided filters" [], None)
      else
        (* tf.Set(d, "domains", domains) *)
        mret ([], Some domains)
  end.

End domains_ds.

(** ** Applications *)

Module applications.

Definition applicationResourceName : string := "azuread_application".

(** One element of the [app_role] set and of the
    [api.0.oauth2_permission_scope] set of the configuration. *)
Record RoleBlock : Type := mkRoleBlock {
  rb_id : string;
  rb_allowed_member_types : list string;
  rb_description : string;
  rb_display_name : string;
  rb_enabled : bool;
  rb_value : string;
}.

Record ScopeBlock : Type := mkScopeBlock {
  sb_admin_consent_description : string;
  sb_admin_consent_display_name : string;
  sb_id : string;
  sb_enabled : bool;
  sb_type : string;
  sb_user_consent_description : string;
  sb_user_consent_display_name : string;
  sb_value : string;
}.

(** The decoded configuration of an [azuread_application].  The
    [optional_claims] and [required_resource_access] blocks are expanded
    into the payload without any check and are left out. *)
Record Config : Type := mkConfig {
  ac_display_name : string;
  ac_prevent_duplicate_names : bool;
  ac_app_role : list RoleBlock;
  ac_oauth2_permission_scope : list ScopeBlock;
  ac_identifier_uris : list string;
  ac_sign_in_audience : string;
  ac_group_membership_claims : string;
  ac_homepage_url : string;
  ac_logout_url : string;
  ac_access_token_issuance_enabled : bool;
  ac_fallback_public_client_enabled : bool;
  ac_redirect_uris : list string;
  ac_owners : list string;
  ac_changed : list string;
}.

Definition HasChange (c : Config) (key : string) : bool :=
  bool_decide (key ∈ ac_changed c).

(** *** [applicationValidateRolesScopes] *)

Fixpoint roleValues (appRoles : list RoleBlock) (values : list string) : list string :=
  match appRoles with
  | [] => values
  | role :: rest =>
      let val := rb_value role in
      roleValues rest (if nonEmptyString val then values ++ [val] else values)
  end.

Fixpoint scopeValues (oauth2Permissions : list ScopeBlock) (values : list string)
    : list string :=
  match oauth2Permissions with
  | [] => values
  | scope :: rest =>
      let val := sb_value scope in
      scopeValues rest (if nonEmptyString val then values ++ [val] else values)
  end.

(** The inner loop: is [val] among [encountered]? *)
Fixpoint seen (val : string) (encountered : list string) : bool :=
  match encountered with
  | [] => false
  | en :: rest => if bool_decide (en = val) then true else seen val rest
  end.

Fixpoint findDuplicate (values encountered : list string) : option error :=
  match values with
  | [] => None
  | val :: rest =>
      if seen val encountered
      then Some (ErrorString ("validation failed: duplicate value found: " +:+ val))
      else findDuplicate rest (encountered ++ [val])
  end.

Definition applicationValidateRolesScopes (appRoles : list RoleBlock)
    (oauth2Permissions : list ScopeBlock) : option error :=
  let values := roleValues appRoles [] in
  let values := scopeValues oauth2Permissions values in
  findDuplicate values [].

(** *** Expanding the configuration into the payload *)

Definition expandApplicationAppRoles (input : list RoleBlock) : option (list AppRole) :=
  match input with
  | [] => None
  | _ =>
      Some (List.map
              (λ appRole,
                 mkAppRole (Some (rb_allowed_member_types appRole))
                   (Some (rb_description appRole)) (Some (rb_display_name appRole))
                   (Some (rb_id appRole)) (Some (rb_enabled appRole))
                   (Some (rb_value appRole)))
              input)
  end.

Definition expandApplicationOAuth2Permissions (input : list ScopeBlock)
    : option (list PermissionScope) :=
  Some (List.map
          (λ p,
             mkPermissionScope (Some (sb_admin_consent_description p))
               (Some (sb_admin_consent_display_name p)) (Some (sb_id p))
               (Some (sb_enabled p)) (sb_type p)
               (Some (sb_user_consent_description p))
               (Some (sb_user_consent_display_name p)) (Some (sb_value p)))
          input).

Definition optString (s : string) : option string :=
  if nonEmptyString s then Some s else None.

(** *** The parent resource *)

Definition applicationResourceRead (c : Config) : M Diagnostics :=
  id ← Id;
  r ← ApplicationsClient.Get id;
  match r with
  | Failed status err =>
      if bool_decide (status = http_StatusNotFound) then
        (* Application was not found - removing from state *)
        SetId "";;
        mret []
      else
        mret (tf.ErrorDiagPathF (Some err) "id"
                "Retrieving Application with object ID %q" [id])
  | Ok app _ =>
      (* tf.Set: api, app_role, application_id, ..., prevent_duplicate_names *)
      match app_ID app with
      | None => mret (panic "nil pointer dereference: app.ID")
      | Some aid =>
          r ← ApplicationsClient.ListOwners aid;
          match r with
          | Failed _ err =>
              mret (tf.ErrorDiagPathF (Some err) "owners"
                      "Could not retrieve owners for application with object ID %q" [aid])
          | Ok owners _ =>
              (* tf.Set: owners *)
              mret []
          end
      end
  end.

(** The duplicate-name check of create and update; [self] is the ID
    that update tolerates. *)
Definition checkName (displayName : string) (self : option string)
    : M (option Diagnostics) :=
  r ← helpers.ApplicationFindByName displayName;
  match r with
  | inl err =>
      mret (Some (tf.ErrorDiagPathF (Some err) "display_name"
                    "Could not check for existing application(s)" []))
  | inr (Some existingApp) =>
      match app_ID existingApp with
      | None =>
          mret (Some (tf.ErrorDiagF
                  (Some (ErrorString
                     "API returned application with nil object ID during duplicate name check"))
                  "Bad API response" []))
      | Some eid =>
          if bool_decide (self = Some eid) then mret None
          else mret (Some (tf.ImportAsDuplicateDiag "azuread_application" eid displayName))
      end
  | inr None => mret None
  end.

Definition applicationResourceCreate (c : Config) : M Diagnostics :=
  let displayName := ac_display_name c in
  chk ← (if ac_prevent_duplicate_names c then checkName displayName None
         else mret None);
  match chk with
  | Some ds => mret ds
  | None =>
      let oauth2PermissionScopes := ac_oauth2_permission_scope c in
      let hasOauth2PermissionScopes :=
        negb (bool_decide (oauth2PermissionScopes = [])) in
      match applicationValidateRolesScopes (ac_app_role c) oauth2PermissionScopes with
      | Some err =>
          mret (tf.ErrorDiagPathF (Some err) "app_role"
                  "Checking for duplicate app role / oauth2_permissions values" [])
      | None =>
          let properties :=
            mkApplication None (Some displayName)
              (expandApplicationAppRoles (ac_app_role c))
              (Some (mkApplicationApi
                       (if hasOauth2PermissionScopes
                        then expandApplicationOAuth2Permissions oauth2PermissionScopes
                        else None)))
              None
              (Some (ac_identifier_uris c))
              (if ac_fallback_public_client_enabled c then Some true else None)
              (ac_sign_in_audience c)
              (if nonEmptyString (ac_group_membership_claims c)
               then Some [ac_group_membership_claims c] else None)
              (Some (mkApplicationWeb (optString (ac_homepage_url c))
                       (optString (ac_logout_url c))
                       (match ac_redirect_uris c with
                        | [] => None
                        | l => Some l
                        end)
                       (if ac_access_token_issuance_enabled c then Some true else None)))
              None in
          r ← ApplicationsClient.Create properties;
          match r with
          | Failed _ err => mret (tf.ErrorDiagF (Some err) "Could not create application" [])
          | Ok app _ =>
              match app_ID app with
              | None =>
                  mret (tf.ErrorDiagF (Some (ErrorString "Bad API response"))
                          "Object ID returned for application is nil/empty" [])
              | Some aid =>
                  if bool_decide (aid = "") then
                    mret (tf.ErrorDiagF (Some (ErrorString "Bad API response"))
                            "Object ID returned for application is nil/empty" [])
                  else
                    SetId aid;;
                    o ← match ac_owners c with
                        | [] => mret None
                        | owners => helpers.ApplicationSetOwners app owners
                        end;
                    match o with
                    | Some err =>
                        mret (tf.ErrorDiagPathF (Some err) "owners"
                                "Could not set owners for application with object ID: %q"
                                [aid])
                    | None => applicationResourceRead c
                    end
              end
          end
      end
  end.

Definition applicationResourceUpdate (c : Config) : M Diagnostics :=
  id ← Id;
  let displayName := ac_display_name c in
  chk ← (if ac_prevent_duplicate_names c then checkName displayName (Some id)
         else mret None);
  match chk with
  | Some ds => mret ds
  | None =>
      (* the scopes are only looked at when they have changed *)
      let oauth2PermissionScopes :=
        if HasChange c "api.0.oauth2_permission_scope"
        then Some (ac_oauth2_permission_scope c) else None in
      match (match oauth2PermissionScopes with
             | Some scopes => applicationValidateRolesScopes (ac_app_role c) scopes
             | None => None
             end) with
      | Some err =>
          mret (tf.ErrorDiagPathF (Some err) "app_role"
                  "Checking for duplicate app role / oauth2_permissions values" [])
      | None =>
          let properties :=
            mkApplication (Some id) (Some displayName) None
              (Some (mkApplicationApi None))
              None
              (Some (ac_identifier_uris c))
              (Some (ac_fallback_public_client_enabled c))
              (ac_sign_in_audience c)
              (if HasChange c "group_membership_claims"
               then Some [ac_group_membership_claims c] else None)
              (Some (mkApplicationWeb
                       (if HasChange c "web.0.homepage_url"
                        then Some (ac_homepage_url c) else None)
                       (if HasChange c "web.0.logout_url"
                        then Some (ac_logout_url c) else None)
                       (if HasChange c "web.0.redirect_uris"
                        then Some (ac_redirect_uris c) else None)
                       (if HasChange c "web.0.implicit_grant.0.access_token_issuance_enabled"
                        then Some (ac_access_token_issuance_enabled c) else None)))
              None in
          r ← ApplicationsClient.Update properties;
          match r with
          | Failed _ err =>
              mret (tf.ErrorDiagF (Some err) "Could not update application with ID: %q" [id])
          | Ok _ _ =>
              o ← (if HasChange c "app_role"
                   then helpers.ApplicationSetAppRoles properties
                          (expandApplicationAppRoles (ac_app_role c))
                   else mret None);
              match o with
              | Some err =>
                  mret (tf.ErrorDiagPathF (Some err) "app_role" "Could not set App Roles" [])
              | None =>
                  o ← (if HasChange c "api.0.oauth2_permission_scope" then
                         match expandApplicationOAuth2Permissions
                                 (ac_oauth2_permission_scope c) with
                         | Some scopes =>
                             helpers.ApplicationSetOAuth2PermissionScopes properties scopes
                         | None => mret None
                         end
                       else mret None);
                  match o with
                  | Some err =>
                      mret (tf.ErrorDiagPathF (Some err) "oauth2_permissions"
                              "Could not set OAuth2 Permission Scopes" [])
                  | None =>
                      o ← (if HasChange c "owners"
                           then helpers.ApplicationSetOwners properties (ac_owners c)
                           else mret None);
                      match o with
                      | Some err =>
                          mret (tf.ErrorDiagPathF (Some err) "owners"
                                  "Could not set owners for application with object ID: %q"
                                  [id])
                      | None => mret []
                      end
                  end
              end
          end
      end
  end.

End applications.

(** ** Sub-resources of an application: read-modify-write under the
       application's named lock *)

Module app_role.

Import applications.

Record Config : Type := mkConfig {
  rc_application_object_id : string;
  rc_allowed_member_types : list string;
  rc_description : string;
  rc_display_name : string;
  rc_enabled : bool;
  rc_role_id : string;
  rc_value : string;
}.

Definition applicationAppRoleResourceRead : M Diagnostics :=
  did ← Id;
  match parse.AppRoleID did with
  | inl err => mret (tf.ErrorDiagPathF (Some err) "id" "Parsing App Role ID %q" [did])
  | inr id =>
      r ← ApplicationsClient.Get (parse.ar_ObjectId id);
      match r with
      | Failed status err =>
          if bool_decide (status = http_StatusNotFound) then
            SetId "";;
            mret []
          else
            mret (tf.ErrorDiagPathF (Some err) "application_object_id"
                    "Retrieving Application with object ID %q" [parse.ar_ObjectId id])
      | Ok app _ =>
          match helpers.AppRoleFindById app (parse.ar_RoleId id) with
          | (_, Some err) => mret (tf.ErrorDiagF (Some err) "Identifying App Role" [])
          | (None, None) =>
              (* App Role was not found - removing from state! *)
              SetId "";;
              mret []
          | (Some role, None) =>
              (* tf.Set: the seven attributes of the role *)
              mret []
          end
      end
  end.

Definition applicationAppRoleResourceCreateUpdate (c : Config) : M Diagnostics :=
  let objectId := rc_application_object_id c in
  rid ← (if nonEmptyString (rc_role_id c) then mret (inr (rc_role_id c))
         else GenerateUUID);
  match rid with
  | inl err =>
      mret (tf.ErrorDiagF (Some err)
              "Generating App Role for application with object ID %q" [objectId])
  | inr roleId =>
      let role :=
        mkAppRole (Some (rc_allowed_member_types c)) (Some (rc_description c))
          (Some (rc_display_name c)) (Some roleId) (Some (rc_enabled c))
          (optString (rc_value c)) in
      let id := parse.NewAppRoleID objectId roleId in
      withLock applicationResourceName (parse.ar_ObjectId id) (
        r ← ApplicationsClient.Get (parse.ar_ObjectId id);
        match r with
        | Failed status err =>
            if bool_decide (status = http_StatusNotFound) then
              mret (tf.ErrorDiagPathF None "application_object_id"
                      "Application with object ID %q was not found" [parse.ar_ObjectId id])
            else
              mret (tf.ErrorDiagPathF (Some err) "application_object_id"
                      "Retrieving Application with object ID %q" [parse.ar_ObjectId id])
        | Ok app _ =>
            isNew ← IsNewResource;
            match (if (isNew : bool) return (Diagnostics + Application) then
                     match AppendAppRole app role with
                     | inl (AlreadyExistsError _ _) =>
                         inl (tf.ImportAsExistsDiag "azuread_application_app_role"
                                (parse.AppRoleId_String id))
                     | inl err => inl (tf.ErrorDiagF (Some err) "Failed to add App Role" [])
                     | inr app => inr app
                     end
                   else
                     match helpers.AppRoleFindById app (parse.ar_RoleId id) with
                     | (_, Some err) =>
                         inl (tf.ErrorDiagPathF None "role_id"
                                "retrieving App Role with ID %q for Application %q: %+v"
                                [parse.ar_RoleId id; parse.ar_ObjectId id])
                     | (None, None) =>
                         inl (tf.ErrorDiagPathF None "role_id"
                                "App Role with ID %q was not found for Application %q"
                                [parse.ar_RoleId id; parse.ar_ObjectId id])
                     | (Some existing, None) =>
                         match UpdateAppRole app role with
                         | inl _ =>
                             (* the err that is reported is the nil one of the lookup *)
                             inl (tf.ErrorDiagF None "Updating App Role with ID %q" [roleId])
                         | inr app => inr app
                         end
                     end)
            with
            | inl ds => mret ds
            | inr app =>
                let properties :=
                  set_app_AppRoles (app_AppRoles app)
                    (set_app_ID (app_ID app) emptyApplication) in
                r ← ApplicationsClient.Update properties;
                match r with
                | Failed _ err =>
                    mret (tf.ErrorDiagF (Some err) "Updating Application with ID %q"
                            [parse.ar_ObjectId id])
                | Ok _ _ =>
                    SetId (parse.AppRoleId_String id);;
                    applicationAppRoleResourceRead
                end
            end
        end)
  end.

Definition applicationAppRoleResourceDelete : M Diagnostics :=
  did ← Id;
  match parse.AppRoleID did with
  | inl err => mret (tf.ErrorDiagPathF (Some err) "id" "Parsing App Role ID %q" [did])
  | inr id =>
      withLock applicationResourceName (parse.ar_ObjectId id) (
        r ← ApplicationsClient.Get (parse.ar_ObjectId id);
        match r with
        | Failed status err =>
            if bool_decide (status = http_StatusNotFound) then
              mret (tf.ErrorDiagPathF (Some (ErrorString "Application was not found"))
                      "application_object_id" "Retrieving Application with ID %q"
                      [parse.ar_ObjectId id])
            else
              mret (tf.ErrorDiagPathF (Some err) "application_object_id"
                      "Retrieving Application with ID %q" [parse.ar_ObjectId id])
        | Ok app _ =>
            match helpers.AppRoleFindById app (parse.ar_RoleId id) with
            | (_, Some err) => mret (tf.ErrorDiagF (Some err) "Identifying App Role" [])
            | (None, None) =>
                (* App Role was not found - removing from state! *)
                SetId "";;
                mret []
            | (Some role, None) =>
                (* Disabling App Role prior to removal *)
                let role := set_role_IsEnabled (Some false) role in
                match UpdateAppRole app role with
                | inl _ =>
                    mret (tf.ErrorDiagF None "Disabling App Role with ID %q"
                            [default "" (role_ID role)])
                | inr app =>
                    let properties :=
                      set_app_AppRoles (app_AppRoles app)
                        (set_app_ID (app_ID app) emptyApplication) in
                    r ← ApplicationsClient.Update properties;
                    match r with
                    | Failed _ err =>
                        mret (tf.ErrorDiagF (Some err) "Disabling App Role with ID %q"
                                [default "" (role_ID role)])
                    | Ok _ _ =>
                        (* Removing App Role from Application *)
                        match RemoveAppRole app role with
                        | inl _ =>
                            mret (tf.ErrorDiagF None "Removing App Role with ID %q"
                                    [default "" (role_ID role)])
                        | inr app =>
                            let properties :=
                              set_app_AppRoles (app_AppRoles app) properties in
                            r ← ApplicationsClient.Update properties;
                            match r with
                            | Failed _ err =>
                                mret (tf.ErrorDiagF (Some err)
                                        "Updating application to remove App Role with ID %q"
                                        [default "" (role_ID role)])
                            | Ok _ _ => mret []
                            end
                        end
                    end
                end
            end
        end)
  end.

End app_role.

Module oauth2_scope.

Import applications.

Record Config : Type := mkConfig {
  pc_application_object_id : string;
  pc_admin_consent_description : string;
  pc_admin_consent_display_name : string;
  pc_enabled : bool;
  pc_scope_id : string;
  pc_type : string;
  pc_user_consent_description : string;
  pc_user_consent_display_name : string;
  pc_value : string;
}.

(** [app.Api.OAuth2PermissionScopes] of an application whose [Api] is
    not nil. *)
Definition scopesPayload (app : Application) (api : ApplicationApi) : Application :=
  set_app_Api (Some (mkApplicationApi (api_OAuth2PermissionScopes api)))
    (set_app_ID (app_ID app) emptyApplication).

Definition applicationOAuth2PermissionScopeResourceRead : M Diagnostics :=
  did ← Id;
  match parse.OAuth2PermissionScopeID did with
  | inl err =>
      mret (tf.ErrorDiagPathF (Some err) "id" "Parsing OAuth2 Permission ID %q" [did])
  | inr id =>
      r ← ApplicationsClient.Get (parse.ps_ObjectId id);
      match r with
      | Failed status err =>
          if bool_decide (status = http_StatusNotFound) then
            SetId "";;
            mret []
          else
            mret (tf.ErrorDiagPathF (Some err) "application_object_id"
                    "Retrieving Application with object ID %q" [parse.ps_ObjectId id])
      | Ok app _ =>
          match helpers.OAuth2PermissionFindById app (parse.ps_ScopeId id) with
          | (_, Some err) =>
              mret (tf.ErrorDiagF (Some err) "Identifying OAuth2 Permission" [])
          | (None, None) =>
              (* OAuth2 Permission was not found - removing from state! *)
              SetId "";;
              mret []
          | (Some permission, None) =>
              (* tf.Set: the nine attributes of the scope *)
              mret []
          end
      end
  end.

Definition applicationOAuth2PermissionScopeResourceCreateUpdate (c : Config)
    : M Diagnostics :=
  let objectId := pc_application_object_id c in
  (* errors should be handled by the validation *)
  pid ← (if nonEmptyString (pc_scope_id c) then mret (inr (pc_scope_id c))
         else GenerateUUID);
  match pid with
  | inl err =>
      mret (tf.ErrorDiagF (Some err)
              "Generating OAuth2 Permission Scope ID for application with object ID %q"
              [objectId])
  | inr scopeId =>
      let scope :=
        mkPermissionScope (Some (pc_admin_consent_description c))
          (Some (pc_admin_consent_display_name c)) (Some scopeId) (Some (pc_enabled c))
          (pc_type c) (Some (pc_user_consent_description c))
          (Some (pc_user_consent_display_name c)) (Some (pc_value c)) in
      let id := parse.NewOAuth2PermissionScopeID objectId scopeId in
      withLock applicationResourceName (parse.ps_ObjectId id) (
        r ← ApplicationsClient.Get (parse.ps_ObjectId id);
        match r with
        | Failed status err =>
            if bool_decide (status = http_StatusNotFound) then
              mret (tf.ErrorDiagPathF None "application_object_id"
                      "Application with object ID %q was not found" [parse.ps_ObjectId id])
            else
              mret (tf.ErrorDiagPathF (Some err) "application_object_id"
                      "Retrieving Application with object ID %q" [parse.ps_ObjectId id])
        | Ok app _ =>
            isNew ← IsNewResource;
            match (if (isNew : bool) return (Diagnostics + ApplicationApi) then
                     let api :=
                       match app_Api app with
                       | None => mkApplicationApi None
                       | Some api => api
                       end in
                     match AppendOAuth2PermissionScope api scope with
                     | inl (AlreadyExistsError _ _) =>
                         inl (tf.ImportAsExistsDiag
                                "azuread_application_oauth2_permission_scope"
                                (parse.OAuth2PermissionScopeId_String id))
                     | inl err =>
                         inl (tf.ErrorDiagF (Some err) "Failed to add OAuth2 Permission" [])
                     | inr api => inr api
                     end
                   else
                     (* the error of the lookup is discarded; the err that is
                        tested is the nil one left by client.Get *)
                     match fst (helpers.OAuth2PermissionFindById app (parse.ps_ScopeId id)) with
                     | None =>
                         inl (tf.ErrorDiagPathF None "scope_id"
                                "OAuth2 Permission with ID %q was not found for Application %q"
                                [parse.ps_ScopeId id; parse.ps_ObjectId id])
                     | Some existing =>
                         match app_Api app with
                         | None => inl (panic "nil pointer dereference: app.Api")
                         | Some api =>
                             match UpdateOAuth2PermissionScope api scope with
                             | inl _ =>
                                 inl (tf.ErrorDiagF None
                                        "Updating OAuth2 Permission with ID %q" [scopeId])
                             | inr api => inr api
                             end
                         end
                     end)
            with
            | inl ds => mret ds
            | inr api =>
                r ← ApplicationsClient.Update (scopesPayload app api);
                match r with
                | Failed _ err =>
                    mret (tf.ErrorDiagF (Some err) "Updating Application with ID %q"
                            [parse.ps_ObjectId id])
                | Ok _ _ =>
                    SetId (parse.OAuth2PermissionScopeId_String id);;
                    applicationOAuth2PermissionScopeResourceRead
                end
            end
        end)
  end.

Definition applicationOAuth2PermissionScopeResourceDelete : M Diagnostics :=
  did ← Id;
  match parse.OAuth2PermissionScopeID did with
  | inl err =>
      mret (tf.ErrorDiagPathF (Some err) "id" "Parsing OAuth2 Permission ID %q" [did])
  | inr id =>
      withLock applicationResourceName (parse.ps_ObjectId id) (
        r ← ApplicationsClient.Get (parse.ps_ObjectId id);
        match r with
        | Failed status err =>
            if bool_decide (status = http_StatusNotFound) then
              mret (tf.ErrorDiagPathF (Some (ErrorString "Application was not found"))
                      "application_object_id" "Retrieving Application with ID %q"
                      [parse.ps_ObjectId id])
            else
              mret (tf.ErrorDiagPathF (Some err) "application_object_id"
                      "Retrieving Application with ID %q" [parse.ps_ObjectId id])
        | Ok app _ =>
            match helpers.OAuth2PermissionFindById app (parse.ps_ScopeId id) with
            | (_, Some err) =>
                mret (tf.ErrorDiagF (Some err) "Identifying OAuth2 Permission" [])
            | (None, None) =>
                (* OAuth2 Permission was not found - removing from state! *)
                SetId "";;
                mret []
            | (Some scope, None) =>
                (* Disabling OAuth2 Permission prior to removal *)
                let scope := set_scope_IsEnabled (Some false) scope in
                match app_Api app with
                | None => mret (panic "nil pointer dereference: app.Api")
                | Some api =>
                    match UpdateOAuth2PermissionScope api scope with
                    | inl _ =>
                        mret (tf.ErrorDiagF None "Disabling OAuth2 Permission with ID %q"
                                [default "" (scope_ID scope)])
                    | inr api =>
                        r ← ApplicationsClient.Update (scopesPayload app api);
                        match r with
                        | Failed _ err =>
                            mret (tf.ErrorDiagF (Some err)
                                    "Disabling OAuth2 Permission with ID %q"
                                    [default "" (scope_ID scope)])
                        | Ok _ _ =>
                            (* Removing OAuth2 Permission *)
                            match RemoveOAuth2PermissionScope api scope with
                            | inl _ =>
                                mret (tf.ErrorDiagF None
                                        "Removing OAuth2 Permission with ID %q"
                                        [default "" (scope_ID scope)])
                            | inr api =>
                                r ← ApplicationsClient.Update (scopesPayload app api);
                                match r with
                                | Failed _ err =>
                                    mret (tf.ErrorDiagF (Some err)
                                            "Disabling OAuth2 Permission with ID %q"
                                            [default "" (scope_ID scope)])
                                | Ok _ _ => mret []
                                end
                            end
                        end
                    end
                end
            end
        end)
  end.

End oauth2_scope.

Module certificate.

Import applications.

(** [cc_credential] is the outcome of
    [helpers.KeyCredentialForResource(d)], which decodes the
    configuration (key_id, type, encoding, value, dates) into a key
    credential or fails with an error on one attribute.  The helper is
    not part of the sources at hand and its outcome is an input here. *)
Record Config : Type := mkConfig {
  cc_application_object_id : string;
  cc_credential : (error * string) + KeyCredential;
}.

(** [*cred.KeyId == keyId], false for a nil key ID *)
Definition keyIs (keyId : string) (cred : KeyCredential) : bool :=
  hasID keyId (cred_KeyId cred).

(** The loop of lines 138-143: [inl] is the early return on a
    collision. *)
Fixpoint copyUnlessPresent (keyId : string) (creds newCredentials : list KeyCredential)
    : unit + list KeyCredential :=
  match creds with
  | [] => inr newCredentials
  | cred :: rest =>
      if keyIs keyId cred then inl tt
      else copyUnlessPresent keyId rest (newCredentials ++ [cred])
  end.

(** The loop of lines 235-239: keep the credentials that carry another
    key ID. *)
Fixpoint copyOthers (keyId : string) (creds newCredentials : list KeyCredential)
    : list KeyCredential :=
  match creds with
  | [] => newCredentials
  | cred :: rest =>
      match cred_KeyId cred with
      | Some k =>
          if bool_decide (k ≠ keyId)
          then copyOthers keyId rest (newCredentials ++ [cred])
          else copyOthers keyId rest newCredentials
      | None => copyOthers keyId rest newCredentials
      end
  end.

Definition credentialsPayload (objectId : string) (creds : list KeyCredential)
    : Application :=
  set_app_KeyCredentials (Some creds) (set_app_ID (Some objectId) emptyApplication).

Definition applicationCertificateResourceRead : M Diagnostics :=
  did ← Id;
  match parse.CertificateID did with
  | inl err =>
      mret (tf.ErrorDiagPathF (Some err) "id"
              "Parsing certificate credential with ID %q" [did])
  | inr id =>
      r ← ApplicationsClient.Get (parse.cr_ObjectId id);
      match r with
      | Failed status err =>
          if bool_decide (status = http_StatusNotFound) then
            SetId "";;
            mret []
          else
            mret (tf.ErrorDiagPathF (Some err) "application_object_id"
                    "Retrieving Application with object ID %q" [parse.cr_ObjectId id])
      | Ok app _ =>
          match List.find (keyIs (parse.cr_KeyId id)) (default_list (app_KeyCredentials app)) with
          | None =>
              (* Certificate credential was not found - removing from state! *)
              SetId "";;
              mret []
          | Some credential =>
              (* tf.Set: application_object_id, key_id, type, start_date, end_date *)
              mret []
          end
      end
  end.

Definition applicationCertificateResourceCreate (c : Config) : M Diagnostics :=
  let objectId := cc_application_object_id c in
  match cc_credential c with
  | inl (err, attr) =>
      mret (tf.ErrorDiagPathF (Some err) attr
              "Generating certificate credentials for application with object ID %q"
              [objectId])
  | inr credential =>
      match cred_KeyId credential with
      | None =>
          mret (tf.ErrorDiagF (Some (ErrorString "keyId for certificate credential is nil"))
                  "Creating certificate credential" [])
      | Some keyId =>
          let id := parse.NewCredentialID objectId "certificate" keyId in
          withLock applicationResourceName (parse.cr_ObjectId id) (
            r ← ApplicationsClient.Get (parse.cr_ObjectId id);
            match r with
            | Failed status err =>
                if bool_decide (status = http_StatusNotFound) then
                  mret (tf.ErrorDiagPathF None "application_object_id"
                          "Application with object ID %q was not found"
                          [parse.cr_ObjectId id])
                else
                  mret (tf.ErrorDiagPathF (Some err) "application_object_id"
                          "Retrieving application with object ID %q"
                          [parse.cr_ObjectId id])
            | Ok app _ =>
                match copyUnlessPresent keyId (default_list (app_KeyCredentials app)) [] with
                | inl _ =>
                    mret (tf.ImportAsExistsDiag "azuread_application_certificate"
                            (parse.CredentialId_String id))
                | inr newCredentials =>
                    let newCredentials := newCredentials ++ [credential] in
                    r ← ApplicationsClient.Update
                          (credentialsPayload (parse.cr_ObjectId id) newCredentials);
                    match r with
                    | Failed _ err =>
                        mret (tf.ErrorDiagF (Some err)
                                "Adding certificate for application with object ID %q"
                                [parse.cr_ObjectId id])
                    | Ok _ _ =>
                        SetId (parse.CredentialId_String id);;
                        applicationCertificateResourceRead
                    end
                end
            end)
      end
  end.

Definition applicationCertificateResourceDelete : M Diagnostics :=
  did ← Id;
  match parse.CertificateID did with
  | inl err =>
      mret (tf.ErrorDiagPathF (Some err) "id"
              "Parsing certificate credential with ID %q" [did])
  | inr id =>
      withLock applicationResourceName (parse.cr_ObjectId id) (
        r ← ApplicationsClient.Get (parse.cr_ObjectId id);
        match r with
        | Failed status err =>
            if bool_decide (status = http_StatusNotFound) then
              mret (tf.ErrorDiagPathF (Some (ErrorString "Application was not found"))
                      "application_object_id" "Retrieving Application with ID %q"
                      [parse.cr_ObjectId id])
            else
              mret (tf.ErrorDiagPathF (Some err) "application_object_id"
                      "Retrieving application with object ID %q" [parse.cr_ObjectId id])
        | Ok app _ =>
            let newCredentials :=
              copyOthers (parse.cr_KeyId id) (default_list (app_KeyCredentials app)) [] in
            r ← ApplicationsClient.Update
                  (credentialsPayload (parse.cr_ObjectId id) newCredentials);
            match r with
            | Failed _ err =>
                mret (tf.ErrorDiagF (Some err)
                        "Removing certificate credential %q from application with object ID %q"
                        [parse.cr_KeyId id; parse.cr_ObjectId id])
            | Ok _ _ => mret []
            end
        end)
  end.

End certificate.

(** * Specification-level definitions *)

(** ** Observations on a trace *)

Definition isWait (e : Event) : bool :=
  match ev_call e with
  | ReplicationWait => true
  | _ => false
  end.

(** Number of invocations of the replication waiter. *)
Definition waits (t : list Event) : nat := length (List.filter isWait t).

(** A group (user, application) create call that succeeded and returned
    an object ID the provider accepts. *)
Definition createdGroup (e : Event) : bool :=
  match ev_call e with
  | GroupsCreate _ => ev_ok e && bool_decide (is_Some (ev_objectId e))
  | _ => false
  end.

Definition createdUser (e : Event) : bool :=
  match ev_call e, ev_objectId e with
  | UsersCreate _, Some id => ev_ok e && nonEmptyString id
  | _, _ => false
  end.

Definition createdApplication (e : Event) : bool :=
  match ev_call e, ev_objectId e with
  | ApplicationsCreate _, Some id => ev_ok e && nonEmptyString id
  | _, _ => false
  end.

(** The calls that write to the directory. *)
Definition isWrite (e : Event) : bool :=
  match ev_call e with
  | GroupsCreate _ | GroupsUpdate _ | GroupsAddMembers _ | GroupsRemoveMembers _ _
  | GroupsAddOwners _ | GroupsRemoveOwners _ _ | UsersCreate _
  | ApplicationsCreate _ | ApplicationsUpdate _ | SetApplicationOwners _ _
  | SetApplicationAppRoles _ _ | SetApplicationScopes _ _ => true
  | _ => false
  end.

(** The payloads of the whole-parent write-backs (application updates)
    that succeeded, oldest first. *)
Fixpoint writeBacks (t : list Event) : list Application :=
  match t with
  | [] => []
  | e :: rest =>
      match ev_call e with
      | ApplicationsUpdate p => if ev_ok e then p :: writeBacks rest else writeBacks rest
      | _ => writeBacks rest
      end
  end.

(** All application update calls, successful or not. *)
Definition isUpdate (e : Event) : bool :=
  match ev_call e with
  | ApplicationsUpdate _ => true
  | _ => false
  end.

Definition waitEvent : Event := mkEvent ReplicationWait 0 false None.

(** An operation records only events that satisfy [P]. *)
Definition emits {A} (P : Event → Prop) (m : M A) : Prop :=
  ∀ w, ∃ t, trace (snd (m w)) = trace w ++ t ∧ Forall P t.

(** No transport failure is scripted: every exchange is answered by the
    service. *)
Definition healthy (w : World) : Prop := replies w = [].

(** The world after the event [e] was recorded. *)
Definition logged (e : Event) (w : World) : World := set_trace (trace w ++ [e]) w.

(** ** The set-difference reconciliation, as sets *)

Definition asSet (l : list string) : gset string := list_to_set l.

(** ** The domains filter, in the words of the specification *)

Module domains_spec.
Import domains_ds.

Definition notFalse (p : option bool) : Prop := p ≠ Some false.

(** A listed domain passes the active filters. *)
Definition passes (c : Config) (v : Domain) : Prop :=
  (dc_only_default c = true → notFalse (dmn_IsDefault v)) ∧
  (dc_only_initial c = true → notFalse (dmn_IsInitial v)) ∧
  (dc_include_unverified c = false → notFalse (dmn_IsVerified v)).

(** A returned entry satisfies the active filters. *)
Definition satisfies (c : Config) (e : Entry) : Prop :=
  (dc_only_default c = true → notFalse (is_default e)) ∧
  (dc_only_initial c = true → notFalse (is_initial e)) ∧
  (dc_include_unverified c = false → notFalse (is_verified e)).

Definition toEntry (v : Domain) : Entry :=
  mkEntry (dmn_ID v) (dmn_AuthenticationType v) (dmn_IsDefault v)
    (dmn_IsInitial v) (dmn_IsVerified v).

Global Instance passes_dec c v : Decision (passes c v).
Proof. unfold passes, notFalse. apply _. Defined.

End domains_spec.

(** ** The default mail nickname, in the words of the specification *)

(** The substring of [s] before the first '@' (all of [s] when it has
    none). *)
Fixpoint beforeAt (s : string) : string :=
  match s with
  | EmptyString => EmptyString
  | String c s' => if Ascii.eqb c "@"%char then EmptyString else String c (beforeAt s')
  end.

(** ** The combined "value" fields of one application *)

Definition combinedValues (roles : list applications.RoleBlock)
    (scopes : list applications.ScopeBlock) : list string :=
  List.filter nonEmptyString
    (List.map applications.rb_value roles ++ List.map applications.sb_value scopes).

(** ** Predicates on operations and on their outcomes *)

Definition noWait (e : Event) : Prop := isWait e = false.
Definition noWrite (e : Event) : Prop := isWrite e = false.
Definition anyEvent (e : Event) : Prop := True.
Definition noEvent (e : Event) : Prop := False.

(** Neither an accepted create nor a wait. *)
Definition quiet (created : Event → bool) (e : Event) : Prop :=
  created e = false ∧ isWait e = false.

(** The events of one parent creation: either no accepted create and no
    wait at all, or one accepted create immediately followed by the one
    and only wait. *)
Inductive waitsOncePerCreate (created : Event → bool) : list Event → Prop :=
| wopc_none t :
    Forall (quiet created) t →
    waitsOncePerCreate created t
| wopc_one pre e post :
    created e = true →
    Forall (quiet created) pre →
    Forall (quiet created) post →
    waitsOncePerCreate created (pre ++ [e; waitEvent] ++ post).

Definition waitsOnce (created : Event → bool) {A} (m : M A) : Prop :=
  ∀ w, ∃ t, trace (snd (m w)) = trace w ++ t ∧ waitsOncePerCreate created t.

(** The operation starts with the wait and is quiet afterwards. *)
Definition waitsFirst (created : Event → bool) {A} (m : M A) : Prop :=
  ∀ w, ∃ post, trace (snd (m w)) = trace w ++ waitEvent :: post ∧
               Forall (quiet created) post.

(** The operation never invokes the replication waiter. *)
Definition neverWaits {A} (m : M A) : Prop :=
  ∀ w, ∃ t, trace (snd (m w)) = trace w ++ t ∧ waits t = 0%nat.

(** The operation leaves a part of the state alone. *)
Definition preserves {A X} (proj : World → X) (m : M A) : Prop :=
  ∀ w, proj (snd (m w)) = proj w.

(** What the specification says of a read whose Get failed with [status]: on 404
    the ID is cleared and no error is returned; on any other status an
    error is returned and the ID is kept. *)
Definition readOutcome (w : World) (status : Z) (r : Diagnostics * World) : Prop :=
  (status = http_StatusNotFound → fst r = [] ∧ resourceId (snd r) = "") ∧
  (status ≠ http_StatusNotFound → HasError (fst r) ∧ resourceId (snd r) = resourceId w).

(** The operation fails and has written nothing. *)
Definition rejectedUnwritten (w : World) (r : Diagnostics * World) : Prop :=
  HasError (fst r) ∧
  ∃ t, trace (snd r) = trace w ++ t ∧ Forall noWrite t.

Definition lockEvent (key : string) : Event :=
  mkEvent (Lock applications.applicationResourceName key) 0 false None.
Definition unlockEvent (key : string) : Event :=
  mkEvent (Unlock applications.applicationResourceName key) 0 false None.
Definition getEvent (key : string) : Event :=
  mkEvent (ApplicationsGet key) 200 true (Some key).

(** The state after a critical section that only fetched the parent
    [key]: lock, one successful Get, unlock, and nothing else. *)
Definition onlyFetched (key : string) (w : World) : World :=
  logged (unlockEvent key) (logged (getEvent key) (logged (lockEvent key) w)).

(** The outcome of a mutation that only fetched the parent and returned
    [ds]: no Update call, the directory, the random source and the
    resource ID as they were. *)
Definition onlyFetchedWith (ds : Diagnostics) (key : string) (w : World)
    (r : Diagnostics * World) : Prop :=
  fst r = ds ∧
  trace (snd r) = trace w ++ [lockEvent key; getEvent key; unlockEvent key] ∧
  List.filter isUpdate (trace (snd r)) = List.filter isUpdate (trace w) ∧
  applications (snd r) = applications w ∧
  uuids (snd r) = uuids w ∧
  resourceId (snd r) = resourceId w.

Definition rolesOf (a : Application) : list AppRole := default_list (app_AppRoles a).

Definition scopesOf (a : Application) : list PermissionScope :=
  match app_Api a with
  | Some api => default_list (api_OAuth2PermissionScopes api)
  | None => []
  end.

Definition credentialsOf (a : Application) : list KeyCredential :=
  default_list (app_KeyCredentials a).

(** The collection [l] with every entry of ID [entry] replaced by [x],
    and [l] without the entries of that ID.  The other entries are kept
    as they are, in their order. *)
Definition withEntry {A} (ID : A → option string) (entry : string) (x : A)
    (l : list A) : list A :=
  List.map (λ y, if hasID entry (ID y) then x else y) l.

Definition withoutEntry {A} (ID : A → option string) (entry : string)
    (l : list A) : list A :=
  List.filter (λ y, negb (hasID entry (ID y))) l.

(** The whole-parent payloads of the sub-resource operations: the object
    ID of the parent and one collection. *)
Definition rolesWriteBack (key : string) (l : list AppRole) : Application :=
  set_app_AppRoles (Some l) (set_app_ID (Some key) emptyApplication).

Definition scopesWriteBack (key : string) (l : list PermissionScope) : Application :=
  set_app_Api (Some (mkApplicationApi (Some l))) (set_app_ID (Some key) emptyApplication).

(** The outcome of a delete in two write-backs of the collection
    [before] of the parent [key]: no error; exactly two update calls,
    both successful, the first carrying [before] with the entry replaced
    by [disabled], the second carrying [before] without the entry; and
    the stored parent ends with [before] without the entry. *)
Definition deletedInTwoWriteBacks {A} (ID : A → option string)
    (coll : Application → list A) (payload : list A → Application)
    (key entry : string) (disabled : A) (before : list A)
    (w : World) (r : Diagnostics * World) : Prop :=
  fst r = [] ∧
  (∃ t, trace (snd r) = trace w ++ t ∧
        writeBacks t = [payload (withEntry ID entry disabled before);
                        payload (withoutEntry ID entry before)] ∧
        length (List.filter isUpdate t) = 2%nat) ∧
  coll <$> applications (snd r) !! key = Some (withoutEntry ID entry before).

(** The credentials that carry a key ID other than [keyId]. *)
Definition keptCredentials (keyId : string) (creds : list KeyCredential)
    : list KeyCredential :=
  List.filter
    (λ cred, match cred_KeyId cred with
             | Some k => bool_decide (k ≠ keyId)
             | None => false
             end)
    creds.

(** The outcome of a mutation that wrote the collection [coll] of the
    parent [key] back once, as the payload [p]: no error, exactly one
    update call, which succeeded and carried [p], and the stored parent
    then holds [coll]. *)
Definition wroteBack {X} (proj : Application → X) (key : string) (p : Application)
    (coll : X) (w : World) (r : Diagnostics * World) : Prop :=
  fst r = [] ∧
  (∃ t, trace (snd r) = trace w ++ t ∧ writeBacks t = [p] ∧
        length (List.filter isUpdate t) = 1%nat) ∧
  proj <$> applications (snd r) !! key = Some coll.

(** ** Example data *)

Module example.

Definition roleA : AppRole :=
  mkAppRole (Some ["User"]) (Some "Administrators") (Some "Admin") (Some "role-1")
    (Some true) (Some "admin").

Definition scopeA : PermissionScope :=
  mkPermissionScope (Some "Read everything") (Some "Read") (Some "scope-1") (Some true)
    "User" (Some "Read everything") (Some "Read") (Some "read").

Definition keyA : KeyCredential :=
  mkKeyCredential (Some "key-1") "AsymmetricX509Cert" "Verify" (Some "MIIB") None None.

Definition appA : Application :=
  mkApplication (Some "app-1") (Some "demo") (Some [roleA])
    (Some (mkApplicationApi (Some [scopeA]))) (Some [keyA]) None None "AzureADMyOrg"
    None None None.

(** A directory with no objects, and one that holds [appA]; [rid] is the
    ID of the resource operated on. *)
Definition emptyWorld (rid : string) (script : list Reply) : World :=
  mkWorld ∅ ∅ ∅ None "tenant-1" script ["obj-1"] ["uuid-1"] 3 [] rid true.

Definition worldA (rid : string) (isNew : bool) : World :=
  mkWorld ∅ ∅ {["app-1" := appA]} None "tenant-1" [] ["obj-1"] ["uuid-1"] 3 [] rid isNew.

Definition groupA : GroupEntry :=
  mkGroupEntry
    (mkGroup (Some "grp-1") (Some "team") None (Some "nick") (Some true) (Some false)
       None None)
    (list_to_set ["A"; "B"; "C"]) ∅.

Definition worldG : World :=
  mkWorld {["grp-1" := groupA]} ∅ ∅ None "tenant-1" [] [] [] 3 [] "grp-1" false.

Definition groupConfig (members : list string) (changed : list string) : groups.Config :=
  groups.mkConfig "team" "" members [] false changed true true.

Definition userConfig : users.Config :=
  users.mkConfig "jane.doe@contoso.com" "Jane Doe" "" true "secret" false [].

Definition applicationConfig (roleValue scopeValue : string) (changed : list string)
    : applications.Config :=
  applications.mkConfig "demo" false
    [applications.mkRoleBlock "role-1" ["User"] "Administrators" "Admin" true roleValue]
    [applications.mkScopeBlock "Read everything" "Read" "scope-1" true "User"
       "Read everything" "Read" scopeValue]
    [] "AzureADMyOrg" "" "" "" false false [] [] changed.

Definition roleConfig (roleId : string) : app_role.Config :=
  app_role.mkConfig "app-1" ["User"] "Administrators" "Admin" true roleId "admin".

Definition scopeConfig (scopeId : string) : oauth2_scope.Config :=
  oauth2_scope.mkConfig "app-1" "Read everything" "Read" true scopeId "User"
    "Read everything" "Read" "read".

Definition certificateConfig (keyId : string) : certificate.Config :=
  certificate.mkConfig "app-1"
    (inr (mkKeyCredential (Some keyId) "AsymmetricX509Cert" "Verify" (Some "MIIB")
            None None)).

Definition domainsConfig : domains_ds.Config := domains_ds.mkConfig false true false.

Definition worldD : World :=
  mkWorld ∅ ∅ ∅
    (Some [mkDomain (Some "contoso.com") (Some "Managed") (Some true) (Some false) (Some true);
           mkDomain (Some "contoso.onmicrosoft.com") (Some "Managed") (Some false)
             (Some true) (Some true);
           mkDomain (Some "unknown.example") None None None None])
    "tenant-1" [] [] [] 3 [] "" false.

End example.

(** * Further properties of the operations: definitions *)

(** ** More observations on an operation *)

(** Neither a lock nor an unlock. *)
Definition noLock (e : Event) : Prop :=
  match ev_call e with
  | Lock _ _ | Unlock _ _ => False
  | _ => True
  end.

(** The events of one critical section on the application [key]: the
    lock, then events that are not lock events, then the unlock. *)
Definition lockedOnce (key : string) (t : list Event) : Prop :=
  ∃ mid, t = lockEvent key :: mid ++ [unlockEvent key] ∧ Forall noLock mid.

(** The operation either returns before it takes the lock, having
    recorded nothing, or runs exactly one critical section, on the
    application that [key] reads off the initial state. *)
Definition critical (key : World → option string) {A} (m : M A) : Prop :=
  ∀ w, ∃ t, trace (snd (m w)) = trace w ++ t ∧
            (t = [] ∨ ∃ k, key w = Some k ∧ lockedOnce k t).

(** The application that the resource ID of a sub-resource names. *)
Definition roleKey (w : World) : option string :=
  match parse.AppRoleID (resourceId w) with
  | inr id => Some (parse.ar_ObjectId id)
  | inl _ => None
  end.

Definition scopeKey (w : World) : option string :=
  match parse.OAuth2PermissionScopeID (resourceId w) with
  | inr id => Some (parse.ps_ObjectId id)
  | inl _ => None
  end.

Definition credentialKey (w : World) : option string :=
  match parse.CertificateID (resourceId w) with
  | inr id => Some (parse.cr_ObjectId id)
  | inl _ => None
  end.

(** The operation issues no write call and leaves the stored groups,
    users and applications as they are. *)
Definition readOnly {A} (m : M A) : Prop :=
  emits noWrite m ∧ preserves groups m ∧ preserves users m ∧ preserves applications m.

(** *** The slice of the parent that a sub-resource operation owns *)

(** A payload with the object ID and one collection, every other
    property nil. *)
Definition rolesSlice (p : Application) : Application :=
  mkApplication (app_ID p) None (app_AppRoles p) None None None None "" None None None.

Definition scopesSlice (p : Application) : Application :=
  mkApplication (app_ID p) None None (app_Api p) None None None "" None None None.

Definition credentialsSlice (p : Application) : Application :=
  mkApplication (app_ID p) None None None (app_KeyCredentials p) None None "" None None None.

(** The only write calls are updates of the application [key], and
    their payloads carry its object ID and the slice and nothing else. *)
Definition carriesOnly (key : string) (slice : Application → Application)
    (e : Event) : Prop :=
  match ev_call e with
  | ApplicationsUpdate p => app_ID p = Some key ∧ slice p = p
  | _ => isWrite e = false
  end.

(** A stored application with one collection blanked out. *)
Definition withoutRoles (a : Application) : Application := set_app_AppRoles None a.
Definition withoutScopes (a : Application) : Application := set_app_Api None a.
Definition withoutCredentials (a : Application) : Application := set_app_KeyCredentials None a.

(** The operation works on the parent application that [key] reads off
    the initial state, and on nothing else: its only write calls are
    updates of that application which carry the slice; every other
    stored application is afterwards what it was, and the parent is what
    it was outside the slice; groups and users are untouched.  When
    [key] names no application the operation makes no call at all. *)
Definition touchesOnly (key : World → option string)
    (slice erase : Application → Application) {A} (m : M A) : Prop :=
  ∀ w,
    (∃ t, trace (snd (m w)) = trace w ++ t ∧
          match key w with
          | Some k => Forall (carriesOnly k slice) t
          | None => t = []
          end) ∧
    (∀ i, key w ≠ Some i → applications (snd (m w)) !! i = applications w !! i) ∧
    (∀ i, erase <$> applications (snd (m w)) !! i = erase <$> applications w !! i) ∧
    groups (snd (m w)) = groups w ∧
    users (snd (m w)) = users w.

(** What a Get of the application [id] returns: an application, if any,
    that carries this ID. *)
Definition fetchedAs (id : string) (r : Response Application) : Prop :=
  match r with
  | Ok a _ => app_ID a = Some id
  | Failed _ _ => True
  end.

(** *** The values that an application payload carries *)

(** The non-empty "value" fields of the roles and scopes of a payload. *)
Definition payloadValues (p : Application) : list string :=
  List.filter nonEmptyString
    (List.map (λ r, default "" (role_Value r)) (rolesOf p) ++
     List.map (λ s, default "" (scope_Value s)) (scopesOf p)).

(** Every application create call carries pairwise distinct values. *)
Definition createsDistinct (e : Event) : Prop :=
  match ev_call e with
  | ApplicationsCreate p => NoDup (payloadValues p)
  | _ => True
  end.

(** ** Outcomes of sub-resource operations on a healthy service *)

(** The outcome of a read that fetched the parent [key]: no error, one
    successful Get, and the resource ID kept when the entry is [present]
    in the parent's collection and cleared otherwise. *)
Definition entryRead (present : bool) (key : string) (w : World)
    (r : Diagnostics * World) : Prop :=
  fst r = [] ∧
  trace (snd r) = trace w ++ [getEvent key] ∧
  resourceId (snd r) = (if present then resourceId w else "").

(** The outcome of a delete that found its entry already gone: no error,
    the resource ID cleared, and nothing but lock, one Get and unlock. *)
Definition goneQuietly (key : string) (w : World) (r : Diagnostics * World) : Prop :=
  fst r = [] ∧
  resourceId (snd r) = "" ∧
  trace (snd r) = trace w ++ [lockEvent key; getEvent key; unlockEvent key] ∧
  applications (snd r) = applications w.

(** The entry ID that a create uses, and the random source it leaves:
    the configured ID when there is one, the next UUID otherwise. *)
Definition drawnId (configured : string) (w : World) : option (string * list string) :=
  if nonEmptyString configured then Some (configured, uuids w)
  else match uuids w with
       | [] => None
       | u :: rest => Some (u, rest)
       end.

(** ** Applications: the [optional_claims] and [required_resource_access]
       blocks

    The payload types of the API client that these blocks are expanded
    into, the decoded configuration blocks, and the values that the
    flatten functions hand to [tf.Set]. *)

Module application_blocks.

Record OptionalClaim : Type := mkOptionalClaim {
  claim_AdditionalProperties : option (list string);
  claim_Essential : option bool;
  claim_Name : option string;
  claim_Source : option string;
}.

Record OptionalClaims : Type := mkOptionalClaims {
  claims_AccessToken : option (list OptionalClaim);
  claims_IdToken : option (list OptionalClaim);
  claims_Saml2Token : option (list OptionalClaim);
}.

Record ResourceAccess : Type := mkResourceAccess {
  access_ID : option string;
  access_Type : string;
}.

Record RequiredResourceAccess : Type := mkRequiredResourceAccess {
  required_ResourceAppId : option string;
  required_ResourceAccess : option (list ResourceAccess);
}.

(** One element of an [access_token] or [id_token] list of the
    configuration.  [None] stands for a key that is absent or holds nil
    (for [source]: that does not hold a string). *)
Record ClaimBlock : Type := mkClaimBlock {
  cb_name : string;
  cb_essential : bool;
  cb_additional_properties : option (list string);
  cb_source : option string;
}.

(** The one element of the [optional_claims] list. *)
Record ClaimsBlock : Type := mkClaimsBlock {
  cb_access_token : list ClaimBlock;
  cb_id_token : list ClaimBlock;
}.

Record AccessBlock : Type := mkAccessBlock {
  ab_id : string;
  ab_type : string;
}.

Record ResourceBlock : Type := mkResourceBlock {
  rb_resource_app_id : string;
  rb_resource_access : list AccessBlock;
}.

(** *** Expanding *)

Definition expandApplicationOptionalClaim (input : list ClaimBlock)
    : option (list OptionalClaim) :=
  Some (List.map
          (λ optionalClaim,
             let additionalProps :=
               match cb_additional_properties optionalClaim with
               | Some props => props
               | None => []
               end in
             let newClaim :=
               mkOptionalClaim (Some additionalProps) (Some (cb_essential optionalClaim))
                 (Some (cb_name optionalClaim)) None in
             match cb_source optionalClaim with
             | Some source =>
                 if nonEmptyString source
                 then mkOptionalClaim (claim_AdditionalProperties newClaim)
                        (claim_Essential newClaim) (claim_Name newClaim) (Some source)
                 else newClaim
             | None => newClaim
             end)
          input).

(** [input] is the [optional_claims] list of the configuration: at most
    one element, which is nil when the block is empty. *)
Definition expandApplicationOptionalClaims (input : list (option ClaimsBlock))
    : option OptionalClaims :=
  let result := mkOptionalClaims None None None in
  match input with
  | [] => Some result
  | None :: _ => Some result
  | Some optionalClaims :: _ =>
      Some (mkOptionalClaims
              (expandApplicationOptionalClaim (cb_access_token optionalClaims))
              (expandApplicationOptionalClaim (cb_id_token optionalClaims))
              (claims_Saml2Token result))
  end.

Definition expandApplicationResourceAccess (input : list AccessBlock)
    : option (list ResourceAccess) :=
  Some (List.map
          (λ resourceAccess,
             mkResourceAccess (Some (ab_id resourceAccess)) (ab_type resourceAccess))
          input).

Definition expandApplicationRequiredResourceAccess (input : list ResourceBlock)
    : option (list RequiredResourceAccess) :=
  Some (List.map
          (λ requiredResourceAccess,
             mkRequiredResourceAccess (Some (rb_resource_app_id requiredResourceAccess))
               (expandApplicationResourceAccess
                  (rb_resource_access requiredResourceAccess)))
          input).

(** *** Flattening *)

(** One flattened optional claim: [name] and [essential] are stored as
    the pointers they are, [source] and [additional_properties] as
    values. *)
Record FlatClaim : Type := mkFlatClaim {
  fc_name : option string;
  fc_essential : option bool;
  fc_source : string;
  fc_additional_properties : list string;
}.

Record FlatClaims : Type := mkFlatClaims {
  fc_access_token : list FlatClaim;
  fc_id_token : list FlatClaim;
}.

(** One flattened resource access: the [id] key is set only for an ID
    that is not nil. *)
Record FlatAccess : Type := mkFlatAccess {
  fa_id : option string;
  fa_type : string;
}.

Record FlatResource : Type := mkFlatResource {
  fr_resource_app_id : string;
  fr_resource_access : list FlatAccess;
}.

Definition flattenApplicationOptionalClaim (input : option (list OptionalClaim))
    : list FlatClaim :=
  match input with
  | None => []
  | Some claims =>
      List.map
        (λ claim,
           mkFlatClaim (claim_Name claim) (claim_Essential claim)
             (match claim_Source claim with
              | Some source => source
              | None => ""
              end)
             (match claim_AdditionalProperties claim with
              | Some (p :: ps) => p :: ps
              | _ => []
              end))
        claims
  end.

Definition flattenApplicationOptionalClaims (input : option OptionalClaims)
    : list FlatClaims :=
  match input with
  | None => []
  | Some claims =>
      let accessTokenClaims := flattenApplicationOptionalClaim (claims_AccessToken claims) in
      let idTokenClaims := flattenApplicationOptionalClaim (claims_IdToken claims) in
      if bool_decide (length accessTokenClaims = 0%nat)
         && bool_decide (length idTokenClaims = 0%nat)
      then []
      else [mkFlatClaims accessTokenClaims idTokenClaims]
  end.

Definition flattenApplicationResourceAccess (input : option (list ResourceAccess))
    : list FlatAccess :=
  match input with
  | None => []
  | Some accesses =>
      List.map (λ resourceAccess,
                  mkFlatAccess (access_ID resourceAccess) (access_Type resourceAccess))
        accesses
  end.

Definition flattenApplicationRequiredResourceAccess
    (input : option (list RequiredResourceAccess)) : list FlatResource :=
  match input with
  | None => []
  | Some required =>
      List.map
        (λ requiredResourceAccess,
           let resourceAppId :=
             match required_ResourceAppId requiredResourceAccess with
             | Some appId => appId
             | None => ""
             end in
           mkFlatResource resourceAppId
             (flattenApplicationResourceAccess
                (required_ResourceAccess requiredResourceAccess)))
        required
  end.

(** *** What a configuration block reads as once it is flattened *)

Definition claimOf (b : ClaimBlock) : FlatClaim :=
  mkFlatClaim (Some (cb_name b)) (Some (cb_essential b)) (default "" (cb_source b))
    (default [] (cb_additional_properties b)).

Definition accessOf (b : AccessBlock) : FlatAccess :=
  mkFlatAccess (Some (ab_id b)) (ab_type b).

Definition resourceOf (b : ResourceBlock) : FlatResource :=
  mkFlatResource (rb_resource_app_id b) (List.map accessOf (rb_resource_access b)).

End application_blocks.

(** ** Deleting a group, a user or an application *)

From stdpp Require pretty.

Module deletes.

Section Delete.

(** [client.Delete] of the API client, which the provider calls with the
    ID of the resource and which returns a status and an error.  Its
    behaviour is left open: the properties of the delete operations hold
    for every behaviour of the call. *)
Context (Delete : string → M (Response unit)).

Definition groupResourceDelete : M Diagnostics :=
  id ← Id;
  r ← GroupsClient.Get id;
  match r with
  | Failed status err =>
      id ← Id;
      if bool_decide (status = http_StatusNotFound) then
        mret (tf.ErrorDiagPathF (Some (ErrorString "Group was not found")) "id"
                "Retrieving group with object ID %q" [id])
      else
        mret (tf.ErrorDiagPathF (Some err) "id"
                "Retrieving group with object ID: %q" [id])
  | Ok _ _ =>
      id ← Id;
      r ← Delete id;
      match r with
      | Failed _ err =>
          id ← Id;
          mret (tf.ErrorDiagF (Some err) "Deleting group with object ID: %q" [id])
      | Ok _ _ => mret []
      end
  end.

Definition userResourceDelete : M Diagnostics :=
  id ← Id;
  r ← UsersClient.Get id;
  match r with
  | Failed status err =>
      id ← Id;
      if bool_decide (status = http_StatusNotFound) then
        mret (tf.ErrorDiagPathF (Some (ErrorString "User was not found")) "id"
                "Retrieving user with object ID %q" [id])
      else
        mret (tf.ErrorDiagPathF (Some err) "id"
                "Retrieving user with object ID %q" [id])
  | Ok _ _ =>
      id ← Id;
      r ← Delete id;
      match r with
      | Failed status err =>
          id ← Id;
          mret (tf.ErrorDiagPathF (Some err) "id"
                  "Deleting user with object ID %q, got status %d"
                  [id; pretty.pretty status])
      | Ok _ _ => mret []
      end
  end.

Definition applicationResourceDelete : M Diagnostics :=
  id ← Id;
  r ← ApplicationsClient.Get id;
  match r with
  | Failed status err =>
      id ← Id;
      if bool_decide (status = http_StatusNotFound) then
        mret (tf.ErrorDiagPathF (Some (ErrorString "Application was not found")) "id"
                "Retrieving Application with object ID %q" [id])
      else
        mret (tf.ErrorDiagPathF (Some err) "id"
                "Retrieving application with object ID %q" [id])
  | Ok _ _ =>
      id ← Id;
      r ← Delete id;
      match r with
      | Failed status err =>
          id ← Id;
          mret (tf.ErrorDiagPathF (Some err) "id"
                  "Deleting application with object ID %q, got status %d"
                  [id; pretty.pretty status])
      | Ok _ _ => mret []
      end
  end.

End Delete.

End deletes.

(** The outcome of a delete whose Get failed, leaving the state [w1]: an
    error that wraps [cause], and the state as the Get left it, so that
    no delete call was made. *)
Definition deleteRefused (cause : error) (w1 : World) (r : Diagnostics * World) : Prop :=
  (∃ attr summary args, fst r = [ErrorDiag (Some cause) attr summary args]) ∧
  snd r = w1.

(** The outcome of a delete whose Get succeeded, leaving the state
    [w1]: the delete call is made in that state, on the ID of the
    resource, and the operation fails exactly when the call fails. *)
Definition deleteIssued (Delete : string → M (Response unit)) (w1 : World)
    (r : Diagnostics * World) : Prop :=
  snd r = snd (Delete (resourceId w1) w1) ∧
  match fst (Delete (resourceId w1) w1) with
  | Ok _ _ => fst r = []
  | Failed _ err => ∃ attr summary args, fst r = [ErrorDiag (Some err) attr summary args]
  end.

(** ** Users data source *)

Module users_ds.

(** [strings.Join] of the Go library *)
Fixpoint Join (elems : list string) (sep : string) : string :=
  match elems with
  | [] => ""
  | e :: rest =>
      match rest with
      | [] => e
      | _ => e +:+ sep +:+ Join rest sep
      end
  end.

(** The decoded configuration of an [azuread_users] data source. *)
Record Config : Type := mkConfig {
  qc_user_principal_names : list string;
  qc_object_ids : list string;
  qc_mail_nicknames : list string;
  qc_ignore_missing : bool;
}.

(** The four lists that the read builds from the users it found.  An
    element of [l_userList] is the map of ten properties copied from a
    user; it is kept as that user. *)
Record Lists : Type := mkLists {
  l_upns : list string;
  l_objectIds : list string;
  l_mailNicknames : list string;
  l_userList : list User;
}.

(** What the read stores: the ID of the data source and the four
    attributes. *)
Record Result : Type := mkResult {
  r_id : string;
  r_lists : Lists;
}.

Section Read.

(** [client.List] of the API client, called with an OData filter, and the
    digest [base64.URLEncoding.EncodeToString(sha1(...))] of the joined
    user principal names: both are outside the sources at hand and their
    behaviour is left open. *)
Context (List : string → M (Response (option (list User)))).
Context (hash : string → string).

(** The loop of lines 188-209; [inl] is an early return. *)
Fixpoint findByUpn (ignoreMissing : bool) (upns : list string) (users : list User)
    : M (Diagnostics + list User) :=
  match upns with
  | [] => mret (inr users)
  | v :: rest =>
      let filter := "userPrincipalName eq '" +:+ v +:+ "'" in
      r ← List filter;
      match r with
      | Failed _ err => mret (inl (tf.ErrorDiagF (Some err) "Finding user with UPN: %q" [v]))
      | Ok None _ =>
          mret (inl (tf.ErrorDiagF (Some (ErrorString "API returned nil result"))
                       "Bad API Response" []))
      | Ok (Some result) _ =>
          let count := length result in
          if bool_decide (1 < count)%nat then
            mret (inl (tf.ErrorDiagPathF None "user_principal_names"
                         "More than one user found with UPN: %q" [v]))
          else
            match result with
            | [] =>
                if ignoreMissing then findByUpn ignoreMissing rest users
                else
                  (* err is nil here *)
                  mret (inl (tf.ErrorDiagPathF None "user_principal_names"
                               "User with UPN %q was not found" [v]))
            | u :: _ => findByUpn ignoreMissing rest (users ++ [u])
            end
      end
  end.

(** The loop of lines 213-228.  The client model returns a user with
    every successful Get, so the check for a nil user without an error
    has no counterpart. *)
Fixpoint findByObjectId (ignoreMissing : bool) (objectIds : list string)
    (users : list User) : M (Diagnostics + list User) :=
  match objectIds with
  | [] => mret (inr users)
  | v :: rest =>
      r ← UsersClient.Get v;
      match r with
      | Failed status err =>
          if bool_decide (status = http_StatusNotFound) then
            if ignoreMissing then findByObjectId ignoreMissing rest users
            else
              mret (inl (tf.ErrorDiagPathF None "object_id"
                           "User not found with object ID: %q" [v]))
          else
            mret (inl (tf.ErrorDiagF (Some err) "Retrieving user with object ID: %q" [v]))
      | Ok u _ => findByObjectId ignoreMissing rest (users ++ [u])
      end
  end.

(** The loop of lines 231-252. *)
Fixpoint findByMailNickname (ignoreMissing : bool) (mailNicknames : list string)
    (users : list User) : M (Diagnostics + list User) :=
  match mailNicknames with
  | [] => mret (inr users)
  | v :: rest =>
      let filter := "mailNickname eq '" +:+ v +:+ "'" in
      r ← List filter;
      match r with
      | Failed _ err =>
          mret (inl (tf.ErrorDiagF (Some err) "Finding user with email alias: %q" [v]))
      | Ok None _ =>
          mret (inl (tf.ErrorDiagF (Some (ErrorString "API returned nil result"))
                       "Bad API Response" []))
      | Ok (Some result) _ =>
          let count := length result in
          if bool_decide (1 < count)%nat then
            mret (inl (tf.ErrorDiagPathF None "mail_nicknames"
                         "More than one user found with email alias: %q" [v]))
          else
            match result with
            | [] =>
                if ignoreMissing then findByMailNickname ignoreMissing rest users
                else
                  (* err is nil here *)
                  mret (inl (tf.ErrorDiagPathF None "mail_nicknames"
                               "User not found with email alias: %q" [v]))
            | u :: _ => findByMailNickname ignoreMissing rest (users ++ [u])
            end
      end
  end.

(** The loop of lines 264-287; [None] is the early return on a user
    without object ID or user principal name. *)
Fixpoint collect (users : list User) (acc : Lists) : option Lists :=
  match users with
  | [] => Some acc
  | u :: rest =>
      match usr_ID u, usr_UserPrincipalName u with
      | Some id, Some upn =>
          collect rest
            (mkLists (l_upns acc ++ [upn]) (l_objectIds acc ++ [id])
               (match usr_MailNickname u with
                | Some nickname => l_mailNicknames acc ++ [nickname]
                | None => l_mailNicknames acc
                end)
               (l_userList acc ++ [u]))
      | _, _ => None
      end
  end.

(** Lines 186-254: the users that were found, or the early return, and
    the number of users that were asked for.  The user principal names
    take precedence over the object IDs, and these over the mail
    nicknames. *)
Definition lookup (c : Config) : M ((Diagnostics + list User) * nat) :=
  let ignoreMissing := qc_ignore_missing c in
  match qc_user_principal_names c with
  | _ :: _ =>
      found ← findByUpn ignoreMissing (qc_user_principal_names c) [];
      mret (found, length (qc_user_principal_names c))
  | [] =>
      match qc_object_ids c with
      | _ :: _ =>
          found ← findByObjectId ignoreMissing (qc_object_ids c) [];
          mret (found, length (qc_object_ids c))
      | [] =>
          match qc_mail_nicknames c with
          | _ :: _ =>
              found ← findByMailNickname ignoreMissing (qc_mail_nicknames c) [];
              mret (found, length (qc_mail_nicknames c))
          | [] => mret (inr [], 0%nat)
          end
      end
  end.

(** The operation returns its diagnostics and what it stores ([None]
    when it stores nothing).  Writing to the digest never fails. *)
Definition usersDataSourceRead (c : Config) : M (Diagnostics * option Result) :=
  let ignoreMissing := qc_ignore_missing c in
  r ← lookup c;
  match r with
  | (inl ds, _) => mret (ds, None)
  | (inr users, expectedCount) =>
      if negb ignoreMissing && negb (bool_decide (length users = expectedCount)) then
        mret (tf.ErrorDiagF
                (Some (ErrorString ("Expected: " +:+ pretty.pretty expectedCount +:+
                                    ", Actual: " +:+ pretty.pretty (length users))))
                "Unexpected number of users returned" [],
              None)
      else
        match collect users (mkLists [] [] [] []) with
        | None =>
            mret (tf.ErrorDiagF
                    (Some (ErrorString
                             "API returned user with nil object ID or userPrincipalName"))
                    "Bad API Response" [],
                  None)
        | Some lists =>
            let id := "users#" +:+ hash (Join (l_upns lists) "-") in
            SetId id;;
            (* tf.Set: mail_nicknames, object_ids, user_principal_names, users *)
            mret ([], Some (mkResult id lists))
        end
  end.

End Read.

End users_ds.


(** The users that the directory holds under the requested object IDs,
    in the order of the request. *)
Definition usersHeld (ids : list string) (w : World) : list User :=
  omap (λ i, UsersClient.set_usr_ID (Some i) <$> users w !! i) ids.


(** The diagnostics are not an error with this summary. *)
Definition otherThan (summary : string) (ds : Diagnostics) : Prop :=
  ∀ err attr args, ds ≠ [ErrorDiag err attr summary args].

(** ** Outcomes of operations on a group *)

(** The group entry that a create stores for the configuration [c] with
    the mail nickname [nickname]: a security group that is not mail
    enabled, with the configured name, description (when not empty),
    members and owners. *)
Definition configured (c : groups.Config) (nickname : string) (e : GroupEntry) : Prop :=
  grp_DisplayName (ge_props e) = Some (groups.gc_display_name c) ∧
  grp_Description (ge_props e) = applications.optString (groups.gc_description c) ∧
  grp_MailNickname (ge_props e) = Some nickname ∧
  grp_SecurityEnabled (ge_props e) = Some true ∧
  grp_MailEnabled (ge_props e) = Some false ∧
  ge_members e = asSet (groups.gc_members c) ∧
  ge_owners e = asSet (groups.gc_owners c).

(** The calls of a trace, in order. *)
Definition calls (t : list Event) : list Call := List.map ev_call t.

(** The call [c], when [l] is not empty. *)
Definition whenNonEmpty {A} (l : list A) (c : Call) : list Call :=
  match l with
  | [] => []
  | _ => [c]
  end.

(** ** The duplicate-name check *)

(** The duplicate-name check of a group update does not stop the update:
    either it is not due (prevent_duplicate_names is unset or the display
    name has not changed), or it finds no other group of that name. *)
Definition nameIsFree (c : groups.Config) (w : World) : Prop :=
  groups.gc_prevent_duplicate_names c && groups.HasChange c "display_name" = true →
  fst (helpers.GroupCheckNameAvailability (groups.gc_display_name c)
         (Some (resourceId w)) w) = inr None.




(** ** More example data *)

Module example2.

(** An application that holds the credential "key-1" and a credential
    without a key ID. *)
Definition appK : Application :=
  set_app_KeyCredentials
    (Some [example.keyA;
           mkKeyCredential None "AsymmetricX509Cert" "Verify" None None None])
    example.appA.

Definition worldK (rid : string) : World :=
  set_applications {["app-1" := appK]} (example.worldA rid false).

(** A directory that holds the users "u-1" and "u-2". *)
Definition userA : User :=
  mkUser None (Some true) (Some "Jane Doe") (Some "jane.doe") None
    (Some "jane.doe@contoso.com") [].

Definition userB : User :=
  mkUser None (Some true) (Some "John Roe") None None (Some "john.roe@contoso.com") [].

Definition worldU : World :=
  set_users {["u-1" := userA; "u-2" := userB]} (example.emptyWorld "" []).

(** A listing that finds nobody, and a digest that is its input. *)
Definition listNobody (filter : string) : M (Response (option (list User))) :=
  mret (Ok (Some []) 200).

Definition plain (s : string) : string := s.

(** A delete call that removes the group and answers 204. *)
Definition removeGroup (id : string) : M (Response unit) :=
  modify (λ w, set_groups (delete id (groups w)) w);;
  mret (Ok tt 204).

End example2.


(** * Properties of the monad *)

Lemma bind_run {A B} (m : M A) (f : A → M B) (w : World) :
  (m ≫= f) w = f (fst (m w)) (snd (m w)).
Proof. unfold mbind, M_bind. destruct (m w); reflexivity. Qed.

Lemma bind_eq {A B} (m : M A) (f : A → M B) (w w1 : World) (a : A) (r : B * World) :
  m w = (a, w1) → f a w1 = r → (m ≫= f) w = r.
Proof. intros Hm Hf. unfold mbind, M_bind. rewrite Hm. exact Hf. Qed.

(** Run the next operation of a sequence with [tac], or by evaluation. *)
Ltac step_with tac := eapply bind_eq; [tac|]; cbv beta iota.
Ltac step := eapply bind_eq; [reflexivity|]; cbv beta iota.

Lemma withLock_run {A} (name key : string) (body : M A) (w w1 : World) (a : A) :
  body (logged (mkEvent (Lock name key) 0 false None) w) = (a, w1) →
  withLock name key body w = (a, logged (mkEvent (Unlock name key) 0 false None) w1).
Proof.
  intros Hb. unfold withLock.
  step. step_with ltac:(exact Hb). step. reflexivity.
Qed.

Lemma isNewResource_logged e w : isNewResource (logged e w) = isNewResource w.
Proof. reflexivity. Qed.

(** ** What an operation records *)

Section Emits.
Context (P : Event → Prop).

Lemma emits_ret {A} (a : A) : emits P (mret a).
Proof. intros w. exists []. simpl. rewrite app_nil_r. auto. Qed.

Lemma emits_bind {A B} (m : M A) (f : A → M B) :
  emits P m → (∀ a, emits P (f a)) → emits P (m ≫= f).
Proof.
  intros Hm Hf w. rewrite bind_run.
  destruct (Hm w) as (t1 & E1 & F1).
  destruct (Hf (fst (m w)) (snd (m w))) as (t2 & E2 & F2).
  exists (t1 ++ t2). rewrite E2, E1, app_assoc. split; [done|].
  apply Forall_app; auto.
Qed.

Lemma emits_silent {A} (m : M A) :
  (∀ w, trace (snd (m w)) = trace w) → emits P m.
Proof. intros H w. exists []. rewrite H, app_nil_r. auto. Qed.

Lemma emits_record (e : Event) : P e → emits P (record e).
Proof. intros H w. exists [e]. simpl. auto. Qed.

Lemma emits_note (c : Call) : P (mkEvent c 0 false None) → emits P (note c).
Proof. apply emits_record. Qed.

Lemma emits_nextReply : emits P nextReply.
Proof.
  apply emits_silent. intros w. unfold nextReply. destruct (replies w); reflexivity.
Qed.

Lemma emits_freshServerId : emits P freshServerId.
Proof.
  apply emits_silent. intros w. unfold freshServerId. destruct (serverIds w); reflexivity.
Qed.

Lemma emits_GenerateUUID : emits P GenerateUUID.
Proof.
  apply emits_silent. intros w. unfold GenerateUUID. destruct (uuids w); reflexivity.
Qed.

Lemma emits_getWorld : emits P getWorld.
Proof. apply emits_silent. reflexivity. Qed.

Lemma emits_Id : emits P Id.
Proof. apply emits_silent. reflexivity. Qed.

Lemma emits_IsNewResource : emits P IsNewResource.
Proof. apply emits_silent. reflexivity. Qed.

Lemma emits_SetId id : emits P (SetId id).
Proof. apply emits_silent. reflexivity. Qed.

Lemma emits_modify f : (∀ w, trace (f w) = trace w) → emits P (modify f).
Proof. intros H. apply emits_silent. intros w. apply H. Qed.

Lemma emits_exchange {A} (c : Call) (oid : A → option string) serve :
  (∀ s ok o, P (mkEvent c s ok o)) →
  (∀ r, emits P (serve r)) →
  emits P (exchange c oid serve).
Proof.
  intros Hc Hs. unfold exchange.
  apply emits_bind; [apply emits_nextReply|]. intros r.
  apply emits_bind; [apply Hs|]. intros resp.
  apply emits_bind; [|intros; apply emits_ret].
  apply emits_record. destruct resp; apply Hc.
Qed.

Lemma emits_poll {A} (n : nat) (probe : M (Response A)) :
  emits P probe → emits P (helpers.poll n probe).
Proof.
  intros Hp. induction n as [|n IH]; simpl.
  - apply emits_ret.
  - apply emits_bind; [exact Hp|]. intros [a s|s e].
    + apply emits_ret.
    + destruct (bool_decide _); [exact IH | apply emits_ret].
Qed.

End Emits.

(** Decompose an [emits] goal along the structure of the operation. *)
Ltac emits_step :=
  first
    [ apply emits_ret
    | apply emits_Id | apply emits_IsNewResource | apply emits_SetId
    | apply emits_getWorld | apply emits_GenerateUUID | apply emits_freshServerId
    | apply emits_nextReply
    | apply emits_modify; reflexivity
    | apply emits_note; solve [ intuition (reflexivity || done) ]
    | apply emits_exchange;
        [ solve [ intros; simpl; intuition (reflexivity || done) ] | intros ]
    | apply emits_poll
    | apply emits_bind; [ | intros ]
    | match goal with
      | |- emits _ (match ?x with _ => _ end) => destruct x
      | |- emits _ (let (_, _) := ?x in _) => destruct x
      end ].

Ltac emits_auto := repeat emits_step.

Create HintDb ops discriminated.
#[local] Hint Unfold
  GroupsClient.Create GroupsClient.Get GroupsClient.Update GroupsClient.onEntry
  GroupsClient.listOf GroupsClient.ListMembers GroupsClient.ListOwners
  GroupsClient.AddMembers GroupsClient.RemoveMembers GroupsClient.AddOwners
  GroupsClient.RemoveOwners
  UsersClient.Create UsersClient.Get
  ApplicationsClient.Create ApplicationsClient.Get ApplicationsClient.Update
  ApplicationsClient.onStored ApplicationsClient.ListOwners
  DomainsClient.List
  helpers.WaitForCreationReplication helpers.GroupCheckNameAvailability
  helpers.ApplicationFindByName helpers.ApplicationSetOwners
  helpers.ApplicationSetAppRoles helpers.ApplicationSetOAuth2PermissionScopes
  withLock
  : ops.

(** [emits] for an operation built from the API client. *)
Ltac emits_op :=
  autounfold with ops; unfold noWait, noWrite, anyEvent, noEvent, quiet; emits_auto.

(** ** What an operation leaves alone *)

Section Preserves.
Context {X : Type} (proj : World → X).

Lemma preserves_ret {A} (a : A) : preserves proj (mret a).
Proof. intros w. reflexivity. Qed.

Lemma preserves_bind {A B} (m : M A) (f : A → M B) :
  preserves proj m → (∀ a, preserves proj (f a)) → preserves proj (m ≫= f).
Proof. intros Hm Hf w. rewrite bind_run, Hf, Hm. reflexivity. Qed.

Lemma preserves_poll {A} (n : nat) (probe : M (Response A)) :
  preserves proj probe → preserves proj (helpers.poll n probe).
Proof.
  intros Hp. induction n as [|n IH]; simpl.
  - apply preserves_ret.
  - apply preserves_bind; [exact Hp|]. intros [a s|s e].
    + apply preserves_ret.
    + destruct (bool_decide _); [exact IH | apply preserves_ret].
Qed.

End Preserves.

Ltac preserves_prim :=
  intros ?w;
  unfold nextReply, freshServerId, GenerateUUID, getWorld, Id, IsNewResource, SetId,
    note, record, modify;
  repeat match goal with
         | |- context [match ?x with _ => _ end] => destruct x
         end;
  reflexivity.

Ltac preserves_step :=
  first
    [ apply preserves_ret
    | apply preserves_poll
    | apply preserves_bind; [ | intros ]
    | match goal with
      | |- preserves _ (match ?x with _ => _ end) => destruct x
      | |- preserves _ (let (_, _) := ?x in _) => destruct x
      end
    | solve [ preserves_prim ] ].

Ltac preserves_op := autounfold with ops; unfold exchange; repeat preserves_step.

Lemma Groups_Get_keeps_id id : preserves resourceId (GroupsClient.Get id).
Proof. preserves_op. Qed.

Lemma Users_Get_keeps_id id : preserves resourceId (UsersClient.Get id).
Proof. preserves_op. Qed.

Lemma Applications_Get_keeps_id id : preserves resourceId (ApplicationsClient.Get id).
Proof. preserves_op. Qed.

(** ** Exchanges with a healthy service *)

Ltac healthy := unfold healthy in *; simpl; assumption.

Lemma nextReply_healthy w : healthy w → nextReply w = (Normal, w).
Proof. unfold healthy, nextReply. intros ->. reflexivity. Qed.

Lemma exchange_run {A} (c : Call) (oid : A → option string) serve (w : World) resp w1 :
  healthy w →
  serve Normal w = (resp, w1) →
  exchange c oid serve w =
    (resp, logged (match resp with
                   | Ok a status => mkEvent c status true (oid a)
                   | Failed status _ => mkEvent c status false None
                   end) w1).
Proof.
  intros Hh Hs. unfold exchange.
  step_with ltac:(exact (nextReply_healthy w Hh)).
  step_with ltac:(exact Hs). step. reflexivity.
Qed.

Lemma Applications_Get_found (w : World) (i : string) (a : Application) :
  healthy w →
  applications w !! i = Some a →
  ApplicationsClient.Get i w = (Ok (set_app_ID (Some i) a) 200, logged (getEvent i) w).
Proof.
  intros Hh Ha. unfold ApplicationsClient.Get.
  erewrite exchange_run;
    [ | exact Hh | rewrite bind_run; simpl; rewrite Ha; reflexivity ].
  reflexivity.
Qed.

Lemma Applications_Update_found (w : World) (p a : Application) (i : string) :
  healthy w →
  app_ID p = Some i →
  applications w !! i = Some a →
  ApplicationsClient.Update p w =
    (Ok tt 204,
     logged (mkEvent (ApplicationsUpdate p) 204 true None)
       (set_applications (<[i := ApplicationsClient.patch p a]> (applications w)) w)).
Proof.
  intros Hh Hp Ha. unfold ApplicationsClient.Update, ApplicationsClient.onStored.
  erewrite exchange_run;
    [ | exact Hh | rewrite Hp, bind_run; simpl; rewrite Ha; reflexivity ].
  reflexivity.
Qed.

(** * Users: the default mail nickname *)

Lemma append_empty_r (s : string) : s +:+ "" = s.
Proof.
  induction s as [|c s IH]; [done|].
  change (String c s +:+ "") with (String c (s +:+ "")). by rewrite IH.
Qed.

Lemma append_assoc (a b c : string) : (a +:+ b) +:+ c = a +:+ (b +:+ c).
Proof.
  induction a as [|x a IH]; [done|].
  change (String x ((a +:+ b) +:+ c) = String x (a +:+ (b +:+ c))). by rewrite IH.
Qed.

Lemma prefix_at (c : ascii) (s : string) :
  String.prefix "@" (String c s) = Ascii.eqb c "@".
Proof.
  change (String.prefix "@" (String c s))
    with (if ascii_dec "@" c then String.prefix "" s else false).
  destruct (ascii_dec "@" c) as [<-|Hne].
  - by destruct s.
  - symmetry. apply Ascii.eqb_neq. congruence.
Qed.

Lemma genSplit_at_head (s cur : string) :
  strings.genSplit "@" 0 cur s !! 0%nat = Some (cur +:+ beforeAt s).
Proof.
  revert cur. induction s as [|c s IH]; intros cur.
  - simpl. by rewrite append_empty_r.
  - cbn [strings.genSplit beforeAt]. rewrite prefix_at.
    destruct (Ascii.eqb c "@").
    + simpl. by rewrite append_empty_r.
    + rewrite IH, append_assoc. reflexivity.
Qed.

Lemma firstPart_beforeAt (upn : string) : users.firstPart upn = Some (beforeAt upn).
Proof. unfold users.firstPart, strings.Split. apply (genSplit_at_head upn ""). Qed.

Example firstPart_example : users.firstPart "jane.doe@contoso.com" = Some "jane.doe".
Proof. reflexivity. Qed.

Example firstPart_no_at : users.firstPart "janedoe" = Some "janedoe".
Proof. reflexivity. Qed.

Example firstPart_two_ats : users.firstPart "a@b@c" = Some "a".
Proof. reflexivity. Qed.

Example Split_example : strings.Split "a/b/c" "/" = ["a"; "b"; "c"].
Proof. reflexivity. Qed.

(** The first event that an exchange followed by [k] records is the
    exchange itself. *)
Lemma exchange_first {A B} (c : Call) (oid : A → option string) serve
    (k : Response A → M B) :
  (∀ r, emits noEvent (serve r)) →
  (∀ resp, emits anyEvent (k resp)) →
  ∀ w, ∃ s ok o rest,
    trace (snd ((exchange c oid serve ≫= k) w)) = trace w ++ mkEvent c s ok o :: rest.
Proof.
  intros Hs Hk w. unfold exchange. rewrite !bind_run.
  destruct (emits_nextReply noEvent w) as (t0 & E0 & F0).
  set (w0 := snd (nextReply w)) in *. set (r := fst (nextReply w)).
  destruct (Hs r w0) as (t1 & E1 & F1).
  set (w1 := snd (serve r w0)) in *. set (resp := fst (serve r w0)).
  cbn [fst snd mret M_ret record modify].
  assert (t0 = []) as -> by (destruct t0 as [|? ?]; [done | by inversion F0]).
  assert (t1 = []) as -> by (destruct t1 as [|? ?]; [done | by inversion F1]).
  rewrite app_nil_r in *.
  match goal with |- context [k resp ?w2] => destruct (Hk resp w2) as (rest & Er & _) end.
  destruct resp as [a s|s e]; eexists _, _, _, rest; rewrite Er; simpl;
    rewrite E1, E0, <- app_assoc; reflexivity.
Qed.

(** C10: whatever the state of the service, the first call that
    [userResourceCreate] makes is the user create call, and its payload
    carries as mail nickname the part of the user principal name before
    the first '@' when the configured mail_nickname is empty, and the
    configured mail_nickname unchanged otherwise. *)
Theorem C10_default_mail_nickname (c : users.Config) (w : World) :
  let expected :=
    if bool_decide (users.uc_mail_nickname c = "")
    then beforeAt (users.uc_user_principal_name c)
    else users.uc_mail_nickname c in
  ∃ properties status ok oid rest,
    trace (snd (users.userResourceCreate c w)) =
      trace w ++ mkEvent (UsersCreate properties) status ok oid :: rest ∧
    usr_MailNickname properties = Some expected ∧
    usr_UserPrincipalName properties = Some (users.uc_user_principal_name c).
Proof.
  intros expected. unfold users.userResourceCreate. cbv zeta.
  replace (if bool_decide (users.uc_mail_nickname c = "")
           then users.firstPart (users.uc_user_principal_name c)
           else Some (users.uc_mail_nickname c)) with (Some expected)
    by (unfold expected; rewrite firstPart_beforeAt; by destruct (bool_decide _)).
  unfold UsersClient.Create.
  match goal with
  | |- context [exchange ?cl ?oid ?serve ≫= ?k] =>
      destruct (exchange_first cl oid serve k) with (w := w) as (s & ok & o & rest & E)
  end.
  - intros r. emits_op.
  - intros resp. unfold users.userResourceRead. emits_op.
  - eexists _, s, ok, o, rest. split; [exact E|]. split; reflexivity.
Qed.

Example user_create_example :
  let r := users.userResourceCreate example.userConfig (example.emptyWorld "" []) in
  fst r = [] ∧
  resourceId (snd r) = "obj-1" ∧
  (usr_MailNickname <$> users (snd r) !! "obj-1") = Some (Some "jane.doe").
Proof. vm_compute. done. Qed.

(** * Groups: the set-difference reconciliation *)

Lemma elem_of_Difference (x : string) (a b : list string) :
  x ∈ utils.Difference a b ↔ x ∈ a ∧ x ∉ b.
Proof.
  unfold utils.Difference. rewrite list_elem_of_difference, elem_of_remove_dups. done.
Qed.

Lemma NoDup_Difference (a b : list string) : NoDup (utils.Difference a b).
Proof. unfold utils.Difference. apply NoDup_list_difference, NoDup_remove_dups. Qed.

Lemma asSet_Difference (a b : list string) :
  asSet (utils.Difference a b) = asSet a ∖ asSet b.
Proof.
  apply set_eq. intros x. unfold asSet.
  rewrite elem_of_difference, !elem_of_list_to_set, elem_of_Difference. done.
Qed.

Example Difference_example :
  utils.Difference ["A"; "B"; "C"] ["B"; "C"; "D"] = ["A"] ∧
  utils.Difference ["B"; "C"; "D"] ["A"; "B"; "C"] = ["D"].
Proof. split; reflexivity. Qed.

Example Difference_duplicates :
  utils.Difference ["A"; "A"; "B"] ["B"; "B"] = ["A"].
Proof. reflexivity. Qed.

Lemma reconcile_sets (C D : gset string) :
  (D ∖ C) ## (C ∖ D) ∧ (C ∪ (D ∖ C)) ∖ (C ∖ D) = D ∧ (C ∖ (C ∖ D)) ∪ (D ∖ C) = D.
Proof.
  split; [|split].
  - apply elem_of_disjoint. intros x. rewrite !elem_of_difference. tauto.
  - apply set_eq. intros x.
    rewrite elem_of_difference, elem_of_union, !elem_of_difference.
    destruct (decide (x ∈ C)), (decide (x ∈ D)); tauto.
  - apply set_eq. intros x.
    rewrite elem_of_union, !elem_of_difference.
    destruct (decide (x ∈ C)), (decide (x ∈ D)); tauto.
Qed.

Lemma Groups_listOf_found (w : World) (c : Call) (id : string) rel (e : GroupEntry) :
  healthy w →
  groups w !! id = Some e →
  GroupsClient.listOf c id rel w =
    (Ok (elements (rel e)) 200, logged (mkEvent c 200 true None) w).
Proof.
  intros Hh He. unfold GroupsClient.listOf.
  erewrite exchange_run;
    [ | exact Hh | rewrite bind_run; simpl; rewrite He; reflexivity ].
  reflexivity.
Qed.

Lemma Groups_onEntry_found (w : World) (c : Call) (id : string) f (e : GroupEntry) :
  healthy w →
  groups w !! id = Some e →
  GroupsClient.onEntry c (Some id) f w =
    (Ok tt 204,
     logged (mkEvent c 204 true None) (set_groups (<[id := f e]> (groups w)) w)).
Proof.
  intros Hh He. unfold GroupsClient.onEntry.
  erewrite exchange_run;
    [ | exact Hh | rewrite bind_run; simpl; rewrite He; reflexivity ].
  reflexivity.
Qed.

Lemma foldl_AppendMember (g : Group) (l : list string) :
  grp_ID (foldl AppendMember g l) = grp_ID g ∧
  default_list (grp_Members (foldl AppendMember g l)) = default_list (grp_Members g) ++ l.
Proof.
  revert g. induction l as [|x l IH]; intros g; simpl.
  - by rewrite app_nil_r.
  - destruct (IH (AppendMember g x)) as [-> ->]. simpl. by rewrite <- app_assoc.
Qed.

Lemma foldl_AppendOwner (g : Group) (l : list string) :
  grp_ID (foldl AppendOwner g l) = grp_ID g ∧
  default_list (grp_Owners (foldl AppendOwner g l)) = default_list (grp_Owners g) ++ l.
Proof.
  revert g. induction l as [|x l IH]; intros g; simpl.
  - by rewrite app_nil_r.
  - destruct (IH (AppendOwner g x)) as [-> ->]. simpl. by rewrite <- app_assoc.
Qed.

Lemma asSet_elements (X : gset string) : asSet (elements X) = X.
Proof. apply list_to_set_elements_L. Qed.

Lemma asSet_nil : asSet [] = ∅.
Proof. reflexivity. Qed.

Lemma gset_difference_empty (X : gset string) : X ∖ ∅ = X.
Proof. apply difference_empty_L. Qed.

Lemma gset_union_empty (X : gset string) : X ∪ ∅ = X.
Proof. apply union_empty_r_L. Qed.

(** * Domains: the filters of the data source *)

Section Domains.
Import domains_ds domains_spec.

Lemma keep_spec (c : Config) (v : Domain) :
  keep c v = if decide (passes c v) then Some (toEntry v) else None.
Proof.
  destruct (decide (passes c v)) as [Hp|Hn];
    unfold passes, keep, toEntry, notFalse, isFalse in *;
    destruct c as [iu od oi], v as [i a d1 d2 d3]; simpl in *.
  - destruct Hp as (Hd & Hi & Hv).
    destruct od, d1 as [[]|]; destruct oi, d2 as [[]|]; destruct iu, d3 as [[]|];
      simpl; first [ reflexivity | exfalso; intuition congruence ].
  - destruct od, d1 as [[]|]; destruct oi, d2 as [[]|]; destruct iu, d3 as [[]|];
      simpl; first [ reflexivity | exfalso; apply Hn; repeat split; congruence ].
Qed.

Lemma collect_spec (c : Config) (result : list Domain) (acc : list Entry) :
  collect c result acc = acc ++ List.map toEntry (filter (passes c) result).
Proof.
  revert acc. induction result as [|v rest IH]; intros acc; simpl.
  - by rewrite app_nil_r.
  - rewrite keep_spec, filter_cons. case_decide.
    + rewrite IH, <- app_assoc. reflexivity.
    + apply IH.
Qed.

Lemma read_after_list c w resp w1 :
  DomainsClient.List w = (resp, w1) →
  fst (domainsDataSourceRead c w) =
    match resp with
    | Failed _ err => (tf.ErrorDiagF (Some err) "Could not list domains" [], None)
    | Ok result _ =>
        match filter (passes c) (default_list result) with
        | [] => (tf.ErrorDiagF None "No domains found for the provided filters" [], None)
        | passing => ([], Some (List.map toEntry passing))
        end
    end.
Proof.
  intros HL. unfold domainsDataSourceRead.
  unfold mbind at 1, M_bind at 1. rewrite HL.
  destruct resp as [result s|s e]; [|reflexivity].
  assert (Hc : match result with Some l => collect c l [] | None => [] end
               = List.map toEntry (filter (passes c) (default_list result))).
  { destruct result as [l|]; [|reflexivity]. rewrite collect_spec. reflexivity. }
  cbv zeta. rewrite Hc.
  destruct (filter (passes c) (default_list result)) as [|v rest]; reflexivity.
Qed.

Lemma passing_satisfy c l :
  Forall (passes c) l → Forall (satisfies c) (List.map toEntry l).
Proof. induction 1 as [|v l Hv _ IH]; simpl; constructor; [exact Hv | exact IH]. Qed.

(** C9: a read that succeeds returns a non-empty list whose entries all
    satisfy the active filters, a nil flag never excluding a domain; more
    precisely, when the listing succeeds the read returns exactly the
    listed domains that pass the filters, in order, and fails when none
    passes. *)
Theorem C9_domains_filter (c : Config) (w : World) :
  let '(ds, out) := fst (domainsDataSourceRead c w) in
  (ds = [] →
     ∃ entries, out = Some entries ∧ entries ≠ [] ∧ Forall (satisfies c) entries) ∧
  (∀ result status,
     fst (DomainsClient.List w) = Ok result status →
     let passing := filter (passes c) (default_list result) in
     (passing = [] → HasError ds ∧ out = None) ∧
     (passing ≠ [] → ds = [] ∧ out = Some (List.map toEntry passing))).
Proof.
  destruct (DomainsClient.List w) as [resp w1] eqn:HL.
  rewrite (read_after_list c w resp w1 HL).
  destruct resp as [result s|s e]; simpl.
  - destruct (filter (passes c) (default_list result)) as [|v rest] eqn:Ef.
    + split; [discriminate|]. intros r st [= <- _]. simpl. rewrite Ef.
      split; [done|]. intros []. reflexivity.
    + split.
      * intros _. eexists. split; [reflexivity|]. split; [discriminate|].
        apply (passing_satisfy c (v :: rest)). rewrite <- Ef.
        apply Forall_forall. intros x Hx.
        apply list_elem_of_filter in Hx as [Hp _]. exact Hp.
      * intros r st [= <- _]. simpl. rewrite Ef. split; [discriminate|done].
  - split; [discriminate|]. intros r st [=].
Qed.

(** With only_default set: the default domain and the one whose flags
    are nil are returned, the non-default one is not. *)
Example domains_example :
  fst (domainsDataSourceRead example.domainsConfig example.worldD) =
    ([], Some [mkEntry (Some "contoso.com") (Some "Managed") (Some true) (Some false)
                 (Some true);
               mkEntry (Some "unknown.example") None None None None]).
Proof. reflexivity. Qed.

Lemma C9_witness :
  ∃ entries,
    snd (fst (domainsDataSourceRead example.domainsConfig example.worldD)) = Some entries ∧
    entries ≠ [] ∧ Forall (satisfies example.domainsConfig) entries.
Proof.
  pose proof (C9_domains_filter example.domainsConfig example.worldD) as H.
  rewrite domains_example in H. rewrite domains_example.
  exact (proj1 H eq_refl).
Defined.

End Domains.

(** * Applications: duplicate values of roles and scopes *)

Section Validation.
Import applications.

Lemma roleValues_spec roles acc :
  roleValues roles acc = acc ++ List.filter nonEmptyString (List.map rb_value roles).
Proof.
  revert acc. induction roles as [|r rest IH]; intros acc; simpl.
  - by rewrite app_nil_r.
  - rewrite IH. destruct (nonEmptyString (rb_value r)); [|done].
    by rewrite <- app_assoc.
Qed.

Lemma scopeValues_spec scopes acc :
  scopeValues scopes acc = acc ++ List.filter nonEmptyString (List.map sb_value scopes).
Proof.
  revert acc. induction scopes as [|r rest IH]; intros acc; simpl.
  - by rewrite app_nil_r.
  - rewrite IH. destruct (nonEmptyString (sb_value r)); [|done].
    by rewrite <- app_assoc.
Qed.

Lemma seen_spec val encountered : seen val encountered = true ↔ val ∈ encountered.
Proof.
  induction encountered as [|en rest IH]; simpl.
  - split; [discriminate | by intros ?%elem_of_nil].
  - rewrite elem_of_cons. case_bool_decide as He.
    + split; [intros _; left; done | done].
    + rewrite IH. split; [by right | intros [?|?]; [congruence | done]].
Qed.

Lemma findDuplicate_spec values encountered :
  findDuplicate values encountered = None ↔
  NoDup values ∧ ∀ x, x ∈ values → x ∉ encountered.
Proof.
  revert encountered. induction values as [|val rest IH]; intros enc; simpl.
  - split; [intros _; split; [constructor | by intros ? ?%elem_of_nil] | done].
  - destruct (seen val enc) eqn:Es.
    + apply seen_spec in Es. split; [discriminate|].
      intros [_ H]. exfalso. apply (H val); [left | done].
    + assert (Hval : val ∉ enc) by (rewrite <- seen_spec; congruence).
      rewrite IH, NoDup_cons. split.
      * intros [Hnd Hd]. split; [split; [|done]|].
        -- intros Hin. apply (Hd val Hin). apply elem_of_app. right. left.
        -- intros x [->|Hx]%elem_of_cons; [done|].
           intros Hxe. apply (Hd x Hx). apply elem_of_app. by left.
      * intros [[Hnr Hnd] Hd]. split; [done|].
        intros x Hx [Hxe|Hxv]%elem_of_app.
        -- apply (Hd x); [by right | done].
        -- apply list_elem_of_singleton in Hxv as ->. done.
Qed.

Lemma validate_spec roles scopes :
  applicationValidateRolesScopes roles scopes = None ↔ NoDup (combinedValues roles scopes).
Proof.
  unfold applicationValidateRolesScopes, combinedValues.
  rewrite scopeValues_spec, roleValues_spec, app_nil_l, List.filter_app.
  rewrite findDuplicate_spec. split; [by intros [? _] | intros H; split; [done|]].
  intros x _ ?%elem_of_nil. done.
Qed.

Lemma validate_fails_iff roles scopes :
  is_Some (applicationValidateRolesScopes roles scopes) ↔
  ¬ NoDup (combinedValues roles scopes).
Proof. rewrite <- validate_spec, <- not_eq_None_Some. done. Qed.

Example validate_duplicate :
  applicationValidateRolesScopes
    [mkRoleBlock "r1" ["User"] "d" "n" true "admin"]
    [mkScopeBlock "d" "n" "s1" true "User" "d" "n" "admin"]
  = Some (ErrorString "validation failed: duplicate value found: admin").
Proof. reflexivity. Qed.

Example validate_empty_values_ignored :
  applicationValidateRolesScopes
    [mkRoleBlock "r1" ["User"] "d" "n" true ""; mkRoleBlock "r2" ["User"] "d" "n" true ""]
    [mkScopeBlock "d" "n" "s1" true "User" "d" "n" "read"]
  = None.
Proof. reflexivity. Qed.

Lemma checkName_emits name self : emits noWrite (checkName name self).
Proof. unfold checkName. emits_op. Qed.

Lemma checkName_error name self w ds :
  fst (checkName name self w) = Some ds → HasError ds.
Proof.
  unfold checkName. rewrite bind_run.
  destruct (fst (helpers.ApplicationFindByName name w)) as [err|[a|]]; simpl.
  - intros [= <-]. done.
  - destruct (app_ID a) as [eid|]; simpl.
    + destruct (bool_decide _); simpl; [discriminate|]. intros [= <-]. done.
    + intros [= <-]. done.
  - discriminate.
Qed.

Lemma create_rejects_duplicates (c : Config) (w : World) :
  ¬ NoDup (combinedValues (ac_app_role c) (ac_oauth2_permission_scope c)) →
  rejectedUnwritten w (applicationResourceCreate c w).
Proof.
  intros Hdup. apply validate_fails_iff in Hdup as [err Herr].
  unfold applicationResourceCreate. cbv zeta. rewrite bind_run, Herr.
  set (chk := if ac_prevent_duplicate_names c then checkName (ac_display_name c) None
              else mret None).
  assert (He : emits noWrite chk)
    by (unfold chk; destruct (ac_prevent_duplicate_names c);
        [apply checkName_emits | apply emits_ret]).
  assert (Hs : ∀ ds, fst (chk w) = Some ds → HasError ds).
  { unfold chk. destruct (ac_prevent_duplicate_names c); [apply checkName_error|].
    discriminate. }
  destruct (He w) as (t & Et & Ft).
  destruct (fst (chk w)) as [ds|]; (split; [|by exists t]); simpl.
  - by apply Hs.
  - done.
Qed.

Lemma update_rejects_duplicates (c : Config) (w : World) :
  HasChange c "api.0.oauth2_permission_scope" = true →
  ¬ NoDup (combinedValues (ac_app_role c) (ac_oauth2_permission_scope c)) →
  rejectedUnwritten w (applicationResourceUpdate c w).
Proof.
  intros Hch Hdup. apply validate_fails_iff in Hdup as [err Herr].
  unfold applicationResourceUpdate. cbv zeta.
  rewrite bind_run. cbn [Id fst snd]. rewrite bind_run, Hch, Herr.
  set (chk := if ac_prevent_duplicate_names c
              then checkName (ac_display_name c) (Some (resourceId w))
              else mret None).
  assert (He : emits noWrite chk)
    by (unfold chk; destruct (ac_prevent_duplicate_names c);
        [apply checkName_emits | apply emits_ret]).
  assert (Hs : ∀ ds, fst (chk w) = Some ds → HasError ds).
  { unfold chk. destruct (ac_prevent_duplicate_names c); [apply checkName_error|].
    discriminate. }
  destruct (He w) as (t & Et & Ft).
  destruct (fst (chk w)) as [ds|]; (split; [|by exists t]); simpl.
  - by apply Hs.
  - done.
Qed.

(** C7 fails on the update path: an update whose OAuth2 permission
    scopes have not changed runs no duplicate detection.  Here the role
    value and the scope value are both "admin" and only the roles have
    changed.  Validation of these two lists fails, and a create with them
    is rejected before any write; the update, however, returns no error
    and writes the roles to the directory. *)
Theorem C7_update_skips_validation :
  let c := example.applicationConfig "admin" "admin" ["app_role"] in
  let r := applicationResourceUpdate c (example.worldA "app-1" false) in
  ¬ NoDup (combinedValues (ac_app_role c) (ac_oauth2_permission_scope c)) ∧
  is_Some (applicationValidateRolesScopes (ac_app_role c) (ac_oauth2_permission_scope c)) ∧
  rejectedUnwritten (example.emptyWorld "" [])
    (applicationResourceCreate c (example.emptyWorld "" [])) ∧
  fst r = [] ∧
  List.map ev_call (List.filter isWrite (trace (snd r))) =
    [ApplicationsUpdate
       (mkApplication (Some "app-1") (Some "demo") None (Some (mkApplicationApi None)) None
          (Some []) (Some false) "AzureADMyOrg" None
          (Some (mkApplicationWeb None None None None)) None);
     SetApplicationAppRoles (Some "app-1")
       (Some [mkAppRole (Some ["User"]) (Some "Administrators") (Some "Admin")
                (Some "role-1") (Some true) (Some "admin")])].
Proof.
  cbv zeta.
  assert (Hdup : ¬ NoDup (combinedValues
                            (ac_app_role (example.applicationConfig "admin" "admin"
                                            ["app_role"]))
                            (ac_oauth2_permission_scope
                               (example.applicationConfig "admin" "admin" ["app_role"])))).
  { rewrite <- validate_fails_iff. vm_compute. eauto. }
  split; [exact Hdup|]. split; [|split; [|split]].
  - by apply validate_fails_iff.
  - by apply create_rejects_duplicates.
  - vm_compute. reflexivity.
  - vm_compute. reflexivity.
Qed.

(** Validation fails exactly when the non-empty values of the roles and
    scopes together contain a duplicate; a create with such a duplicate
    fails before any write is issued, whatever the service answers, and
    so does an update whose OAuth2 permission scopes have changed. *)
Theorem duplicate_values_rejected_before_write :
  (∀ roles scopes,
     is_Some (applicationValidateRolesScopes roles scopes) ↔
     ¬ NoDup (combinedValues roles scopes)) ∧
  (∀ c w,
     ¬ NoDup (combinedValues (ac_app_role c) (ac_oauth2_permission_scope c)) →
     rejectedUnwritten w (applicationResourceCreate c w)) ∧
  (∀ c w,
     HasChange c "api.0.oauth2_permission_scope" = true →
     ¬ NoDup (combinedValues (ac_app_role c) (ac_oauth2_permission_scope c)) →
     rejectedUnwritten w (applicationResourceUpdate c w)).
Proof.
  split; [|split].
  - apply validate_fails_iff.
  - apply create_rejects_duplicates.
  - apply update_rejects_duplicates.
Qed.

(** The role value and the scope value are both "admin". *)
Lemma duplicate_values_rejected_before_write_witness :
  rejectedUnwritten (example.emptyWorld "" [])
    (applicationResourceCreate (example.applicationConfig "admin" "admin" [])
       (example.emptyWorld "" [])) ∧
  rejectedUnwritten (example.worldA "app-1" false)
    (applicationResourceUpdate
       (example.applicationConfig "admin" "admin" ["api.0.oauth2_permission_scope"])
       (example.worldA "app-1" false)).
Proof.
  split.
  - apply (proj1 (proj2 duplicate_values_rejected_before_write)).
    rewrite <- validate_fails_iff. vm_compute. eauto.
  - apply (proj2 (proj2 duplicate_values_rejected_before_write)).
    + reflexivity.
    + rewrite <- validate_fails_iff. vm_compute. eauto.
Defined.

End Validation.

(** * Reading a parent object *)

Lemma group_read_failed c w status err w1 :
  GroupsClient.Get (resourceId w) w = (Failed status err, w1) →
  readOutcome w status (groups.groupResourceRead c w).
Proof.
  intros HG. unfold groups.groupResourceRead.
  assert (Hid : resourceId w1 = resourceId w).
  { pose proof (Groups_Get_keeps_id (resourceId w) w) as H. by rewrite HG in H. }
  erewrite bind_eq; [|reflexivity|
    eapply bind_eq; [exact HG|cbv beta iota; reflexivity]].
  unfold readOutcome. split; intros Hs.
  - rewrite bool_decide_eq_true_2 by done. simpl. done.
  - rewrite bool_decide_eq_false_2 by done. simpl. split; [done|exact Hid].
Qed.

Lemma user_read_failed c w status err w1 :
  UsersClient.Get (resourceId w) w = (Failed status err, w1) →
  readOutcome w status (users.userResourceRead c w).
Proof.
  intros HG. unfold users.userResourceRead.
  assert (Hid : resourceId w1 = resourceId w).
  { pose proof (Users_Get_keeps_id (resourceId w) w) as H. by rewrite HG in H. }
  erewrite bind_eq; [|reflexivity|
    eapply bind_eq; [exact HG|cbv beta iota; reflexivity]].
  unfold readOutcome. split; intros Hs.
  - rewrite bool_decide_eq_true_2 by done. simpl. done.
  - rewrite bool_decide_eq_false_2 by done. simpl. split; [done|exact Hid].
Qed.

Lemma application_read_failed c w status err w1 :
  ApplicationsClient.Get (resourceId w) w = (Failed status err, w1) →
  readOutcome w status (applications.applicationResourceRead c w).
Proof.
  intros HG. unfold applications.applicationResourceRead.
  assert (Hid : resourceId w1 = resourceId w).
  { pose proof (Applications_Get_keeps_id (resourceId w) w) as H. by rewrite HG in H. }
  erewrite bind_eq; [|reflexivity|
    eapply bind_eq; [exact HG|cbv beta iota; reflexivity]].
  unfold readOutcome. split; intros Hs.
  - rewrite bool_decide_eq_true_2 by done. simpl. done.
  - rewrite bool_decide_eq_false_2 by done. simpl. split; [done|exact Hid].
Qed.

(** C6: when the Get of a group, user or application read fails with
    status 404, the read clears the resource ID and returns no error;
    when it fails with any other status, the read returns an error and
    keeps the resource ID. *)
Theorem C6_read_not_found_clears_state (w : World) (status : Z) (err : error) (w1 : World) :
  (∀ c, GroupsClient.Get (resourceId w) w = (Failed status err, w1) →
        readOutcome w status (groups.groupResourceRead c w)) ∧
  (∀ c, UsersClient.Get (resourceId w) w = (Failed status err, w1) →
        readOutcome w status (users.userResourceRead c w)) ∧
  (∀ c, ApplicationsClient.Get (resourceId w) w = (Failed status err, w1) →
        readOutcome w status (applications.applicationResourceRead c w)).
Proof.
  split; [|split]; intros c H.
  - by eapply group_read_failed.
  - by eapply user_read_failed.
  - by eapply application_read_failed.
Qed.

(** A group that is gone (404), and a service that answers 500. *)
Lemma C6_witness :
  readOutcome (example.emptyWorld "grp-9" []) 404
    (groups.groupResourceRead (example.groupConfig [] []) (example.emptyWorld "grp-9" [])) ∧
  readOutcome (example.emptyWorld "grp-9" [Fail 500]) 500
    (groups.groupResourceRead (example.groupConfig [] [])
       (example.emptyWorld "grp-9" [Fail 500])).
Proof.
  split.
  - eapply (proj1 (C6_read_not_found_clears_state _ 404 _ _)). reflexivity.
  - eapply (proj1 (C6_read_not_found_clears_state _ 500 _ _)). reflexivity.
Defined.

Example read_404_and_500 :
  let gone := groups.groupResourceRead (example.groupConfig [] [])
                (example.emptyWorld "grp-9" []) in
  let down := groups.groupResourceRead (example.groupConfig [] [])
                (example.emptyWorld "grp-9" [Fail 500]) in
  (fst gone = [] ∧ resourceId (snd gone) = "") ∧
  (fst down = tf.ErrorDiagF (Some (HttpError 500))
                "Retrieving group with object ID: %q" ["grp-9"] ∧
   resourceId (snd down) = "grp-9").
Proof. vm_compute. done. Qed.

(** * Sub-resources *)

Section CollectionFacts.
Context {A : Type} (ID : A → option string).

Lemma findByID_hasID id l x :
  findByID ID id l = Some x → hasID id (ID x) = true.
Proof. unfold findByID. intros H. by apply find_some in H as [_ ?]. Qed.

Lemma hasID_true id o : hasID id o = true ↔ o = Some id.
Proof.
  unfold hasID. destruct o as [i|]; [|split; discriminate].
  rewrite bool_decide_eq_true. split; congruence.
Qed.

Lemma findByID_replace id l old x :
  findByID ID id l = Some old →
  ID x = Some id →
  findByID ID id (List.map (λ y, if hasID id (ID y) then x else y) l) = Some x.
Proof.
  unfold findByID. intros Hf Hx.
  induction l as [|y l IH]; simpl in *; [discriminate|].
  destruct (hasID id (ID y)) eqn:Ey.
  - rewrite Hx. simpl. rewrite bool_decide_eq_true_2; done.
  - rewrite Ey. auto.
Qed.

Lemma findByID_filter_out id l :
  findByID ID id (List.filter (λ y, negb (hasID id (ID y))) l) = None.
Proof.
  unfold findByID. induction l as [|y l IH]; simpl; [done|].
  destruct (hasID id (ID y)) eqn:Ey; simpl; [exact IH|].
  rewrite Ey. exact IH.
Qed.

Lemma filter_out_shorter id l x :
  findByID ID id l = Some x →
  length (List.filter (λ y, negb (hasID id (ID y))) l) ≠ length l.
Proof.
  unfold findByID. intros Hf.
  assert (Hle : ∀ k : list A,
    (length (List.filter (λ y, negb (hasID id (ID y))) k) ≤ length k)%nat).
  { induction k as [|y k IH]; simpl; [lia|]. destruct (negb _); simpl; lia. }
  induction l as [|y l IH]; simpl in *; [discriminate|].
  destruct (hasID id (ID y)) eqn:Ey; simpl.
  - specialize (Hle l). lia.
  - specialize (IH Hf). lia.
Qed.

Lemma removeEntry_found x id l old :
  ID x = Some id →
  findByID ID id l = Some old →
  removeEntry ID x (Some l) = inr (List.filter (λ y, negb (hasID id (ID y))) l).
Proof.
  intros Hx Hf. unfold removeEntry. rewrite Hx.
  rewrite bool_decide_eq_false_2; [done|]. by eapply filter_out_shorter.
Qed.

Lemma withoutEntry_withEntry id x l :
  ID x = Some id →
  withoutEntry ID id (withEntry ID id x l) = withoutEntry ID id l.
Proof.
  intros Hx. unfold withoutEntry, withEntry.
  induction l as [|y l IH]; simpl; [done|].
  destruct (hasID id (ID y)) eqn:Ey; simpl.
  - rewrite Hx. simpl. rewrite bool_decide_eq_true_2 by done. simpl. exact IH.
  - rewrite Ey. simpl. by rewrite IH.
Qed.

Lemma appendEntry_exists kind x id coll old :
  ID x = Some id →
  findByID ID id (default_list coll) = Some old →
  appendEntry ID kind x coll = inl (AlreadyExistsError kind id).
Proof. intros Hx Hf. unfold appendEntry. by rewrite Hx, Hf. Qed.

End CollectionFacts.

Lemma find_app_none {A} (p : A → bool) (l1 l2 : list A) :
  List.find p l1 = None → List.find p (l1 ++ l2) = List.find p l2.
Proof.
  induction l1 as [|x l1 IH]; simpl; [done|].
  destruct (p x); [discriminate | exact IH].
Qed.

Lemma nonEmptyString_true s : s ≠ "" → nonEmptyString s = true.
Proof. intros H. unfold nonEmptyString. by rewrite bool_decide_eq_false_2. Qed.

Lemma onlyFetched_outcome ds key w :
  onlyFetchedWith ds key w (ds, onlyFetched key w).
Proof.
  unfold onlyFetchedWith, onlyFetched, logged. simpl.
  rewrite <- !app_assoc. repeat split.
  rewrite List.filter_app. simpl. by rewrite app_nil_r.
Qed.

(** ** Creating an entry whose ID is taken *)

Section Collisions.
Import applications.

Lemma role_create_collision (c : app_role.Config) (w : World) (app : Application)
    (old : AppRole) :
  app_role.rc_role_id c ≠ "" →
  isNewResource w = true →
  healthy w →
  applications w !! app_role.rc_application_object_id c = Some app →
  findByID role_ID (app_role.rc_role_id c) (rolesOf app) = Some old →
  app_role.applicationAppRoleResourceCreateUpdate c w =
    (tf.ImportAsExistsDiag "azuread_application_app_role"
       (app_role.rc_application_object_id c +:+ "/" +:+ app_role.rc_role_id c),
     onlyFetched (app_role.rc_application_object_id c) w).
Proof.
  intros Hid Hnew Hh Happ Hold.
  unfold app_role.applicationAppRoleResourceCreateUpdate. cbv zeta.
  rewrite (nonEmptyString_true _ Hid).
  step. unfold onlyFetched, lockEvent, unlockEvent.
  apply withLock_run. simpl parse.ar_ObjectId.
  step_with ltac:(apply (Applications_Get_found _ _ app); [healthy | exact Happ]).
  step. rewrite !isNewResource_logged, Hnew.
  unfold AppendAppRole.
  rewrite (appendEntry_exists role_ID "App Role" _ (app_role.rc_role_id c) _ old);
    [reflexivity | reflexivity | exact Hold].
Qed.

Lemma scope_create_collision (c : oauth2_scope.Config) (w : World) (app : Application)
    (old : PermissionScope) :
  oauth2_scope.pc_scope_id c ≠ "" →
  isNewResource w = true →
  healthy w →
  applications w !! oauth2_scope.pc_application_object_id c = Some app →
  findByID scope_ID (oauth2_scope.pc_scope_id c) (scopesOf app) = Some old →
  oauth2_scope.applicationOAuth2PermissionScopeResourceCreateUpdate c w =
    (tf.ImportAsExistsDiag "azuread_application_oauth2_permission_scope"
       (oauth2_scope.pc_application_object_id c +:+ "/" +:+ oauth2_scope.pc_scope_id c),
     onlyFetched (oauth2_scope.pc_application_object_id c) w).
Proof.
  intros Hid Hnew Hh Happ Hold.
  unfold scopesOf in Hold. destruct (app_Api app) as [api|] eqn:Hapi; [|discriminate].
  unfold oauth2_scope.applicationOAuth2PermissionScopeResourceCreateUpdate. cbv zeta.
  rewrite (nonEmptyString_true _ Hid).
  step. unfold onlyFetched, lockEvent, unlockEvent.
  apply withLock_run. simpl parse.ps_ObjectId.
  step_with ltac:(apply (Applications_Get_found _ _ app); [healthy | exact Happ]).
  step. rewrite !isNewResource_logged, Hnew.
  change (app_Api (set_app_ID _ app)) with (app_Api app). rewrite Hapi.
  unfold AppendOAuth2PermissionScope.
  rewrite (appendEntry_exists scope_ID "OAuth2 Permission Scope" _
             (oauth2_scope.pc_scope_id c) _ old);
    [reflexivity | reflexivity | exact Hold].
Qed.

Lemma copyUnlessPresent_found keyId creds acc old :
  List.find (certificate.keyIs keyId) creds = Some old →
  certificate.copyUnlessPresent keyId creds acc = inl tt.
Proof.
  revert acc. induction creds as [|cred rest IH]; intros acc Hf; simpl in *; [discriminate|].
  destruct (certificate.keyIs keyId cred); [reflexivity|]. by apply IH.
Qed.

Lemma certificate_create_collision (c : certificate.Config) (w : World) (app : Application)
    (credential old : KeyCredential) (keyId : string) :
  certificate.cc_credential c = inr credential →
  cred_KeyId credential = Some keyId →
  healthy w →
  applications w !! certificate.cc_application_object_id c = Some app →
  List.find (certificate.keyIs keyId) (credentialsOf app) = Some old →
  certificate.applicationCertificateResourceCreate c w =
    (tf.ImportAsExistsDiag "azuread_application_certificate"
       (certificate.cc_application_object_id c +:+ "/" +:+ keyId +:+ "/" +:+ "certificate"),
     onlyFetched (certificate.cc_application_object_id c) w).
Proof.
  intros Hc Hk Hh Happ Hold.
  unfold certificate.applicationCertificateResourceCreate. cbv zeta.
  rewrite Hc, Hk.
  unfold onlyFetched, lockEvent, unlockEvent.
  apply withLock_run. simpl parse.cr_ObjectId.
  step_with ltac:(apply (Applications_Get_found _ _ app); [healthy | exact Happ]).
  change (app_KeyCredentials (set_app_ID _ app)) with (app_KeyCredentials app).
  rewrite (copyUnlessPresent_found _ _ _ old Hold). reflexivity.
Qed.

(** C3: on a healthy service, creating an app role, an OAuth2 permission
    scope or a certificate with an explicit ID that an entry of the
    parent's collection already carries returns the import-as-exists
    diagnostic; the operation locks, fetches the parent once and unlocks,
    issues no Update call, draws no new ID and leaves the directory as it
    was. *)
Theorem C3_create_existing_id_fails_without_write :
  (∀ c w app old,
     app_role.rc_role_id c ≠ "" →
     isNewResource w = true →
     healthy w →
     applications w !! app_role.rc_application_object_id c = Some app →
     findByID role_ID (app_role.rc_role_id c) (rolesOf app) = Some old →
     onlyFetchedWith
       (tf.ImportAsExistsDiag "azuread_application_app_role"
          (app_role.rc_application_object_id c +:+ "/" +:+ app_role.rc_role_id c))
       (app_role.rc_application_object_id c) w
       (app_role.applicationAppRoleResourceCreateUpdate c w)) ∧
  (∀ c w app old,
     oauth2_scope.pc_scope_id c ≠ "" →
     isNewResource w = true →
     healthy w →
     applications w !! oauth2_scope.pc_application_object_id c = Some app →
     findByID scope_ID (oauth2_scope.pc_scope_id c) (scopesOf app) = Some old →
     onlyFetchedWith
       (tf.ImportAsExistsDiag "azuread_application_oauth2_permission_scope"
          (oauth2_scope.pc_application_object_id c +:+ "/" +:+ oauth2_scope.pc_scope_id c))
       (oauth2_scope.pc_application_object_id c) w
       (oauth2_scope.applicationOAuth2PermissionScopeResourceCreateUpdate c w)) ∧
  (∀ c w app credential old keyId,
     certificate.cc_credential c = inr credential →
     cred_KeyId credential = Some keyId →
     healthy w →
     applications w !! certificate.cc_application_object_id c = Some app →
     List.find (certificate.keyIs keyId) (credentialsOf app) = Some old →
     onlyFetchedWith
       (tf.ImportAsExistsDiag "azuread_application_certificate"
          (certificate.cc_application_object_id c +:+ "/" +:+ keyId +:+ "/" +:+ "certificate"))
       (certificate.cc_application_object_id c) w
       (certificate.applicationCertificateResourceCreate c w)).
Proof.
  split; [|split].
  - intros c w app old H1 H2 H3 H4 H5.
    rewrite (role_create_collision c w app old H1 H2 H3 H4 H5).
    apply onlyFetched_outcome.
  - intros c w app old H1 H2 H3 H4 H5.
    rewrite (scope_create_collision c w app old H1 H2 H3 H4 H5).
    apply onlyFetched_outcome.
  - intros c w app credential old keyId H1 H2 H3 H4 H5.
    rewrite (certificate_create_collision c w app credential old keyId H1 H2 H3 H4 H5).
    apply onlyFetched_outcome.
Qed.

Lemma C3_witness :
  onlyFetchedWith
    (tf.ImportAsExistsDiag "azuread_application_app_role" "app-1/role-1")
    "app-1" (example.worldA "" true)
    (app_role.applicationAppRoleResourceCreateUpdate (example.roleConfig "role-1")
       (example.worldA "" true)) ∧
  onlyFetchedWith
    (tf.ImportAsExistsDiag "azuread_application_oauth2_permission_scope" "app-1/scope-1")
    "app-1" (example.worldA "" true)
    (oauth2_scope.applicationOAuth2PermissionScopeResourceCreateUpdate
       (example.scopeConfig "scope-1") (example.worldA "" true)) ∧
  onlyFetchedWith
    (tf.ImportAsExistsDiag "azuread_application_certificate" "app-1/key-1/certificate")
    "app-1" (example.worldA "" true)
    (certificate.applicationCertificateResourceCreate (example.certificateConfig "key-1")
       (example.worldA "" true)).
Proof.
  split; [|split].
  - apply (proj1 C3_create_existing_id_fails_without_write
             (example.roleConfig "role-1") (example.worldA "" true)
             example.appA example.roleA); (reflexivity || discriminate).
  - apply (proj1 (proj2 C3_create_existing_id_fails_without_write)
             (example.scopeConfig "scope-1") (example.worldA "" true)
             example.appA example.scopeA); (reflexivity || discriminate).
  - apply (proj2 (proj2 C3_create_existing_id_fails_without_write)
             (example.certificateConfig "key-1") (example.worldA "" true)
             example.appA example.keyA example.keyA "key-1"); reflexivity.
Defined.

(** Without an explicit ID a fresh one is drawn, and the entry is
    appended and written back. *)
Example role_create_fresh_id :
  let r := app_role.applicationAppRoleResourceCreateUpdate (example.roleConfig "")
             (example.worldA "" true) in
  fst r = [] ∧ resourceId (snd r) = "app-1/uuid-1" ∧ uuids (snd r) = [] ∧
  length (writeBacks (trace (snd r))) = 1%nat.
Proof. vm_compute. done. Qed.

End Collisions.

(** ** Updating an entry that is gone *)

Section Gone.
Import applications.

Lemma role_update_not_found (c : app_role.Config) (w : World) (app : Application) :
  app_role.rc_role_id c ≠ "" →
  isNewResource w = false →
  healthy w →
  applications w !! app_role.rc_application_object_id c = Some app →
  helpers.AppRoleFindById app (app_role.rc_role_id c) = (None, None) →
  app_role.applicationAppRoleResourceCreateUpdate c w =
    (tf.ErrorDiagPathF None "role_id"
       "App Role with ID %q was not found for Application %q"
       [app_role.rc_role_id c; app_role.rc_application_object_id c],
     onlyFetched (app_role.rc_application_object_id c) w).
Proof.
  intros Hid Hnew Hh Happ Hnone.
  unfold app_role.applicationAppRoleResourceCreateUpdate. cbv zeta.
  rewrite (nonEmptyString_true _ Hid).
  step. unfold onlyFetched, lockEvent, unlockEvent.
  apply withLock_run. simpl parse.ar_ObjectId. simpl parse.ar_RoleId.
  step_with ltac:(apply (Applications_Get_found _ _ app); [healthy | exact Happ]).
  step. rewrite !isNewResource_logged, Hnew.
  change (helpers.AppRoleFindById (set_app_ID _ app) (app_role.rc_role_id c))
    with (helpers.AppRoleFindById app (app_role.rc_role_id c)).
  rewrite Hnone. reflexivity.
Qed.

Lemma scope_update_not_found (c : oauth2_scope.Config) (w : World) (app : Application) :
  oauth2_scope.pc_scope_id c ≠ "" →
  isNewResource w = false →
  healthy w →
  applications w !! oauth2_scope.pc_application_object_id c = Some app →
  fst (helpers.OAuth2PermissionFindById app (oauth2_scope.pc_scope_id c)) = None →
  oauth2_scope.applicationOAuth2PermissionScopeResourceCreateUpdate c w =
    (tf.ErrorDiagPathF None "scope_id"
       "OAuth2 Permission with ID %q was not found for Application %q"
       [oauth2_scope.pc_scope_id c; oauth2_scope.pc_application_object_id c],
     onlyFetched (oauth2_scope.pc_application_object_id c) w).
Proof.
  intros Hid Hnew Hh Happ Hnone.
  unfold oauth2_scope.applicationOAuth2PermissionScopeResourceCreateUpdate. cbv zeta.
  rewrite (nonEmptyString_true _ Hid).
  step. unfold onlyFetched, lockEvent, unlockEvent.
  apply withLock_run. simpl parse.ps_ObjectId. simpl parse.ps_ScopeId.
  step_with ltac:(apply (Applications_Get_found _ _ app); [healthy | exact Happ]).
  step. rewrite !isNewResource_logged, Hnew.
  change (helpers.OAuth2PermissionFindById (set_app_ID _ app) (oauth2_scope.pc_scope_id c))
    with (helpers.OAuth2PermissionFindById app (oauth2_scope.pc_scope_id c)).
  rewrite Hnone. reflexivity.
Qed.

(** C5 does not hold as stated: the update of an app role that is not in
    the fetched parent's collection returns an error and keeps the
    resource ID; the local state record is not deleted. *)
Lemma C5_counterexample :
  let w := example.worldA "app-1/role-9" false in
  let r := app_role.applicationAppRoleResourceCreateUpdate (example.roleConfig "role-9") w in
  isNewResource w = false ∧
  helpers.AppRoleFindById example.appA "role-9" = (None, None) ∧
  fst r = tf.ErrorDiagPathF None "role_id"
            "App Role with ID %q was not found for Application %q" ["role-9"; "app-1"] ∧
  HasError (fst r) ∧
  resourceId (snd r) = "app-1/role-9".
Proof. vm_compute. repeat split; done. Qed.

(** C5, amended: on a healthy service, the update of an app role or of an
    OAuth2 permission scope that is not in the fetched parent's
    collection fails with a not-found error on the ID attribute; the
    operation issues no Update call and keeps the resource ID. *)
Theorem C5_update_of_missing_entry_fails :
  (∀ c w app,
     app_role.rc_role_id c ≠ "" →
     isNewResource w = false →
     healthy w →
     applications w !! app_role.rc_application_object_id c = Some app →
     helpers.AppRoleFindById app (app_role.rc_role_id c) = (None, None) →
     let r := app_role.applicationAppRoleResourceCreateUpdate c w in
     HasError (fst r) ∧
     onlyFetchedWith
       (tf.ErrorDiagPathF None "role_id"
          "App Role with ID %q was not found for Application %q"
          [app_role.rc_role_id c; app_role.rc_application_object_id c])
       (app_role.rc_application_object_id c) w r) ∧
  (∀ c w app,
     oauth2_scope.pc_scope_id c ≠ "" →
     isNewResource w = false →
     healthy w →
     applications w !! oauth2_scope.pc_application_object_id c = Some app →
     fst (helpers.OAuth2PermissionFindById app (oauth2_scope.pc_scope_id c)) = None →
     let r := oauth2_scope.applicationOAuth2PermissionScopeResourceCreateUpdate c w in
     HasError (fst r) ∧
     onlyFetchedWith
       (tf.ErrorDiagPathF None "scope_id"
          "OAuth2 Permission with ID %q was not found for Application %q"
          [oauth2_scope.pc_scope_id c; oauth2_scope.pc_application_object_id c])
       (oauth2_scope.pc_application_object_id c) w r).
Proof.
  split.
  - intros c w app H1 H2 H3 H4 H5. cbv zeta.
    rewrite (role_update_not_found c w app H1 H2 H3 H4 H5).
    split; [done | apply onlyFetched_outcome].
  - intros c w app H1 H2 H3 H4 H5. cbv zeta.
    rewrite (scope_update_not_found c w app H1 H2 H3 H4 H5).
    split; [done | apply onlyFetched_outcome].
Qed.

Lemma C5_witness :
  (let r := app_role.applicationAppRoleResourceCreateUpdate (example.roleConfig "role-9")
              (example.worldA "app-1/role-9" false) in
   HasError (fst r) ∧
   onlyFetchedWith
     (tf.ErrorDiagPathF None "role_id"
        "App Role with ID %q was not found for Application %q" ["role-9"; "app-1"])
     "app-1" (example.worldA "app-1/role-9" false) r) ∧
  (let r := oauth2_scope.applicationOAuth2PermissionScopeResourceCreateUpdate
              (example.scopeConfig "scope-9") (example.worldA "app-1/scope-9" false) in
   HasError (fst r) ∧
   onlyFetchedWith
     (tf.ErrorDiagPathF None "scope_id"
        "OAuth2 Permission with ID %q was not found for Application %q"
        ["scope-9"; "app-1"])
     "app-1" (example.worldA "app-1/scope-9" false) r).
Proof.
  split.
  - apply (proj1 C5_update_of_missing_entry_fails (example.roleConfig "role-9")
             (example.worldA "app-1/role-9" false) example.appA);
      (reflexivity || discriminate).
  - apply (proj2 C5_update_of_missing_entry_fails (example.scopeConfig "scope-9")
             (example.worldA "app-1/scope-9" false) example.appA);
      (reflexivity || discriminate).
Defined.

End Gone.

(** ** Deleting an entry *)

Section Deletes.
Import applications.

Lemma AppRoleFindById_found app rid role :
  helpers.AppRoleFindById app rid = (Some role, None) →
  ∃ roles, app_AppRoles app = Some roles ∧
           findByID role_ID rid roles = Some role ∧ role_ID role = Some rid.
Proof.
  unfold helpers.AppRoleFindById. intros H.
  destruct (app_AppRoles app) as [roles|]; [|discriminate].
  destruct (bool_decide (rid = "")); [discriminate|].
  injection H as H. exists roles. repeat split; [done|].
  apply (hasID_true rid). by eapply findByID_hasID.
Qed.

Lemma UpdateAppRole_found (app : Application) roles r id :
  app_AppRoles app = Some roles →
  role_ID r = Some id →
  UpdateAppRole app r =
    inr (set_app_AppRoles
           (Some (List.map (λ y, if hasID id (role_ID y) then r else y) roles)) app).
Proof. intros Hr Hid. unfold UpdateAppRole, updateEntry. rewrite Hid, Hr. reflexivity. Qed.

Lemma RemoveAppRole_found (app : Application) roles r old id :
  app_AppRoles app = Some roles →
  role_ID r = Some id →
  findByID role_ID id roles = Some old →
  RemoveAppRole app r =
    inr (set_app_AppRoles
           (Some (List.filter (λ y, negb (hasID id (role_ID y))) roles)) app).
Proof.
  intros Hr Hid Hf. unfold RemoveAppRole. rewrite Hr.
  rewrite (removeEntry_found role_ID r id roles old Hid Hf). reflexivity.
Qed.

Lemma role_delete_two_writes (w : World) (id : parse.AppRoleId) (app : Application)
    (role : AppRole) :
  parse.AppRoleID (resourceId w) = inr id →
  healthy w →
  applications w !! parse.ar_ObjectId id = Some app →
  helpers.AppRoleFindById app (parse.ar_RoleId id) = (Some role, None) →
  let disabled := set_role_IsEnabled (Some false) role in
  deletedInTwoWriteBacks role_ID rolesOf (rolesWriteBack (parse.ar_ObjectId id))
    (parse.ar_ObjectId id) (parse.ar_RoleId id) disabled (rolesOf app) w
    (app_role.applicationAppRoleResourceDelete w) ∧
  findByID role_ID (parse.ar_RoleId id)
    (withEntry role_ID (parse.ar_RoleId id) disabled (rolesOf app)) = Some disabled ∧
  role_IsEnabled disabled = Some false ∧
  findByID role_ID (parse.ar_RoleId id)
    (withoutEntry role_ID (parse.ar_RoleId id) (rolesOf app)) = None.
Proof.
  intros Hparse Hh Happ Hfind role'.
  destruct (AppRoleFindById_found _ _ _ Hfind) as (roles & Hroles & Hf & Hid).
  set (rid := parse.ar_RoleId id) in *. set (oid := parse.ar_ObjectId id) in *.
  assert (Hof : rolesOf app = roles) by (unfold rolesOf; by rewrite Hroles).
  rewrite Hof.
  set (roles1 := withEntry role_ID rid role' roles).
  set (roles2 := withoutEntry role_ID rid roles).
  assert (Hf1 : findByID role_ID rid roles1 = Some role')
    by (eapply findByID_replace; [exact Hf | exact Hid]).
  assert (H12 : withoutEntry role_ID rid roles1 = roles2)
    by (apply withoutEntry_withEntry; exact Hid).
  eassert (Hrun : app_role.applicationAppRoleResourceDelete w = _).
  { unfold app_role.applicationAppRoleResourceDelete.
    step. rewrite Hparse.
    eapply withLock_run. fold oid rid.
    step_with ltac:(apply (Applications_Get_found _ oid app); [healthy | exact Happ]).
    change (helpers.AppRoleFindById (set_app_ID (Some oid) app) rid)
      with (helpers.AppRoleFindById app rid).
    rewrite Hfind. fold role'.
    rewrite (UpdateAppRole_found _ roles role' rid); [|exact Hroles|exact Hid].
    fold (withEntry role_ID rid role' roles). fold roles1.
    step_with ltac:(eapply (Applications_Update_found _ _ app oid);
                    [healthy | reflexivity | exact Happ]).
    rewrite (RemoveAppRole_found _ roles1 role' role' rid);
      [|reflexivity|exact Hid|exact Hf1].
    fold (withoutEntry role_ID rid roles1). rewrite H12.
    step_with ltac:(eapply (Applications_Update_found _ _ _ oid);
                    [healthy | reflexivity | simpl; apply lookup_insert_eq]).
    reflexivity. }
  split; [|split; [exact Hf1|split; [reflexivity|apply findByID_filter_out]]].
  rewrite Hrun. split; [reflexivity|]. split.
  - eexists. simpl. split; [rewrite <- !app_assoc; reflexivity|].
    split; reflexivity.
  - simpl. rewrite lookup_insert_eq. reflexivity.
Qed.

Lemma OAuth2PermissionFindById_found app sid scope :
  helpers.OAuth2PermissionFindById app sid = (Some scope, None) →
  ∃ api scopes, app_Api app = Some api ∧ api_OAuth2PermissionScopes api = Some scopes ∧
                findByID scope_ID sid scopes = Some scope ∧ scope_ID scope = Some sid.
Proof.
  unfold helpers.OAuth2PermissionFindById. intros H.
  destruct (app_Api app) as [api|]; [|discriminate].
  destruct (api_OAuth2PermissionScopes api) as [scopes|] eqn:Es; [|discriminate].
  destruct (bool_decide (sid = "")); [discriminate|].
  injection H as H. exists api, scopes. repeat split; [done..|].
  apply (hasID_true sid). by eapply findByID_hasID.
Qed.

Lemma UpdateScope_found (api : ApplicationApi) scopes s id :
  api_OAuth2PermissionScopes api = Some scopes →
  scope_ID s = Some id →
  UpdateOAuth2PermissionScope api s =
    inr (mkApplicationApi
           (Some (List.map (λ y, if hasID id (scope_ID y) then s else y) scopes))).
Proof.
  intros Hs Hid. unfold UpdateOAuth2PermissionScope, updateEntry. rewrite Hid, Hs. reflexivity.
Qed.

Lemma RemoveScope_found (api : ApplicationApi) scopes s old id :
  api_OAuth2PermissionScopes api = Some scopes →
  scope_ID s = Some id →
  findByID scope_ID id scopes = Some old →
  RemoveOAuth2PermissionScope api s =
    inr (mkApplicationApi
           (Some (List.filter (λ y, negb (hasID id (scope_ID y))) scopes))).
Proof.
  intros Hs Hid Hf. unfold RemoveOAuth2PermissionScope. rewrite Hs.
  rewrite (removeEntry_found scope_ID s id scopes old Hid Hf). reflexivity.
Qed.

Lemma scope_delete_two_writes (w : World) (id : parse.OAuth2PermissionScopeId)
    (app : Application) (scope : PermissionScope) :
  parse.OAuth2PermissionScopeID (resourceId w) = inr id →
  healthy w →
  applications w !! parse.ps_ObjectId id = Some app →
  helpers.OAuth2PermissionFindById app (parse.ps_ScopeId id) = (Some scope, None) →
  let disabled := set_scope_IsEnabled (Some false) scope in
  deletedInTwoWriteBacks scope_ID scopesOf (scopesWriteBack (parse.ps_ObjectId id))
    (parse.ps_ObjectId id) (parse.ps_ScopeId id) disabled (scopesOf app) w
    (oauth2_scope.applicationOAuth2PermissionScopeResourceDelete w) ∧
  findByID scope_ID (parse.ps_ScopeId id)
    (withEntry scope_ID (parse.ps_ScopeId id) disabled (scopesOf app)) = Some disabled ∧
  scope_IsEnabled disabled = Some false ∧
  findByID scope_ID (parse.ps_ScopeId id)
    (withoutEntry scope_ID (parse.ps_ScopeId id) (scopesOf app)) = None.
Proof.
  intros Hparse Hh Happ Hfind scope'.
  destruct (OAuth2PermissionFindById_found _ _ _ Hfind)
    as (api & scopes & Hapi & Hscopes & Hf & Hid).
  set (sid := parse.ps_ScopeId id) in *. set (oid := parse.ps_ObjectId id) in *.
  assert (Hof : scopesOf app = scopes) by (unfold scopesOf; by rewrite Hapi, Hscopes).
  rewrite Hof.
  set (scopes1 := withEntry scope_ID sid scope' scopes).
  set (scopes2 := withoutEntry scope_ID sid scopes).
  assert (Hf1 : findByID scope_ID sid scopes1 = Some scope')
    by (eapply findByID_replace; [exact Hf | exact Hid]).
  assert (H12 : withoutEntry scope_ID sid scopes1 = scopes2)
    by (apply withoutEntry_withEntry; exact Hid).
  eassert (Hrun : oauth2_scope.applicationOAuth2PermissionScopeResourceDelete w = _).
  { unfold oauth2_scope.applicationOAuth2PermissionScopeResourceDelete.
    step. rewrite Hparse.
    eapply withLock_run. fold oid sid.
    step_with ltac:(apply (Applications_Get_found _ oid app); [healthy | exact Happ]).
    change (helpers.OAuth2PermissionFindById (set_app_ID (Some oid) app) sid)
      with (helpers.OAuth2PermissionFindById app sid).
    rewrite Hfind. fold scope'.
    change (app_Api (set_app_ID (Some oid) app)) with (app_Api app). rewrite Hapi.
    rewrite (UpdateScope_found _ scopes scope' sid); [|exact Hscopes|exact Hid].
    fold (withEntry scope_ID sid scope' scopes). fold scopes1.
    step_with ltac:(eapply (Applications_Update_found _ _ app oid);
                    [healthy | reflexivity | exact Happ]).
    rewrite (RemoveScope_found _ scopes1 scope' scope' sid);
      [|reflexivity|exact Hid|exact Hf1].
    fold (withoutEntry scope_ID sid scopes1). rewrite H12.
    step_with ltac:(eapply (Applications_Update_found _ _ _ oid);
                    [healthy | reflexivity | simpl; apply lookup_insert_eq]).
    reflexivity. }
  split; [|split; [exact Hf1|split; [reflexivity|apply findByID_filter_out]]].
  rewrite Hrun. split; [reflexivity|]. split.
  - eexists. simpl. split; [rewrite <- !app_assoc; reflexivity|].
    split; reflexivity.
  - simpl. rewrite lookup_insert_eq. reflexivity.
Qed.

Lemma copyOthers_spec keyId creds acc :
  certificate.copyOthers keyId creds acc = acc ++ keptCredentials keyId creds.
Proof.
  revert acc. induction creds as [|cred rest IH]; intros acc; simpl.
  - by rewrite app_nil_r.
  - destruct (cred_KeyId cred) as [k|]; [|apply IH].
    destruct (bool_decide (k ≠ keyId)); [|apply IH].
    rewrite IH, <- app_assoc. reflexivity.
Qed.

Lemma find_keptCredentials keyId creds :
  List.find (certificate.keyIs keyId) (keptCredentials keyId creds) = None.
Proof.
  unfold keptCredentials.
  induction creds as [|cred rest IH]; simpl; [done|].
  destruct (cred_KeyId cred) as [k|] eqn:Ek; [|exact IH].
  case_bool_decide as Hk; [|exact IH].
  simpl. unfold certificate.keyIs at 1, hasID. rewrite Ek.
  rewrite bool_decide_eq_false_2 by done. exact IH.
Qed.

(** The delete of a certificate on a healthy service that holds the
    parent: one update, with the credentials of another key ID. *)
Lemma certificate_delete_run (w : World) (id : parse.CredentialId) (app : Application) :
  parse.CertificateID (resourceId w) = inr id →
  healthy w →
  applications w !! parse.cr_ObjectId id = Some app →
  let kept := keptCredentials (parse.cr_KeyId id) (credentialsOf app) in
  let r := certificate.applicationCertificateResourceDelete w in
  wroteBack credentialsOf (parse.cr_ObjectId id)
    (certificate.credentialsPayload (parse.cr_ObjectId id) kept) kept w r ∧
  resourceId (snd r) = resourceId w.
Proof.
  intros Hparse Hh Happ kept r.
  set (kid := parse.cr_KeyId id) in *. set (oid := parse.cr_ObjectId id) in *.
  eassert (Hrun : certificate.applicationCertificateResourceDelete w = _).
  { unfold certificate.applicationCertificateResourceDelete.
    step. rewrite Hparse.
    eapply withLock_run. fold oid kid. cbv zeta.
    step_with ltac:(apply (Applications_Get_found _ oid app); [healthy | exact Happ]).
    change (app_KeyCredentials (set_app_ID _ app)) with (app_KeyCredentials app).
    fold (credentialsOf app). rewrite copyOthers_spec, app_nil_l. fold kept.
    step_with ltac:(eapply (Applications_Update_found _ _ app oid);
                    [healthy | reflexivity | exact Happ]).
    reflexivity. }
  unfold r. rewrite Hrun. split; [|reflexivity].
  split; [reflexivity|]. split.
  - eexists. simpl. split; [rewrite <- !app_assoc; reflexivity|]. split; reflexivity.
  - simpl. rewrite lookup_insert_eq. reflexivity.
Qed.

(** C2 does not hold as stated: deleting a key credential that exists in
    the parent's collection performs one write-back, not two, and no
    write-back carries a disabled entry (a key credential has no enabled
    flag). *)
Lemma C2_counterexample :
  let w := example.worldA "app-1/key-1/certificate" false in
  let r := certificate.applicationCertificateResourceDelete w in
  List.find (certificate.keyIs "key-1") (credentialsOf example.appA) = Some example.keyA ∧
  fst r = [] ∧
  writeBacks (trace (snd r)) =
    [mkApplication (Some "app-1") None None None (Some []) None None "" None None None] ∧
  length (List.filter isUpdate (trace (snd r))) ≠ 2%nat.
Proof. vm_compute. repeat split; done. Qed.

(** C2, amended: on a healthy service that holds the parent application,
    deleting an app role or an OAuth2 permission scope that the parent's
    collection holds performs exactly two whole-parent write-backs: the
    first carries the collection with the entry replaced by its copy
    with enabled set to false, the second carries the collection without
    the entry, every other entry being as it was, in its place.
    Deleting a key credential performs exactly one write-back, with the
    credentials that carry another key ID, in their order.  Afterwards
    the stored parent holds the collection that was written last, and it
    does not contain the entry. *)
Theorem C2_delete_write_backs :
  (∀ w id app role,
     parse.AppRoleID (resourceId w) = inr id →
     healthy w →
     applications w !! parse.ar_ObjectId id = Some app →
     helpers.AppRoleFindById app (parse.ar_RoleId id) = (Some role, None) →
     let disabled := set_role_IsEnabled (Some false) role in
     deletedInTwoWriteBacks role_ID rolesOf (rolesWriteBack (parse.ar_ObjectId id))
       (parse.ar_ObjectId id) (parse.ar_RoleId id) disabled (rolesOf app) w
       (app_role.applicationAppRoleResourceDelete w) ∧
     findByID role_ID (parse.ar_RoleId id)
       (withEntry role_ID (parse.ar_RoleId id) disabled (rolesOf app)) = Some disabled ∧
     role_IsEnabled disabled = Some false ∧
     findByID role_ID (parse.ar_RoleId id)
       (withoutEntry role_ID (parse.ar_RoleId id) (rolesOf app)) = None) ∧
  (∀ w id app scope,
     parse.OAuth2PermissionScopeID (resourceId w) = inr id →
     healthy w →
     applications w !! parse.ps_ObjectId id = Some app →
     helpers.OAuth2PermissionFindById app (parse.ps_ScopeId id) = (Some scope, None) →
     let disabled := set_scope_IsEnabled (Some false) scope in
     deletedInTwoWriteBacks scope_ID scopesOf (scopesWriteBack (parse.ps_ObjectId id))
       (parse.ps_ObjectId id) (parse.ps_ScopeId id) disabled (scopesOf app) w
       (oauth2_scope.applicationOAuth2PermissionScopeResourceDelete w) ∧
     findByID scope_ID (parse.ps_ScopeId id)
       (withEntry scope_ID (parse.ps_ScopeId id) disabled (scopesOf app)) = Some disabled ∧
     scope_IsEnabled disabled = Some false ∧
     findByID scope_ID (parse.ps_ScopeId id)
       (withoutEntry scope_ID (parse.ps_ScopeId id) (scopesOf app)) = None) ∧
  (∀ w id app,
     parse.CertificateID (resourceId w) = inr id →
     healthy w →
     applications w !! parse.cr_ObjectId id = Some app →
     let kept := keptCredentials (parse.cr_KeyId id) (credentialsOf app) in
     wroteBack credentialsOf (parse.cr_ObjectId id)
       (certificate.credentialsPayload (parse.cr_ObjectId id) kept) kept w
       (certificate.applicationCertificateResourceDelete w) ∧
     List.find (certificate.keyIs (parse.cr_KeyId id)) kept = None).
Proof.
  split; [|split].
  - apply role_delete_two_writes.
  - apply scope_delete_two_writes.
  - intros w id app Hparse Hh Happ kept. split.
    + exact (proj1 (certificate_delete_run w id app Hparse Hh Happ)).
    + apply find_keptCredentials.
Qed.

(** The application holds "role-1", "scope-1" and "key-1": the role and
    the scope are written back disabled and then removed, the key is
    removed in one write-back. *)
Lemma C2_witness :
  deletedInTwoWriteBacks role_ID rolesOf (rolesWriteBack "app-1") "app-1" "role-1"
    (set_role_IsEnabled (Some false) example.roleA) [example.roleA]
    (example.worldA "app-1/role-1" false)
    (app_role.applicationAppRoleResourceDelete (example.worldA "app-1/role-1" false)) ∧
  deletedInTwoWriteBacks scope_ID scopesOf (scopesWriteBack "app-1") "app-1" "scope-1"
    (set_scope_IsEnabled (Some false) example.scopeA) [example.scopeA]
    (example.worldA "app-1/scope-1" false)
    (oauth2_scope.applicationOAuth2PermissionScopeResourceDelete
       (example.worldA "app-1/scope-1" false)) ∧
  wroteBack credentialsOf "app-1" (certificate.credentialsPayload "app-1" []) []
    (example.worldA "app-1/key-1/certificate" false)
    (certificate.applicationCertificateResourceDelete
       (example.worldA "app-1/key-1/certificate" false)).
Proof.
  split; [|split].
  - apply (proj1 C2_delete_write_backs (example.worldA "app-1/role-1" false)
             (parse.mkAppRoleId "app-1" "role-1") example.appA example.roleA); reflexivity.
  - apply (proj1 (proj2 C2_delete_write_backs) (example.worldA "app-1/scope-1" false)
             (parse.mkOAuth2PermissionScopeId "app-1" "scope-1") example.appA
             example.scopeA); reflexivity.
  - apply (proj2 (proj2 C2_delete_write_backs)
             (example.worldA "app-1/key-1/certificate" false)
             (parse.mkCredentialId "app-1" "certificate" "key-1") example.appA);
      reflexivity.
Defined.

Example role_delete_example :
  let r := app_role.applicationAppRoleResourceDelete (example.worldA "app-1/role-1" false) in
  List.map rolesOf (writeBacks (trace (snd r))) =
    [[set_role_IsEnabled (Some false) example.roleA]; []] ∧
  (rolesOf <$> applications (snd r) !! "app-1") = Some [].
Proof. vm_compute. done. Qed.

End Deletes.

(** * The replication waiter *)

Section WaitsOnce.
Context (created : Event → bool).

Lemma waitsOnce_quiet {A} (m : M A) : emits (quiet created) m → waitsOnce created m.
Proof.
  intros H w. destruct (H w) as (t & E & F). exists t. split; [done|].
  by apply wopc_none.
Qed.

Lemma wopc_prepend pre t :
  Forall (quiet created) pre →
  waitsOncePerCreate created t → waitsOncePerCreate created (pre ++ t).
Proof.
  intros Hpre [t' Ht|p e post He Hp Hpost].
  - apply wopc_none. by apply Forall_app.
  - rewrite app_assoc. apply wopc_one; [done| |done]. by apply Forall_app.
Qed.

Lemma waitsOnce_bind {A B} (m : M A) (f : A → M B) :
  emits (quiet created) m → (∀ a, waitsOnce created (f a)) →
  waitsOnce created (m ≫= f).
Proof.
  intros Hm Hf w. rewrite bind_run.
  destruct (Hm w) as (t1 & E1 & F1).
  destruct (Hf (fst (m w)) (snd (m w))) as (t2 & E2 & F2).
  exists (t1 ++ t2). rewrite E2, E1, app_assoc. split; [done|].
  by apply wopc_prepend.
Qed.

(** The parent create exchange, followed by [k]: when the create is
    accepted, [k] must start with the wait; otherwise it must be quiet. *)
Lemma waitsOnce_create {A B} (c : Call) (oid : A → option string) serve
    (k : Response A → M B) :
  (∀ r, emits (quiet created) (serve r)) →
  isWait (mkEvent c 0 false None) = false →
  (∀ s e, created (mkEvent c s false None) = false ∧
          emits (quiet created) (k (Failed s e))) →
  (∀ a s, if created (mkEvent c s true (oid a))
          then waitsFirst created (k (Ok a s))
          else emits (quiet created) (k (Ok a s))) →
  waitsOnce created (exchange c oid serve ≫= k).
Proof.
  intros Hserve Hnw Hfail Hok w.
  unfold exchange. rewrite !bind_run.
  destruct (emits_nextReply (quiet created) w) as (t0 & E0 & F0).
  set (w0 := snd (nextReply w)) in *. set (r := fst (nextReply w)).
  destruct (Hserve r w0) as (t1 & E1 & F1).
  set (w1 := snd (serve r w0)) in *. set (resp := fst (serve r w0)).
  cbn [fst snd mret M_ret record modify].
  assert (Hpre : Forall (quiet created) (t0 ++ t1)) by (by apply Forall_app).
  assert (Htr : ∀ e, trace (set_trace (trace w1 ++ [e]) w1) = trace w ++ (t0 ++ t1) ++ [e]).
  { intros e. simpl. rewrite E1, E0, <- !app_assoc. reflexivity. }
  destruct resp as [a s|s e].
  - specialize (Hok a s).
    destruct (created (mkEvent c s true (oid a))) eqn:Ec.
    + destruct (Hok (set_trace (trace w1 ++ [mkEvent c s true (oid a)]) w1))
        as (post & Ep & Fp).
      exists ((t0 ++ t1) ++ [mkEvent c s true (oid a); waitEvent] ++ post).
      split.
      * rewrite Ep, Htr, <- !app_assoc. reflexivity.
      * by apply wopc_one.
    + destruct (Hok (set_trace (trace w1 ++ [mkEvent c s true (oid a)]) w1))
        as (post & Ep & Fp).
      exists ((t0 ++ t1) ++ [mkEvent c s true (oid a)] ++ post).
      split.
      * rewrite Ep, Htr, <- !app_assoc. reflexivity.
      * apply wopc_none. apply Forall_app; split; [done|].
        apply Forall_cons; split; [|done]. split; [done|].
        unfold isWait in *. simpl in *. exact Hnw.
  - destruct (Hfail s e) as [Hc Hk].
    destruct (Hk (set_trace (trace w1 ++ [mkEvent c s false None]) w1))
      as (post & Ep & Fp).
    exists ((t0 ++ t1) ++ [mkEvent c s false None] ++ post).
    split.
    + rewrite Ep, Htr, <- !app_assoc. reflexivity.
    + apply wopc_none. apply Forall_app; split; [done|].
      apply Forall_cons; split; [|done]. split; [done|].
      unfold isWait in *. simpl in *. exact Hnw.
Qed.

Lemma waitsFirst_silent {A B} (m : M A) (f : A → M B) :
  (∀ w, trace (snd (m w)) = trace w) →
  (∀ a, waitsFirst created (f a)) → waitsFirst created (m ≫= f).
Proof.
  intros Hm Hf w. rewrite bind_run.
  destruct (Hf (fst (m w)) (snd (m w))) as (post & E & F).
  exists post. by rewrite E, Hm.
Qed.

Lemma waitsFirst_wait {A B} (probe : M (Response A)) (k : error + A → M B) :
  emits (quiet created) probe → (∀ r, emits (quiet created) (k r)) →
  waitsFirst created (helpers.WaitForCreationReplication probe ≫= k).
Proof.
  intros Hp Hk w. unfold helpers.WaitForCreationReplication.
  assert (Hq : emits (quiet created)
                 ((getWorld ≫= λ w, helpers.poll (retries w) probe) ≫= k)).
  { emits_auto; [exact Hp | apply Hk]. }
  destruct (Hq (logged waitEvent w)) as (post & E & F).
  exists post. split; [|exact F].
  etrans; [exact E|]. simpl. by rewrite <- app_assoc.
Qed.

(** Counting: one wait per accepted create, and at most one. *)
Lemma waits_quiet t : Forall (quiet created) t → waits t = 0%nat.
Proof.
  unfold waits. induction 1 as [|e t [_ He] _ IH]; [done|].
  simpl. rewrite He. exact IH.
Qed.

Lemma created_quiet t :
  Forall (quiet created) t → length (List.filter created t) = 0%nat.
Proof.
  induction 1 as [|e t [He _] _ IH]; [done|].
  simpl. rewrite He. exact IH.
Qed.

Lemma waits_app t1 t2 : waits (t1 ++ t2) = (waits t1 + waits t2)%nat.
Proof. unfold waits. by rewrite List.filter_app, length_app. Qed.

Lemma waitsOncePerCreate_counts t :
  created waitEvent = false →
  (∀ e, created e = true → isWait e = false) →
  waitsOncePerCreate created t →
  waits t = length (List.filter created t) ∧ (waits t ≤ 1)%nat.
Proof.
  intros Hw Hc [t' Ht|pre e post He Hpre Hpost].
  - rewrite (waits_quiet _ Ht), (created_quiet _ Ht). lia.
  - rewrite !waits_app, !List.filter_app, !length_app.
    rewrite (waits_quiet _ Hpre), (waits_quiet _ Hpost).
    rewrite (created_quiet _ Hpre), (created_quiet _ Hpost).
    unfold waits. simpl. rewrite He, Hw, (Hc e He). simpl. lia.
Qed.

End WaitsOnce.

Lemma group_read_quiet c : emits (quiet createdGroup) (groups.groupResourceRead c).
Proof. unfold groups.groupResourceRead. emits_op. Qed.

Lemma group_create_waits_once c : waitsOnce createdGroup (groups.groupResourceCreate c).
Proof.
  unfold groups.groupResourceCreate. cbv zeta.
  apply waitsOnce_bind.
  { destruct (groups.gc_prevent_duplicate_names c);
      [unfold groups.checkName; emits_op | emits_auto]. }
  intros [ds|]; [apply waitsOnce_quiet; emits_auto|].
  apply waitsOnce_bind; [emits_auto|].
  intros [err|mailNickname]; [apply waitsOnce_quiet; emits_auto|].
  unfold GroupsClient.Create. apply waitsOnce_create.
  - intros r. emits_auto.
  - reflexivity.
  - intros s e. split; [reflexivity | emits_auto].
  - intros group s. unfold createdGroup. cbn [ev_call ev_ok ev_objectId andb].
    destruct (grp_ID group) as [gid|] eqn:E.
    + rewrite bool_decide_eq_true_2 by (by eexists).
      apply waitsFirst_silent; [reflexivity|]. intros _.
      apply waitsFirst_wait; [emits_op|].
      intros [err|g]; [emits_auto|].
      apply group_read_quiet.
    + rewrite bool_decide_eq_false_2 by (intros [? ?]; discriminate).
      emits_auto.
Qed.

Lemma user_read_quiet c : emits (quiet createdUser) (users.userResourceRead c).
Proof. unfold users.userResourceRead. emits_op. Qed.

Lemma user_create_waits_once c : waitsOnce createdUser (users.userResourceCreate c).
Proof.
  unfold users.userResourceCreate. cbv zeta.
  destruct (if bool_decide (users.uc_mail_nickname c = "") then _ else _)
    as [mailNickName|]; [|apply waitsOnce_quiet; emits_auto].
  unfold UsersClient.Create. apply waitsOnce_create.
  - intros r. emits_auto.
  - reflexivity.
  - intros s e. split; [reflexivity | emits_auto].
  - intros user s. unfold createdUser. cbn [ev_call ev_ok ev_objectId andb].
    destruct (usr_ID user) as [uid|] eqn:E; [|emits_auto].
    unfold nonEmptyString. destruct (bool_decide (uid = "")); cbn [negb]; [emits_auto|].
    apply waitsFirst_silent; [reflexivity|]. intros _.
    apply waitsFirst_wait; [emits_op|].
    intros [err|g]; [emits_auto|]. apply user_read_quiet.
Qed.

Lemma waits_noWait t : Forall noWait t → waits t = 0%nat.
Proof.
  unfold waits. induction 1 as [|e t He _ IH]; [done|].
  simpl. unfold noWait in He. rewrite He. exact IH.
Qed.

Lemma emits_never_waits {A} (m : M A) : emits noWait m → neverWaits m.
Proof.
  intros H w. destruct (H w) as (t & E & F). exists t. split; [done|].
  by apply waits_noWait.
Qed.

Lemma role_createupdate_never_waits c :
  neverWaits (app_role.applicationAppRoleResourceCreateUpdate c).
Proof.
  apply emits_never_waits.
  unfold app_role.applicationAppRoleResourceCreateUpdate,
    app_role.applicationAppRoleResourceRead.
  cbv zeta. emits_op.
Qed.

Lemma role_delete_never_waits : neverWaits app_role.applicationAppRoleResourceDelete.
Proof.
  apply emits_never_waits. unfold app_role.applicationAppRoleResourceDelete. emits_op.
Qed.

Lemma scope_createupdate_never_waits c :
  neverWaits (oauth2_scope.applicationOAuth2PermissionScopeResourceCreateUpdate c).
Proof.
  apply emits_never_waits.
  unfold oauth2_scope.applicationOAuth2PermissionScopeResourceCreateUpdate,
    oauth2_scope.applicationOAuth2PermissionScopeResourceRead.
  cbv zeta. emits_op.
Qed.

Lemma scope_delete_never_waits :
  neverWaits oauth2_scope.applicationOAuth2PermissionScopeResourceDelete.
Proof.
  apply emits_never_waits.
  unfold oauth2_scope.applicationOAuth2PermissionScopeResourceDelete. emits_op.
Qed.

Lemma certificate_create_never_waits c :
  neverWaits (certificate.applicationCertificateResourceCreate c).
Proof.
  apply emits_never_waits.
  unfold certificate.applicationCertificateResourceCreate,
    certificate.applicationCertificateResourceRead.
  cbv zeta. emits_op.
Qed.

Lemma certificate_delete_never_waits :
  neverWaits certificate.applicationCertificateResourceDelete.
Proof.
  apply emits_never_waits.
  unfold certificate.applicationCertificateResourceDelete. cbv zeta. emits_op.
Qed.

(** The creation of an application never invokes the waiter either. *)
Lemma application_create_never_waits c :
  neverWaits (applications.applicationResourceCreate c).
Proof.
  apply emits_never_waits.
  unfold applications.applicationResourceCreate, applications.checkName,
    applications.applicationResourceRead.
  cbv zeta. emits_op.
Qed.

(** C4 does not hold as stated.  The create call of an application
    succeeds and returns the ID "obj-1", and the waiter is never invoked:
    the operation goes on to the read.  And a group create call that
    succeeds without an object ID ends in the "Bad API Response" guard
    before any wait. *)
Lemma C4_counterexample :
  let r := applications.applicationResourceCreate
             (example.applicationConfig "admin" "read" []) (example.emptyWorld "" []) in
  let g := groups.groupResourceCreate (example.groupConfig [] [])
             (example.emptyWorld "" [NilID]) in
  (fst r = [] ∧
   length (List.filter createdApplication (trace (snd r))) = 1%nat ∧
   List.map ev_objectId (List.filter createdApplication (trace (snd r))) = [Some "obj-1"] ∧
   waits (trace (snd r)) = 0%nat) ∧
  (List.map (λ e, (ev_ok e, ev_status e, ev_objectId e)) (trace (snd g))
     = [(true, 201, None)] ∧
   waits (trace (snd g)) = 0%nat).
Proof. vm_compute. repeat split; reflexivity. Qed.

(** C4, amended: a group creation and a user creation invoke the waiter
    exactly once when the create call succeeds and returns an object ID
    (for a user: a non-empty one), immediately after that call, and not
    at all otherwise; no mutation of an app role, an OAuth2 permission
    scope or a certificate ever invokes it. *)
Theorem C4_replication_wait_once_per_parent_creation :
  (∀ c w, ∃ t,
     trace (snd (groups.groupResourceCreate c w)) = trace w ++ t ∧
     waitsOncePerCreate createdGroup t ∧
     waits t = length (List.filter createdGroup t) ∧ (waits t ≤ 1)%nat) ∧
  (∀ c w, ∃ t,
     trace (snd (users.userResourceCreate c w)) = trace w ++ t ∧
     waitsOncePerCreate createdUser t ∧
     waits t = length (List.filter createdUser t) ∧ (waits t ≤ 1)%nat) ∧
  (∀ c, neverWaits (app_role.applicationAppRoleResourceCreateUpdate c)) ∧
  neverWaits app_role.applicationAppRoleResourceDelete ∧
  (∀ c, neverWaits (oauth2_scope.applicationOAuth2PermissionScopeResourceCreateUpdate c)) ∧
  neverWaits oauth2_scope.applicationOAuth2PermissionScopeResourceDelete ∧
  (∀ c, neverWaits (certificate.applicationCertificateResourceCreate c)) ∧
  neverWaits certificate.applicationCertificateResourceDelete.
Proof.
  split; [|split; [|repeat split]].
  - intros c w. destruct (group_create_waits_once c w) as (t & E & H).
    exists t. split; [exact E|]. split; [exact H|].
    apply waitsOncePerCreate_counts; [reflexivity | | exact H].
    intros e. unfold createdGroup, isWait. destruct (ev_call e); done.
  - intros c w. destruct (user_create_waits_once c w) as (t & E & H).
    exists t. split; [exact E|]. split; [exact H|].
    apply waitsOncePerCreate_counts; [reflexivity | | exact H].
    intros e. unfold createdUser, isWait. destruct (ev_call e); done.
  - apply role_createupdate_never_waits.
  - apply role_delete_never_waits.
  - apply scope_createupdate_never_waits.
  - apply scope_delete_never_waits.
  - apply certificate_create_never_waits.
  - apply certificate_delete_never_waits.
Qed.

(** A group creation on a healthy service: create, then the one wait,
    then the probe and the read. *)
Example group_create_example :
  let r := groups.groupResourceCreate (example.groupConfig ["A"] [])
             (example.emptyWorld "" []) in
  fst r = [] ∧
  List.map ev_call (trace (snd r)) =
    [GroupsCreate (mkGroup None (Some "team") None (Some "uuid-1") (Some true) (Some false)
                     (Some ["A"]) None);
     ReplicationWait; GroupsGet "obj-1"; GroupsGet "obj-1";
     GroupsListOwners "obj-1"; GroupsListMembers "obj-1"] ∧
  waits (trace (snd r)) = 1%nat.
Proof. vm_compute. done. Qed.

(** The waiter polls until the object is visible: two not-found answers,
    then success. *)
Example wait_retries_example :
  let w := mkWorld ∅ {["u-1" := mkUser None None None None None None []]} ∅ None "t"
             [Fail 404; Fail 404] [] [] 3 [] "" true in
  let r := helpers.WaitForCreationReplication (UsersClient.Get "u-1") w in
  (match fst r with inr u => usr_ID u | inl _ => None end) = Some "u-1" ∧
  List.map ev_status (trace (snd r)) = [0; 404; 404; 200].
Proof. vm_compute. done. Qed.

(** A probe that never finds the object exhausts the retry budget. *)
Example wait_exhausted_example :
  let r := helpers.WaitForCreationReplication (UsersClient.Get "u-1")
             (example.emptyWorld "" []) in
  fst r = inl TimeoutError ∧ length (trace (snd r)) = 4%nat.
Proof. vm_compute. done. Qed.


(** * Further properties of the operations *)

(** ** Reads never write *)

(** A read, whatever the service answers, issues no write call and leaves
    the stored groups, users and applications as they are.  This holds
    for the reads of the three parent resources, of the three
    sub-resources and of the domains data source. *)
Theorem reads_never_write :
  (∀ c, readOnly (groups.groupResourceRead c)) ∧
  (∀ c, readOnly (users.userResourceRead c)) ∧
  (∀ c, readOnly (applications.applicationResourceRead c)) ∧
  readOnly app_role.applicationAppRoleResourceRead ∧
  readOnly oauth2_scope.applicationOAuth2PermissionScopeResourceRead ∧
  readOnly certificate.applicationCertificateResourceRead ∧
  (∀ c, readOnly (domains_ds.domainsDataSourceRead c)).
Proof.
  repeat split; try intros c.
  all: try (unfold groups.groupResourceRead, users.userResourceRead,
              applications.applicationResourceRead,
              app_role.applicationAppRoleResourceRead,
              oauth2_scope.applicationOAuth2PermissionScopeResourceRead,
              certificate.applicationCertificateResourceRead,
              domains_ds.domainsDataSourceRead).
  all: first [ solve [emits_op] | solve [preserves_op] ].
Qed.

(** ** The named lock of the parent application *)

Ltac emits_noLock := unfold noLock; emits_op.

Lemma withLock_critical {A} (key : string) (body : M A) :
  emits noLock body →
  ∀ w, ∃ t,
    trace (snd (withLock applications.applicationResourceName key body w)) = trace w ++ t ∧
    lockedOnce key t.
Proof.
  intros Hb w. unfold withLock. rewrite !bind_run.
  cbn [note record modify fst snd mret M_ret].
  set (w0 := set_trace _ w).
  destruct (Hb w0) as (mid & E & F).
  exists (lockEvent key :: mid ++ [unlockEvent key]). split.
  - simpl. rewrite E. unfold w0. simpl. rewrite <- !app_assoc. reflexivity.
  - exists mid. done.
Qed.

(** A mutation that first draws the entry ID and then runs under the
    lock of [key]. *)
Lemma critical_after_draw {A B} (draw : M (error + A)) (key : string) (body : A → M B) (k : error + A → M B) :
  (∀ w, trace (snd (draw w)) = trace w) →
  (∀ err w, trace (snd (k (inl err) w)) = trace w) →
  (∀ a, k (inr a) = withLock applications.applicationResourceName key (body a)) →
  (∀ a, emits noLock (body a)) →
  critical (λ _, Some key) (draw ≫= k).
Proof.
  intros Hd Hf Hk Hb w. rewrite bind_run.
  destruct (fst (draw w)) as [err|a].
  - exists []. rewrite Hf, Hd, app_nil_r. auto.
  - rewrite Hk. destruct (withLock_critical key (body a) (Hb a) (snd (draw w)))
      as (t & E & L).
    exists t. rewrite E, Hd. split; [done|]. right. by exists key.
Qed.

(** A delete parses the resource ID first and then runs under the lock
    of the application that the ID names. *)
Ltac critical_delete parsed key :=
  intros w; rewrite bind_run; cbn [Id fst snd];
  unfold key;
  destruct (parsed (resourceId w)) as [err|id];
  [ exists []; simpl; rewrite app_nil_r; auto
  | match goal with
    | |- context [withLock _ ?k ?body] =>
        let t := fresh "t" in
        let E := fresh "E" in
        let L := fresh "L" in
        destruct (withLock_critical k body) with (w := w) as (t & E & L);
        [ emits_noLock
        | exists t; split; [exact E | right; eexists; split; [reflexivity | exact L]] ]
    end ].

(** Every mutation of an app role, an OAuth2 permission scope or a
    certificate either returns before it takes the lock of the parent
    application, having made no call, or takes that lock exactly once,
    makes all its calls under it and releases it as its last step,
    whatever the service answers.  No lock is ever taken by the read of
    a sub-resource, by the create, update and read of a group, by the
    create and read of a user, by the create, update and read of an
    application, or by the read of the domains; nor by the delete of a
    group, a user or an application, as long as the delete call of the
    API client takes none. *)
Theorem mutations_hold_the_lock_once :
  (∀ c, critical (λ _, Some (app_role.rc_application_object_id c))
          (app_role.applicationAppRoleResourceCreateUpdate c)) ∧
  critical roleKey app_role.applicationAppRoleResourceDelete ∧
  (∀ c, critical (λ _, Some (oauth2_scope.pc_application_object_id c))
          (oauth2_scope.applicationOAuth2PermissionScopeResourceCreateUpdate c)) ∧
  critical scopeKey oauth2_scope.applicationOAuth2PermissionScopeResourceDelete ∧
  (∀ c, critical (λ _, Some (certificate.cc_application_object_id c))
          (certificate.applicationCertificateResourceCreate c)) ∧
  critical credentialKey certificate.applicationCertificateResourceDelete ∧
  emits noLock app_role.applicationAppRoleResourceRead ∧
  emits noLock oauth2_scope.applicationOAuth2PermissionScopeResourceRead ∧
  emits noLock certificate.applicationCertificateResourceRead ∧
  (∀ c, emits noLock (groups.groupResourceCreate c)) ∧
  (∀ c, emits noLock (groups.groupResourceUpdate c)) ∧
  (∀ c, emits noLock (groups.groupResourceRead c)) ∧
  (∀ c, emits noLock (users.userResourceCreate c)) ∧
  (∀ c, emits noLock (users.userResourceRead c)) ∧
  (∀ c, emits noLock (applications.applicationResourceCreate c)) ∧
  (∀ c, emits noLock (applications.applicationResourceUpdate c)) ∧
  (∀ c, emits noLock (applications.applicationResourceRead c)) ∧
  (∀ c, emits noLock (domains_ds.domainsDataSourceRead c)) ∧
  (∀ Delete : string → M (Response unit),
     (∀ id, emits noLock (Delete id)) →
     emits noLock (deletes.groupResourceDelete Delete) ∧
     emits noLock (deletes.userResourceDelete Delete) ∧
     emits noLock (deletes.applicationResourceDelete Delete)).
Proof.
  split; [|split; [|split; [|split; [|split; [|split]]]]].
  - intros c. unfold app_role.applicationAppRoleResourceCreateUpdate. cbv zeta.
    eapply critical_after_draw with
      (body := λ roleId, _); [ | | intros a; reflexivity | ].
    + intros w. destruct (nonEmptyString _); [reflexivity|].
      unfold GenerateUUID. by destruct (uuids w).
    + reflexivity.
    + intros roleId. unfold app_role.applicationAppRoleResourceRead. emits_noLock.
  - unfold app_role.applicationAppRoleResourceDelete.
    critical_delete parse.AppRoleID roleKey.
  - intros c. unfold oauth2_scope.applicationOAuth2PermissionScopeResourceCreateUpdate.
    cbv zeta.
    eapply critical_after_draw with
      (body := λ scopeId, _); [ | | intros a; reflexivity | ].
    + intros w. destruct (nonEmptyString _); [reflexivity|].
      unfold GenerateUUID. by destruct (uuids w).
    + reflexivity.
    + intros scopeId. unfold oauth2_scope.applicationOAuth2PermissionScopeResourceRead.
      emits_noLock.
  - unfold oauth2_scope.applicationOAuth2PermissionScopeResourceDelete.
    critical_delete parse.OAuth2PermissionScopeID scopeKey.
  - intros c w. unfold certificate.applicationCertificateResourceCreate. cbv zeta.
    destruct (certificate.cc_credential c) as [[err attr]|credential];
      [exists []; simpl; rewrite app_nil_r; auto|].
    destruct (cred_KeyId credential) as [keyId|];
      [|exists []; simpl; rewrite app_nil_r; auto].
    match goal with
    | |- context [withLock _ ?k ?body] =>
        destruct (withLock_critical k body) with (w := w) as (t & E & L)
    end.
    + unfold certificate.applicationCertificateResourceRead. emits_noLock.
    + exists t. split; [exact E|]. right. eexists. split; [reflexivity | exact L].
  - unfold certificate.applicationCertificateResourceDelete.
    critical_delete parse.CertificateID credentialKey.
  - repeat match goal with |- _ ∧ _ => split end; try intros c.
    all: try (unfold app_role.applicationAppRoleResourceRead,
           oauth2_scope.applicationOAuth2PermissionScopeResourceRead,
           certificate.applicationCertificateResourceRead,
           groups.groupResourceCreate, groups.groupResourceUpdate,
           groups.reconcileMembers, groups.reconcileOwners, groups.checkName,
           groups.groupResourceRead,
           users.userResourceCreate, users.userResourceRead,
           applications.applicationResourceCreate, applications.applicationResourceUpdate,
           applications.checkName, applications.applicationResourceRead,
           domains_ds.domainsDataSourceRead; solve [emits_noLock]).
    intros HD.
    unfold deletes.groupResourceDelete, deletes.userResourceDelete,
      deletes.applicationResourceDelete.
    repeat split.
    all: autounfold with ops; unfold noLock in *.
    all: repeat first [ apply HD | emits_step ].
Qed.

(** A delete call that only removes the group takes no lock, and so the
    delete of a group takes none. *)
Lemma mutations_hold_the_lock_once_witness :
  emits noLock (deletes.groupResourceDelete example2.removeGroup).
Proof.
  destruct mutations_hold_the_lock_once
    as (_ & _ & _ & _ & _ & _ & _ & _ & _ & _ & _ & _ & _ & _ & _ & _ & _ & _ & H).
  apply (H example2.removeGroup).
  intros id. unfold example2.removeGroup, noLock. emits_auto.
Defined.

(** ** The slice of the parent that a sub-resource operation owns *)

(** A continuation may rely on what the first operation returns. *)
Lemma emits_bind_post {A B} (P : Event → Prop) (Q : A → Prop) (m : M A) (f : A → M B) :
  emits P m → (∀ w, Q (fst (m w))) → (∀ a, Q a → emits P (f a)) → emits P (m ≫= f).
Proof.
  intros Hm HQ Hf w. rewrite bind_run.
  destruct (Hm w) as (t1 & E1 & F1).
  destruct (Hf (fst (m w)) (HQ w) (snd (m w))) as (t2 & E2 & F2).
  exists (t1 ++ t2). rewrite E2, E1, app_assoc. split; [done|].
  apply Forall_app; auto.
Qed.

Lemma preserves_bind_post {A B X} (proj : World → X) (Q : A → Prop) (m : M A)
    (f : A → M B) :
  preserves proj m → (∀ w, Q (fst (m w))) → (∀ a, Q a → preserves proj (f a)) →
  preserves proj (m ≫= f).
Proof. intros Hm HQ Hf w. rewrite bind_run, (Hf _ (HQ w)), Hm. reflexivity. Qed.

Lemma Get_fetchedAs (id : string) (w : World) :
  fetchedAs id (fst (ApplicationsClient.Get id w)).
Proof.
  unfold ApplicationsClient.Get, exchange. rewrite !bind_run. cbn [mret M_ret fst snd].
  unfold nextReply.
  destruct (replies w) as [|[|s|] rs]; simpl; try done.
  all: rewrite ?bind_run; cbn [getWorld fst snd].
  all: match goal with
       | |- context [match ?x with _ => _ end] => destruct x
       end; done.
Qed.

Lemma Update_keeps_others (k : string) (p : Application) :
  app_ID p = Some k →
  preserves (λ w, delete k (applications w)) (ApplicationsClient.Update p).
Proof.
  intros Hp w. unfold ApplicationsClient.Update, ApplicationsClient.onStored, exchange.
  rewrite Hp, !bind_run. unfold nextReply.
  destruct (replies w) as [|[|s|] rs]; simpl; try reflexivity.
  all: rewrite ?bind_run; cbn [getWorld fst snd set_replies applications].
  all: match goal with
       | |- context [match ?x with _ => _ end] => destruct x
       end; simpl; try reflexivity.
  all: apply delete_insert_eq.
Qed.

(** Decompose a goal about an operation on the application [k], keeping
    track of the ID that a fetched application carries. *)
Ltac innermost x :=
  first
    [ match x with
      | context [match ?y with _ => _ end] => innermost y
      | context [if ?y then _ else _] => innermost y
      | context [let (_, _) := ?y in _] => innermost y
      end
    | destruct x ].

Ltac tracked_emits :=
  repeat first
    [ apply emits_ret
    | apply emits_Id | apply emits_IsNewResource | apply emits_SetId
    | apply emits_GenerateUUID
    | apply emits_note; solve [ intuition (reflexivity || done) ]
    | match goal with
      | |- emits _ (ApplicationsClient.Get ?k ≫= _) =>
          apply (emits_bind_post _ (fetchedAs k));
          [ solve [emits_op]
          | apply Get_fetchedAs
          | intros [? ?|? ?] ?; unfold fetchedAs in * ]
      | |- emits _ (ApplicationsClient.Update ?p ≫= _) =>
          apply emits_bind; [ solve [emits_op] | intros ]
      end
    | match goal with
      | |- emits _ (_ ≫= _) => apply emits_bind; [ | intros ]
      end
    | match goal with
      | |- emits _ (match ?x with _ => _ end) => innermost x
      | |- emits _ (if ?x then _ else _) => innermost x
      | |- emits _ (let (_, _) := ?x in _) => innermost x
      end ].

Ltac tracked_preserves :=
  repeat first
    [ apply preserves_ret
    | match goal with
      | |- preserves _ (ApplicationsClient.Get ?k ≫= _) =>
          apply (preserves_bind_post _ (fetchedAs k));
          [ solve [preserves_op]
          | apply Get_fetchedAs
          | intros [? ?|? ?] ?; unfold fetchedAs in * ]
      | |- preserves _ (ApplicationsClient.Update ?p ≫= _) =>
          apply preserves_bind;
          [ apply Update_keeps_others; simpl; solve [assumption | reflexivity]
          | intros ]
      end
    | match goal with
      | |- preserves _ (_ ≫= _) => apply preserves_bind; [ | intros ]
      end
    | match goal with
      | |- preserves _ (match ?x with _ => _ end) => innermost x
      | |- preserves _ (if ?x then _ else _) => innermost x
      | |- preserves _ (let (_, _) := ?x in _) => innermost x
      end
    | solve [ preserves_prim ] ].

Lemma onStored_keeps_erased (erase : Application → Application) c id f :
  (∀ a, erase (f a) = erase a) →
  preserves (λ w, erase <$> applications w) (ApplicationsClient.onStored c id f).
Proof.
  intros Hf w. unfold ApplicationsClient.onStored, exchange.
  rewrite !bind_run. unfold nextReply.
  destruct (replies w) as [|[|s|] rs]; simpl; try reflexivity.
  all: destruct id as [i|]; simpl; try reflexivity.
  all: rewrite bind_run; cbn [getWorld fst snd set_replies applications].
  all: destruct (applications w !! i) as [a|] eqn:Ha; simpl; try reflexivity.
  all: rewrite fmap_insert, Hf; apply insert_id; by rewrite lookup_fmap, Ha.
Qed.

Lemma Update_keeps_erased (erase : Application → Application) p :
  (∀ a, erase (ApplicationsClient.patch p a) = erase a) →
  preserves (λ w, erase <$> applications w) (ApplicationsClient.Update p).
Proof. apply onStored_keeps_erased. Qed.

(** Decompose a frame goal; an update is framed by its payload. *)
Ltac frame_step :=
  first
    [ apply Update_keeps_erased; intros []; reflexivity
    | preserves_step ].

Ltac frame_op :=
  unfold ApplicationsClient.Get, withLock, exchange; repeat frame_step.

(** What an operation on the application [k] shows at one state. *)
Lemma touchesOnly_at (k : string) (slice erase : Application → Application) {A}
    (m : M A) (w : World) :
  emits (carriesOnly k slice) m →
  preserves (λ w, delete k (applications w)) m →
  preserves (λ w, erase <$> applications w) m →
  preserves groups m →
  preserves users m →
  (∃ t, trace (snd (m w)) = trace w ++ t ∧ Forall (carriesOnly k slice) t) ∧
  (∀ i, Some k ≠ Some i → applications (snd (m w)) !! i = applications w !! i) ∧
  (∀ i, erase <$> applications (snd (m w)) !! i = erase <$> applications w !! i) ∧
  groups (snd (m w)) = groups w ∧
  users (snd (m w)) = users w.
Proof.
  intros He Hk Hs Hg Hu. split; [apply He|]. split; [|split; [|split]].
  - intros i Hi. assert (k ≠ i) by congruence.
    rewrite <- (lookup_delete_ne (applications (snd (m w))) k i) by done.
    rewrite <- (lookup_delete_ne (applications w) k i) by done.
    by rewrite (Hk w).
  - intros i. rewrite <- !lookup_fmap. by rewrite (Hs w).
  - apply Hg.
  - apply Hu.
Qed.

(** An operation that returned a diagnostic at once. *)
Lemma touchesOnly_none {A} (m : M A) (w : World) (erase : Application → Application) :
  snd (m w) = w →
  (∃ t, trace (snd (m w)) = trace w ++ t ∧ t = []) ∧
  (∀ i, None ≠ Some i → applications (snd (m w)) !! i = applications w !! i) ∧
  (∀ i, erase <$> applications (snd (m w)) !! i = erase <$> applications w !! i) ∧
  groups (snd (m w)) = groups w ∧
  users (snd (m w)) = users w.
Proof. intros ->. split; [exists []; by rewrite app_nil_r|]. done. Qed.

Ltac touches_unfold :=
  unfold app_role.applicationAppRoleResourceCreateUpdate,
    app_role.applicationAppRoleResourceDelete,
    app_role.applicationAppRoleResourceRead,
    oauth2_scope.applicationOAuth2PermissionScopeResourceCreateUpdate,
    oauth2_scope.applicationOAuth2PermissionScopeResourceDelete,
    oauth2_scope.applicationOAuth2PermissionScopeResourceRead,
    oauth2_scope.scopesPayload,
    certificate.applicationCertificateResourceCreate,
    certificate.applicationCertificateResourceDelete,
    certificate.applicationCertificateResourceRead,
    certificate.credentialsPayload;
  cbv zeta;
  cbn [parse.ar_ObjectId parse.NewAppRoleID parse.ps_ObjectId
       parse.NewOAuth2PermissionScopeID parse.cr_ObjectId parse.NewCredentialID].

(** The five facts about an operation on the application [k]. *)
Ltac touches_on :=
  apply touchesOnly_at;
  [ unfold withLock, AppendAppRole, UpdateAppRole, RemoveAppRole, carriesOnly;
    tracked_emits
  | unfold withLock, AppendAppRole, UpdateAppRole, RemoveAppRole;
    tracked_preserves
  | frame_op
  | preserves_op
  | preserves_op ].

Ltac touches_create := unfold touchesOnly; intros w; touches_unfold; touches_on.

Ltac touches_delete parsed key :=
  unfold touchesOnly; intros w; touches_unfold; rewrite bind_run; cbn [Id fst snd];
  unfold key;
  destruct (parsed (resourceId w)) as [err|id];
  [ apply touchesOnly_none; reflexivity | touches_on ].

(** An operation on an app role works on the parent application that
    its configuration or its resource ID names, and on the app roles
    only: its only write calls are application updates whose payload
    holds the object ID of that parent and the app roles and nothing
    else; afterwards every other stored application is what it was, the
    parent is what it was but for its app roles, and groups and users
    are untouched.  A delete whose resource ID does not parse makes no
    call.  The same holds for the operations on an OAuth2 permission
    scope (the [api] block) and on a certificate (the key credentials),
    whatever the service answers. *)
Theorem sub_resource_operations_touch_only_their_slice :
  (∀ c, touchesOnly (λ _, Some (app_role.rc_application_object_id c))
          rolesSlice withoutRoles
          (app_role.applicationAppRoleResourceCreateUpdate c)) ∧
  touchesOnly roleKey rolesSlice withoutRoles app_role.applicationAppRoleResourceDelete ∧
  (∀ c, touchesOnly (λ _, Some (oauth2_scope.pc_application_object_id c))
          scopesSlice withoutScopes
          (oauth2_scope.applicationOAuth2PermissionScopeResourceCreateUpdate c)) ∧
  touchesOnly scopeKey scopesSlice withoutScopes
    oauth2_scope.applicationOAuth2PermissionScopeResourceDelete ∧
  (∀ c, touchesOnly (λ _, Some (certificate.cc_application_object_id c))
          credentialsSlice withoutCredentials
          (certificate.applicationCertificateResourceCreate c)) ∧
  touchesOnly credentialKey credentialsSlice withoutCredentials
    certificate.applicationCertificateResourceDelete.
Proof.
  split; [|split; [|split; [|split; [|split]]]].
  - intros c. touches_create.
  - touches_delete parse.AppRoleID roleKey.
  - intros c. touches_create.
  - touches_delete parse.OAuth2PermissionScopeID scopeKey.
  - intros c. touches_create.
  - touches_delete parse.CertificateID credentialKey.
Qed.

(** ** The values that a created application carries *)

Lemma payloadValues_create (c : applications.Config) (p : Application) :
  rolesOf p = default_list (applications.expandApplicationAppRoles (applications.ac_app_role c)) →
  scopesOf p = default_list (applications.expandApplicationOAuth2Permissions
                               (applications.ac_oauth2_permission_scope c)) →
  payloadValues p =
    combinedValues (applications.ac_app_role c) (applications.ac_oauth2_permission_scope c).
Proof.
  intros Hr Hs. unfold payloadValues, combinedValues. rewrite Hr, Hs. f_equal. f_equal.
  - destruct (applications.ac_app_role c) as [|r rs]; [reflexivity|].
    cbn [applications.expandApplicationAppRoles default_list].
    rewrite List.map_map. reflexivity.
  - cbn [applications.expandApplicationOAuth2Permissions default_list].
    rewrite List.map_map. reflexivity.
Qed.

(** Whatever the configuration and whatever the service answers, every
    application create call that [applicationResourceCreate] issues
    carries app roles and OAuth2 permission scopes whose non-empty values
    are pairwise distinct. *)
Theorem created_application_has_distinct_values (c : applications.Config) :
  emits createsDistinct (applications.applicationResourceCreate c).
Proof.
  unfold applications.applicationResourceCreate. cbv zeta.
  apply emits_bind.
  { destruct (applications.ac_prevent_duplicate_names c); [|apply emits_ret].
    unfold applications.checkName, createsDistinct. emits_op. }
  intros [ds|]; [apply emits_ret|].
  destruct (applications.applicationValidateRolesScopes _ _) eqn:Hv; [apply emits_ret|].
  apply validate_spec in Hv.
  apply emits_bind.
  - unfold ApplicationsClient.Create. apply emits_exchange.
    + intros s ok o. unfold createsDistinct. cbn [ev_call].
      erewrite payloadValues_create; [exact Hv| |].
      * reflexivity.
      * unfold scopesOf. cbn [app_Api api_OAuth2PermissionScopes].
        destruct (applications.ac_oauth2_permission_scope c); reflexivity.
    + intros r. unfold createsDistinct. emits_auto.
  - intros r. unfold applications.applicationResourceRead, createsDistinct. emits_op.
Qed.

(** ** The domains data source: its one call and its ID *)

(** Whatever the filters and whatever the service answers, the domains
    read makes exactly one call, the listing.  When the listing fails the
    read returns an error, stores nothing and leaves the ID alone; when
    it succeeds the ID is set to "domains-" followed by the tenant ID,
    also when the read then fails because no domain passes the filters. *)
Theorem domains_read_sets_the_id (c : domains_ds.Config) (w : World) :
  let r := domains_ds.domainsDataSourceRead c w in
  ∃ e, trace (snd r) = trace w ++ [e] ∧ ev_call e = DomainsList ∧
       if ev_ok e
       then resourceId (snd r) = "domains-" +:+ tenantId w
       else resourceId (snd r) = resourceId w ∧ HasError (fst (fst r)) ∧
            snd (fst r) = None.
Proof.
  cbv zeta. unfold domains_ds.domainsDataSourceRead, DomainsClient.List, exchange.
  rewrite !bind_run. unfold nextReply.
  destruct (replies w) as [|[|s|] rs]; cbn [fst snd mret M_ret].
  all: repeat (rewrite bind_run; cbn [getWorld SetId modify fst snd mret M_ret record]).
  all: try match goal with
           | |- context [if bool_decide ?P then _ else _] => destruct (bool_decide P)
           end.
  all: eexists; split; [reflexivity|]; split; [reflexivity|]; cbn; done.
Qed.

(** ** Reading a sub-resource *)

Ltac sub_read_failed HG Hparse :=
  match type of HG with
  | ApplicationsClient.Get ?k ?w = (_, ?w1) =>
      let Hid := fresh "Hid" in
      assert (Hid : resourceId w1 = resourceId w)
        by (pose proof (Applications_Get_keeps_id k w) as H; by rewrite HG in H);
      erewrite bind_eq; [|reflexivity|
        rewrite Hparse; eapply bind_eq; [exact HG|cbv beta iota; reflexivity]];
      unfold readOutcome; split; intros Hs;
      [ rewrite bool_decide_eq_true_2 by done; simpl; done
      | rewrite bool_decide_eq_false_2 by done; simpl; split; [done|exact Hid] ]
  end.

(** When the resource ID of an app role, an OAuth2 permission scope or a
    certificate parses and the Get of the parent application fails with
    status 404, the read clears the resource ID and returns no error;
    when the Get fails with any other status, the read returns an error
    and keeps the resource ID. *)
Theorem sub_resource_read_of_missing_parent (w : World) (status : Z) (err : error)
    (w1 : World) :
  (∀ id, parse.AppRoleID (resourceId w) = inr id →
         ApplicationsClient.Get (parse.ar_ObjectId id) w = (Failed status err, w1) →
         readOutcome w status (app_role.applicationAppRoleResourceRead w)) ∧
  (∀ id, parse.OAuth2PermissionScopeID (resourceId w) = inr id →
         ApplicationsClient.Get (parse.ps_ObjectId id) w = (Failed status err, w1) →
         readOutcome w status
           (oauth2_scope.applicationOAuth2PermissionScopeResourceRead w)) ∧
  (∀ id, parse.CertificateID (resourceId w) = inr id →
         ApplicationsClient.Get (parse.cr_ObjectId id) w = (Failed status err, w1) →
         readOutcome w status (certificate.applicationCertificateResourceRead w)).
Proof.
  split; [|split]; intros id Hparse HG.
  - unfold app_role.applicationAppRoleResourceRead. sub_read_failed HG Hparse.
  - unfold oauth2_scope.applicationOAuth2PermissionScopeResourceRead.
    sub_read_failed HG Hparse.
  - unfold certificate.applicationCertificateResourceRead. sub_read_failed HG Hparse.
Qed.

(** An app role whose parent is gone, and a certificate whose parent
    cannot be fetched. *)
Lemma sub_resource_read_of_missing_parent_witness :
  readOutcome (example.emptyWorld "app-9/role-1" []) 404
    (app_role.applicationAppRoleResourceRead (example.emptyWorld "app-9/role-1" [])) ∧
  readOutcome (example.emptyWorld "app-1/key-1/certificate" []) 404
    (certificate.applicationCertificateResourceRead
       (example.emptyWorld "app-1/key-1/certificate" [])) ∧
  readOutcome (example.emptyWorld "app-1/scope-1" [Fail 503]) 503
    (oauth2_scope.applicationOAuth2PermissionScopeResourceRead
       (example.emptyWorld "app-1/scope-1" [Fail 503])).
Proof.
  split; [|split].
  - eapply (proj1 (sub_resource_read_of_missing_parent _ 404 _ _)); reflexivity.
  - eapply (proj2 (proj2 (sub_resource_read_of_missing_parent _ 404 _ _))); reflexivity.
  - eapply (proj1 (proj2 (sub_resource_read_of_missing_parent _ 503 _ _))); reflexivity.
Defined.

Lemma role_read_entry (w : World) (id : parse.AppRoleId) (app : Application)
    (found : option AppRole) :
  parse.AppRoleID (resourceId w) = inr id →
  healthy w →
  applications w !! parse.ar_ObjectId id = Some app →
  helpers.AppRoleFindById app (parse.ar_RoleId id) = (found, None) →
  entryRead (bool_decide (is_Some found)) (parse.ar_ObjectId id) w
    (app_role.applicationAppRoleResourceRead w).
Proof.
  intros Hparse Hh Happ Hfind.
  destruct found as [role|].
  all: eassert (Hrun : app_role.applicationAppRoleResourceRead w = _);
    [ unfold app_role.applicationAppRoleResourceRead; step; rewrite Hparse;
      step_with ltac:(apply (Applications_Get_found _ _ app); [healthy | exact Happ]);
      change (helpers.AppRoleFindById (set_app_ID _ app) (parse.ar_RoleId id))
        with (helpers.AppRoleFindById app (parse.ar_RoleId id));
      rewrite Hfind; reflexivity
    | rewrite Hrun; repeat split ].
Qed.

Lemma scope_read_entry (w : World) (id : parse.OAuth2PermissionScopeId)
    (app : Application) (found : option PermissionScope) :
  parse.OAuth2PermissionScopeID (resourceId w) = inr id →
  healthy w →
  applications w !! parse.ps_ObjectId id = Some app →
  helpers.OAuth2PermissionFindById app (parse.ps_ScopeId id) = (found, None) →
  entryRead (bool_decide (is_Some found)) (parse.ps_ObjectId id) w
    (oauth2_scope.applicationOAuth2PermissionScopeResourceRead w).
Proof.
  intros Hparse Hh Happ Hfind.
  destruct found as [scope|].
  all: eassert (Hrun : oauth2_scope.applicationOAuth2PermissionScopeResourceRead w = _);
    [ unfold oauth2_scope.applicationOAuth2PermissionScopeResourceRead; step;
      rewrite Hparse;
      step_with ltac:(apply (Applications_Get_found _ _ app); [healthy | exact Happ]);
      change (helpers.OAuth2PermissionFindById (set_app_ID _ app) (parse.ps_ScopeId id))
        with (helpers.OAuth2PermissionFindById app (parse.ps_ScopeId id));
      rewrite Hfind; reflexivity
    | rewrite Hrun; repeat split ].
Qed.

Lemma certificate_read_entry (w : World) (id : parse.CredentialId) (app : Application) :
  parse.CertificateID (resourceId w) = inr id →
  healthy w →
  applications w !! parse.cr_ObjectId id = Some app →
  entryRead
    (bool_decide (is_Some (List.find (certificate.keyIs (parse.cr_KeyId id))
                             (credentialsOf app))))
    (parse.cr_ObjectId id) w
    (certificate.applicationCertificateResourceRead w).
Proof.
  intros Hparse Hh Happ.
  destruct (List.find _ (credentialsOf app)) as [credential|] eqn:Hfind.
  all: eassert (Hrun : certificate.applicationCertificateResourceRead w = _);
    [ unfold certificate.applicationCertificateResourceRead; step; rewrite Hparse;
      step_with ltac:(apply (Applications_Get_found _ _ app); [healthy | exact Happ]);
      change (app_KeyCredentials (set_app_ID _ app)) with (app_KeyCredentials app);
      fold (credentialsOf app); rewrite Hfind; reflexivity
    | rewrite Hrun; repeat split ].
Qed.

(** On a healthy service that holds the parent application, the read of
    an app role, of an OAuth2 permission scope or of a certificate makes
    one Get and returns no error; it keeps the resource ID when the
    parent's collection holds the entry and clears it when the entry is
    absent. *)
Theorem sub_resource_read_of_entry :
  (∀ w id app found,
     parse.AppRoleID (resourceId w) = inr id →
     healthy w →
     applications w !! parse.ar_ObjectId id = Some app →
     helpers.AppRoleFindById app (parse.ar_RoleId id) = (found, None) →
     entryRead (bool_decide (is_Some found)) (parse.ar_ObjectId id) w
       (app_role.applicationAppRoleResourceRead w)) ∧
  (∀ w id app found,
     parse.OAuth2PermissionScopeID (resourceId w) = inr id →
     healthy w →
     applications w !! parse.ps_ObjectId id = Some app →
     helpers.OAuth2PermissionFindById app (parse.ps_ScopeId id) = (found, None) →
     entryRead (bool_decide (is_Some found)) (parse.ps_ObjectId id) w
       (oauth2_scope.applicationOAuth2PermissionScopeResourceRead w)) ∧
  (∀ w id app,
     parse.CertificateID (resourceId w) = inr id →
     healthy w →
     applications w !! parse.cr_ObjectId id = Some app →
     entryRead
       (bool_decide (is_Some (List.find (certificate.keyIs (parse.cr_KeyId id))
                                (credentialsOf app))))
       (parse.cr_ObjectId id) w
       (certificate.applicationCertificateResourceRead w)).
Proof.
  split; [|split].
  - apply role_read_entry.
  - apply scope_read_entry.
  - apply certificate_read_entry.
Qed.

(** The role "role-1" is there and "role-9" is not; the certificate
    "key-9" is not there. *)
Lemma sub_resource_read_of_entry_witness :
  entryRead true "app-1" (example.worldA "app-1/role-1" false)
    (app_role.applicationAppRoleResourceRead (example.worldA "app-1/role-1" false)) ∧
  entryRead false "app-1" (example.worldA "app-1/role-9" false)
    (app_role.applicationAppRoleResourceRead (example.worldA "app-1/role-9" false)) ∧
  entryRead true "app-1" (example.worldA "app-1/scope-1" false)
    (oauth2_scope.applicationOAuth2PermissionScopeResourceRead
       (example.worldA "app-1/scope-1" false)) ∧
  entryRead false "app-1" (example.worldA "app-1/key-9/certificate" false)
    (certificate.applicationCertificateResourceRead
       (example.worldA "app-1/key-9/certificate" false)).
Proof.
  split; [|split; [|split]].
  - apply (proj1 sub_resource_read_of_entry (example.worldA "app-1/role-1" false)
             (parse.mkAppRoleId "app-1" "role-1") example.appA (Some example.roleA));
      reflexivity.
  - apply (proj1 sub_resource_read_of_entry (example.worldA "app-1/role-9" false)
             (parse.mkAppRoleId "app-1" "role-9") example.appA None); reflexivity.
  - apply (proj1 (proj2 sub_resource_read_of_entry)
             (example.worldA "app-1/scope-1" false)
             (parse.mkOAuth2PermissionScopeId "app-1" "scope-1") example.appA
             (Some example.scopeA)); reflexivity.
  - apply (proj2 (proj2 sub_resource_read_of_entry)
             (example.worldA "app-1/key-9/certificate" false)
             (parse.mkCredentialId "app-1" "certificate" "key-9") example.appA);
      reflexivity.
Defined.

(** ** Deleting an entry that is already gone *)

Lemma role_delete_gone (w : World) (id : parse.AppRoleId) (app : Application) :
  parse.AppRoleID (resourceId w) = inr id →
  healthy w →
  applications w !! parse.ar_ObjectId id = Some app →
  helpers.AppRoleFindById app (parse.ar_RoleId id) = (None, None) →
  goneQuietly (parse.ar_ObjectId id) w (app_role.applicationAppRoleResourceDelete w).
Proof.
  intros Hparse Hh Happ Hfind.
  eassert (Hrun : app_role.applicationAppRoleResourceDelete w = _).
  { unfold app_role.applicationAppRoleResourceDelete. step. rewrite Hparse.
    eapply withLock_run.
    step_with ltac:(apply (Applications_Get_found _ _ app); [healthy | exact Happ]).
    change (helpers.AppRoleFindById (set_app_ID _ app) (parse.ar_RoleId id))
      with (helpers.AppRoleFindById app (parse.ar_RoleId id)).
    rewrite Hfind. reflexivity. }
  rewrite Hrun. unfold goneQuietly. simpl. rewrite <- !app_assoc. done.
Qed.

Lemma scope_delete_gone (w : World) (id : parse.OAuth2PermissionScopeId)
    (app : Application) :
  parse.OAuth2PermissionScopeID (resourceId w) = inr id →
  healthy w →
  applications w !! parse.ps_ObjectId id = Some app →
  helpers.OAuth2PermissionFindById app (parse.ps_ScopeId id) = (None, None) →
  goneQuietly (parse.ps_ObjectId id) w
    (oauth2_scope.applicationOAuth2PermissionScopeResourceDelete w).
Proof.
  intros Hparse Hh Happ Hfind.
  eassert (Hrun : oauth2_scope.applicationOAuth2PermissionScopeResourceDelete w = _).
  { unfold oauth2_scope.applicationOAuth2PermissionScopeResourceDelete. step.
    rewrite Hparse. eapply withLock_run.
    step_with ltac:(apply (Applications_Get_found _ _ app); [healthy | exact Happ]).
    change (helpers.OAuth2PermissionFindById (set_app_ID _ app) (parse.ps_ScopeId id))
      with (helpers.OAuth2PermissionFindById app (parse.ps_ScopeId id)).
    rewrite Hfind. reflexivity. }
  rewrite Hrun. unfold goneQuietly. simpl. rewrite <- !app_assoc. done.
Qed.

(** On a healthy service, deleting an app role or an OAuth2 permission
    scope that the fetched parent no longer holds succeeds without any
    write: the operation locks, fetches the parent once, clears the
    resource ID and unlocks, and the directory is left as it was. *)
Theorem delete_of_missing_entry_succeeds_without_write :
  (∀ w id app,
     parse.AppRoleID (resourceId w) = inr id →
     healthy w →
     applications w !! parse.ar_ObjectId id = Some app →
     helpers.AppRoleFindById app (parse.ar_RoleId id) = (None, None) →
     goneQuietly (parse.ar_ObjectId id) w (app_role.applicationAppRoleResourceDelete w)) ∧
  (∀ w id app,
     parse.OAuth2PermissionScopeID (resourceId w) = inr id →
     healthy w →
     applications w !! parse.ps_ObjectId id = Some app →
     helpers.OAuth2PermissionFindById app (parse.ps_ScopeId id) = (None, None) →
     goneQuietly (parse.ps_ObjectId id) w
       (oauth2_scope.applicationOAuth2PermissionScopeResourceDelete w)).
Proof. split; [apply role_delete_gone | apply scope_delete_gone]. Qed.

Lemma delete_of_missing_entry_witness :
  goneQuietly "app-1" (example.worldA "app-1/role-9" false)
    (app_role.applicationAppRoleResourceDelete (example.worldA "app-1/role-9" false)) ∧
  goneQuietly "app-1" (example.worldA "app-1/scope-9" false)
    (oauth2_scope.applicationOAuth2PermissionScopeResourceDelete
       (example.worldA "app-1/scope-9" false)).
Proof.
  split.
  - apply (proj1 delete_of_missing_entry_succeeds_without_write
             (example.worldA "app-1/role-9" false)
             (parse.mkAppRoleId "app-1" "role-9") example.appA); reflexivity.
  - apply (proj2 delete_of_missing_entry_succeeds_without_write
             (example.worldA "app-1/scope-9" false)
             (parse.mkOAuth2PermissionScopeId "app-1" "scope-9") example.appA);
      reflexivity.
Defined.

(** ** Certificates: what a delete keeps and what a create appends *)

Lemma copyUnlessPresent_absent keyId creds acc :
  List.find (certificate.keyIs keyId) creds = None →
  certificate.copyUnlessPresent keyId creds acc = inr (acc ++ creds).
Proof.
  revert acc. induction creds as [|cred rest IH]; intros acc Hf; simpl in *.
  - by rewrite app_nil_r.
  - destruct (certificate.keyIs keyId cred); [discriminate|].
    rewrite IH by exact Hf. by rewrite <- app_assoc.
Qed.

(** On a healthy service that holds the parent application, deleting a
    certificate writes back, in one update, exactly the credentials that
    carry a key ID other than the deleted one, in their order: a
    credential without a key ID is dropped as well, and the update is
    issued even when no credential carries the deleted key ID.  The
    resource ID is left as it was. *)
Theorem certificate_delete_keeps_the_other_keys (w : World) (id : parse.CredentialId)
    (app : Application) :
  parse.CertificateID (resourceId w) = inr id →
  healthy w →
  applications w !! parse.cr_ObjectId id = Some app →
  let kept := keptCredentials (parse.cr_KeyId id) (credentialsOf app) in
  let r := certificate.applicationCertificateResourceDelete w in
  wroteBack credentialsOf (parse.cr_ObjectId id)
    (certificate.credentialsPayload (parse.cr_ObjectId id) kept) kept w r ∧
  resourceId (snd r) = resourceId w.
Proof. exact (certificate_delete_run w id app). Qed.

(** The application holds "key-1" and a credential without a key ID;
    deleting the absent "key-9" keeps "key-1" only. *)
Lemma certificate_delete_keeps_the_other_keys_witness :
  let w := example2.worldK "app-1/key-9/certificate" in
  let r := certificate.applicationCertificateResourceDelete w in
  wroteBack credentialsOf "app-1"
    (certificate.credentialsPayload "app-1" [example.keyA]) [example.keyA] w r ∧
  resourceId (snd r) = "app-1/key-9/certificate".
Proof.
  cbv zeta.
  apply (certificate_delete_keeps_the_other_keys
           (example2.worldK "app-1/key-9/certificate")
           (parse.mkCredentialId "app-1" "certificate" "key-9")
           example2.appK); reflexivity.
Defined.

Lemma find_keyIs_appended keyId creds credential :
  List.find (certificate.keyIs keyId) creds = None →
  cred_KeyId credential = Some keyId →
  List.find (certificate.keyIs keyId) (creds ++ [credential]) = Some credential.
Proof.
  intros Hf Hk. rewrite (find_app_none _ _ _ Hf). simpl.
  unfold certificate.keyIs, hasID. rewrite Hk.
  by rewrite bool_decide_eq_true_2.
Qed.

Lemma certificate_read_found (w : World) (id : parse.CredentialId) (app : Application)
    (credential : KeyCredential) :
  parse.CertificateID (resourceId w) = inr id →
  healthy w →
  applications w !! parse.cr_ObjectId id = Some app →
  List.find (certificate.keyIs (parse.cr_KeyId id)) (credentialsOf app) = Some credential →
  certificate.applicationCertificateResourceRead w =
    ([], logged (getEvent (parse.cr_ObjectId id)) w).
Proof.
  intros Hparse Hh Happ Hfind.
  unfold certificate.applicationCertificateResourceRead. step. rewrite Hparse.
  step_with ltac:(apply (Applications_Get_found _ _ app); [healthy | exact Happ]).
  change (app_KeyCredentials (set_app_ID _ app)) with (app_KeyCredentials app).
  fold (credentialsOf app). rewrite Hfind. reflexivity.
Qed.

(** On a healthy service that holds the parent application, creating a
    certificate whose key ID no stored credential carries writes back, in
    one update, the stored credentials in their order followed by the
    new one; the resource ID becomes the composite ID of the new
    credential, provided that ID parses back to its parts, and the read
    that ends the create finds the credential. *)
Theorem certificate_create_appends (c : certificate.Config) (w : World)
    (app : Application) (credential : KeyCredential) (keyId : string) :
  let objectId := certificate.cc_application_object_id c in
  let id := parse.NewCredentialID objectId "certificate" keyId in
  certificate.cc_credential c = inr credential →
  cred_KeyId credential = Some keyId →
  healthy w →
  applications w !! objectId = Some app →
  List.find (certificate.keyIs keyId) (credentialsOf app) = None →
  parse.CertificateID (parse.CredentialId_String id) = inr id →
  let all := credentialsOf app ++ [credential] in
  let r := certificate.applicationCertificateResourceCreate c w in
  wroteBack credentialsOf objectId (certificate.credentialsPayload objectId all) all w r ∧
  resourceId (snd r) = parse.CredentialId_String id.
Proof.
  intros objectId id Hc Hk Hh Happ Hnew Hparse all r.
  eassert (Hrun : certificate.applicationCertificateResourceCreate c w = _).
  { unfold certificate.applicationCertificateResourceCreate. cbv zeta.
    rewrite Hc, Hk. fold objectId. fold id.
    eapply withLock_run.
    change (parse.cr_ObjectId id) with objectId.
    step_with ltac:(apply (Applications_Get_found _ objectId app); [healthy | exact Happ]).
    change (app_KeyCredentials (set_app_ID _ app)) with (app_KeyCredentials app).
    fold (credentialsOf app).
    rewrite (copyUnlessPresent_absent _ _ _ Hnew), app_nil_l. fold all.
    step_with ltac:(eapply (Applications_Update_found _ _ app objectId);
                    [healthy | reflexivity | exact Happ]).
    step.
    eapply (certificate_read_found _ id _ credential);
      [ exact Hparse | healthy | simpl; apply lookup_insert_eq
      | apply find_keyIs_appended; [exact Hnew | exact Hk] ]. }
  unfold r. rewrite Hrun. split; [|reflexivity].
  split; [reflexivity|]. split.
  - eexists. simpl. split; [rewrite <- !app_assoc; reflexivity|]. split; reflexivity.
  - simpl. rewrite lookup_insert_eq. reflexivity.
Qed.

Lemma certificate_create_appends_witness :
  let r := certificate.applicationCertificateResourceCreate
             (example.certificateConfig "key-2") (example.worldA "" true) in
  wroteBack credentialsOf "app-1"
    (certificate.credentialsPayload "app-1"
       [example.keyA;
        mkKeyCredential (Some "key-2") "AsymmetricX509Cert" "Verify" (Some "MIIB") None None])
    [example.keyA;
     mkKeyCredential (Some "key-2") "AsymmetricX509Cert" "Verify" (Some "MIIB") None None]
    (example.worldA "" true) r ∧
  resourceId (snd r) = "app-1/key-2/certificate".
Proof.
  cbv zeta.
  apply (certificate_create_appends (example.certificateConfig "key-2")
           (example.worldA "" true) example.appA
           (mkKeyCredential (Some "key-2") "AsymmetricX509Cert" "Verify" (Some "MIIB")
              None None)
           "key-2"); reflexivity.
Defined.

(** ** Creating an entry *)

Lemma set_uuids_same (w : World) : set_uuids (uuids w) w = w.
Proof. by destruct w. Qed.

Lemma draw_run (configured : string) (w : World) (entryId : string) (rest : list string) :
  drawnId configured w = Some (entryId, rest) →
  (if nonEmptyString configured then mret (inr configured) else GenerateUUID) w =
    (inr entryId, set_uuids rest w).
Proof.
  unfold drawnId. destruct (nonEmptyString configured).
  - intros [= <- <-]. by rewrite set_uuids_same.
  - unfold GenerateUUID. destruct (uuids w) as [|u us]; [discriminate|].
    by intros [= <- <-].
Qed.

Lemma appendEntry_fresh {A} (ID : A → option string) kind x id coll :
  ID x = Some id →
  findByID ID id (default_list coll) = None →
  appendEntry ID kind x coll = inr (default_list coll ++ [x]).
Proof. intros Hx Hf. unfold appendEntry. by rewrite Hx, Hf. Qed.

Lemma findByID_appended {A} (ID : A → option string) id l x :
  findByID ID id l = None →
  ID x = Some id →
  findByID ID id (l ++ [x]) = Some x.
Proof.
  unfold findByID. intros Hf Hx. rewrite (find_app_none _ _ _ Hf). simpl.
  unfold hasID. rewrite Hx. by rewrite bool_decide_eq_true_2.
Qed.

Lemma role_read_found (w : World) (id : parse.AppRoleId) (app : Application)
    (role : AppRole) :
  parse.AppRoleID (resourceId w) = inr id →
  healthy w →
  applications w !! parse.ar_ObjectId id = Some app →
  helpers.AppRoleFindById app (parse.ar_RoleId id) = (Some role, None) →
  app_role.applicationAppRoleResourceRead w = ([], logged (getEvent (parse.ar_ObjectId id)) w).
Proof.
  intros Hparse Hh Happ Hfind.
  unfold app_role.applicationAppRoleResourceRead. step. rewrite Hparse.
  step_with ltac:(apply (Applications_Get_found _ _ app); [healthy | exact Happ]).
  change (helpers.AppRoleFindById (set_app_ID _ app) (parse.ar_RoleId id))
    with (helpers.AppRoleFindById app (parse.ar_RoleId id)).
  rewrite Hfind. reflexivity.
Qed.

Lemma scope_read_found (w : World) (id : parse.OAuth2PermissionScopeId)
    (app : Application) (scope : PermissionScope) :
  parse.OAuth2PermissionScopeID (resourceId w) = inr id →
  healthy w →
  applications w !! parse.ps_ObjectId id = Some app →
  helpers.OAuth2PermissionFindById app (parse.ps_ScopeId id) = (Some scope, None) →
  oauth2_scope.applicationOAuth2PermissionScopeResourceRead w =
    ([], logged (getEvent (parse.ps_ObjectId id)) w).
Proof.
  intros Hparse Hh Happ Hfind.
  unfold oauth2_scope.applicationOAuth2PermissionScopeResourceRead. step. rewrite Hparse.
  step_with ltac:(apply (Applications_Get_found _ _ app); [healthy | exact Happ]).
  change (helpers.OAuth2PermissionFindById (set_app_ID _ app) (parse.ps_ScopeId id))
    with (helpers.OAuth2PermissionFindById app (parse.ps_ScopeId id)).
  rewrite Hfind. reflexivity.
Qed.

Lemma role_create_run (c : app_role.Config) (w : World) (app : Application)
    (roleId : string) (rest : list string) :
  let objectId := app_role.rc_application_object_id c in
  let id := parse.NewAppRoleID objectId roleId in
  let role :=
    mkAppRole (Some (app_role.rc_allowed_member_types c)) (Some (app_role.rc_description c))
      (Some (app_role.rc_display_name c)) (Some roleId) (Some (app_role.rc_enabled c))
      (applications.optString (app_role.rc_value c)) in
  let all := rolesOf app ++ [role] in
  isNewResource w = true →
  healthy w →
  applications w !! objectId = Some app →
  drawnId (app_role.rc_role_id c) w = Some (roleId, rest) →
  roleId ≠ "" →
  findByID role_ID roleId (rolesOf app) = None →
  parse.AppRoleID (parse.AppRoleId_String id) = inr id →
  let r := app_role.applicationAppRoleResourceCreateUpdate c w in
  wroteBack rolesOf objectId
    (set_app_AppRoles (Some all) (set_app_ID (Some objectId) emptyApplication)) all w r ∧
  resourceId (snd r) = parse.AppRoleId_String id ∧
  uuids (snd r) = rest.
Proof.
  intros objectId id role all Hnew Hh Happ Hdraw Hne Hfresh Hparse r.
  eassert (Hrun : app_role.applicationAppRoleResourceCreateUpdate c w = _).
  { unfold app_role.applicationAppRoleResourceCreateUpdate. cbv zeta.
    step_with ltac:(apply (draw_run _ _ _ _ Hdraw)).
    fold objectId. fold id. fold role.
    eapply withLock_run.
    change (parse.ar_ObjectId id) with objectId.
    step_with ltac:(apply (Applications_Get_found _ objectId app); [healthy | exact Happ]).
    step. rewrite !isNewResource_logged.
    change (isNewResource (set_uuids rest w)) with (isNewResource w). rewrite Hnew.
    unfold AppendAppRole.
    change (app_AppRoles (set_app_ID (Some objectId) app)) with (app_AppRoles app).
    rewrite (appendEntry_fresh role_ID "App Role" role roleId (app_AppRoles app));
      [|reflexivity|exact Hfresh].
    fold (rolesOf app). fold all.
    step_with ltac:(eapply (Applications_Update_found _ _ app objectId);
                    [healthy | reflexivity | exact Happ]).
    step.
    eapply (role_read_found _ id _ role);
      [ exact Hparse | healthy | simpl; apply lookup_insert_eq | ].
    unfold helpers.AppRoleFindById. simpl.
    rewrite bool_decide_eq_false_2 by exact Hne. unfold all.
    rewrite (findByID_appended role_ID roleId (rolesOf app) role Hfresh eq_refl).
    reflexivity. }
  unfold r. rewrite Hrun. split; [|split; reflexivity].
  split; [reflexivity|]. split.
  - eexists. simpl. split; [rewrite <- !app_assoc; reflexivity|]. split; reflexivity.
  - simpl. rewrite lookup_insert_eq. reflexivity.
Qed.

Lemma scope_create_run (c : oauth2_scope.Config) (w : World) (app : Application)
    (scopeId : string) (rest : list string) :
  let objectId := oauth2_scope.pc_application_object_id c in
  let id := parse.NewOAuth2PermissionScopeID objectId scopeId in
  let scope :=
    mkPermissionScope (Some (oauth2_scope.pc_admin_consent_description c))
      (Some (oauth2_scope.pc_admin_consent_display_name c)) (Some scopeId)
      (Some (oauth2_scope.pc_enabled c)) (oauth2_scope.pc_type c)
      (Some (oauth2_scope.pc_user_consent_description c))
      (Some (oauth2_scope.pc_user_consent_display_name c))
      (Some (oauth2_scope.pc_value c)) in
  let all := scopesOf app ++ [scope] in
  isNewResource w = true →
  healthy w →
  applications w !! objectId = Some app →
  drawnId (oauth2_scope.pc_scope_id c) w = Some (scopeId, rest) →
  scopeId ≠ "" →
  findByID scope_ID scopeId (scopesOf app) = None →
  parse.OAuth2PermissionScopeID (parse.OAuth2PermissionScopeId_String id) = inr id →
  let r := oauth2_scope.applicationOAuth2PermissionScopeResourceCreateUpdate c w in
  wroteBack scopesOf objectId
    (set_app_Api (Some (mkApplicationApi (Some all)))
       (set_app_ID (Some objectId) emptyApplication)) all w r ∧
  resourceId (snd r) = parse.OAuth2PermissionScopeId_String id ∧
  uuids (snd r) = rest.
Proof.
  intros objectId id scope all Hnew Hh Happ Hdraw Hne Hfresh Hparse r.
  set (api0 := match app_Api app with
               | Some api => api
               | None => mkApplicationApi None
               end).
  assert (Hapi0 : default_list (api_OAuth2PermissionScopes api0) = scopesOf app)
    by (unfold api0, scopesOf; destruct (app_Api app); reflexivity).
  eassert (Hrun : oauth2_scope.applicationOAuth2PermissionScopeResourceCreateUpdate c w = _).
  { unfold oauth2_scope.applicationOAuth2PermissionScopeResourceCreateUpdate. cbv zeta.
    step_with ltac:(apply (draw_run _ _ _ _ Hdraw)).
    fold objectId. fold id. fold scope.
    eapply withLock_run.
    change (parse.ps_ObjectId id) with objectId.
    step_with ltac:(apply (Applications_Get_found _ objectId app); [healthy | exact Happ]).
    step. rewrite !isNewResource_logged.
    change (isNewResource (set_uuids rest w)) with (isNewResource w). rewrite Hnew.
    change (app_Api (set_app_ID (Some objectId) app)) with (app_Api app).
    change (match app_Api app with
            | Some api => api
            | None => mkApplicationApi None
            end) with api0.
    unfold AppendOAuth2PermissionScope.
    rewrite (appendEntry_fresh scope_ID "OAuth2 Permission Scope" scope scopeId
               (api_OAuth2PermissionScopes api0));
      [|reflexivity|by rewrite Hapi0].
    rewrite Hapi0. fold all.
    step_with ltac:(eapply (Applications_Update_found _ _ app objectId);
                    [healthy | reflexivity | exact Happ]).
    step.
    eapply (scope_read_found _ id _ scope);
      [ exact Hparse | healthy | simpl; apply lookup_insert_eq | ].
    unfold helpers.OAuth2PermissionFindById. simpl.
    rewrite bool_decide_eq_false_2 by exact Hne. unfold all.
    rewrite (findByID_appended scope_ID scopeId (scopesOf app) scope Hfresh eq_refl).
    reflexivity. }
  unfold r. rewrite Hrun. split; [|split; reflexivity].
  split; [reflexivity|]. split.
  - eexists. simpl. split; [rewrite <- !app_assoc; reflexivity|]. split; reflexivity.
  - simpl. rewrite lookup_insert_eq. reflexivity.
Qed.

(** On a healthy service that holds the parent application, creating an
    app role or an OAuth2 permission scope under an ID that no stored
    entry carries (the configured ID, or the next UUID when none is
    configured) writes back, in one update, the stored entries in their
    order followed by the new one, built from the configuration.  The
    resource ID becomes the composite ID of the new entry, provided that
    ID parses back to its parts, and a UUID is consumed only when no ID
    was configured. *)
Theorem create_appends_the_entry :
  (∀ c w app roleId rest,
     let objectId := app_role.rc_application_object_id c in
     let id := parse.NewAppRoleID objectId roleId in
     let role :=
       mkAppRole (Some (app_role.rc_allowed_member_types c))
         (Some (app_role.rc_description c)) (Some (app_role.rc_display_name c))
         (Some roleId) (Some (app_role.rc_enabled c))
         (applications.optString (app_role.rc_value c)) in
     let all := rolesOf app ++ [role] in
     isNewResource w = true →
     healthy w →
     applications w !! objectId = Some app →
     drawnId (app_role.rc_role_id c) w = Some (roleId, rest) →
     roleId ≠ "" →
     findByID role_ID roleId (rolesOf app) = None →
     parse.AppRoleID (parse.AppRoleId_String id) = inr id →
     let r := app_role.applicationAppRoleResourceCreateUpdate c w in
     wroteBack rolesOf objectId
       (set_app_AppRoles (Some all) (set_app_ID (Some objectId) emptyApplication)) all w r ∧
     resourceId (snd r) = parse.AppRoleId_String id ∧
     uuids (snd r) = rest) ∧
  (∀ c w app scopeId rest,
     let objectId := oauth2_scope.pc_application_object_id c in
     let id := parse.NewOAuth2PermissionScopeID objectId scopeId in
     let scope :=
       mkPermissionScope (Some (oauth2_scope.pc_admin_consent_description c))
         (Some (oauth2_scope.pc_admin_consent_display_name c)) (Some scopeId)
         (Some (oauth2_scope.pc_enabled c)) (oauth2_scope.pc_type c)
         (Some (oauth2_scope.pc_user_consent_description c))
         (Some (oauth2_scope.pc_user_consent_display_name c))
         (Some (oauth2_scope.pc_value c)) in
     let all := scopesOf app ++ [scope] in
     isNewResource w = true →
     healthy w →
     applications w !! objectId = Some app →
     drawnId (oauth2_scope.pc_scope_id c) w = Some (scopeId, rest) →
     scopeId ≠ "" →
     findByID scope_ID scopeId (scopesOf app) = None →
     parse.OAuth2PermissionScopeID (parse.OAuth2PermissionScopeId_String id) = inr id →
     let r := oauth2_scope.applicationOAuth2PermissionScopeResourceCreateUpdate c w in
     wroteBack scopesOf objectId
       (set_app_Api (Some (mkApplicationApi (Some all)))
          (set_app_ID (Some objectId) emptyApplication)) all w r ∧
     resourceId (snd r) = parse.OAuth2PermissionScopeId_String id ∧
     uuids (snd r) = rest).
Proof. split; [apply role_create_run | apply scope_create_run]. Qed.

(** A role without a configured ID draws "uuid-1"; a scope with the
    configured ID "scope-2" draws nothing. *)
Lemma create_appends_the_entry_witness :
  (let r := app_role.applicationAppRoleResourceCreateUpdate (example.roleConfig "")
              (example.worldA "" true) in
   resourceId (snd r) = "app-1/uuid-1" ∧ uuids (snd r) = [] ∧
   rolesOf <$> applications (snd r) !! "app-1" =
     Some [example.roleA;
           mkAppRole (Some ["User"]) (Some "Administrators") (Some "Admin") (Some "uuid-1")
             (Some true) (Some "admin")]) ∧
  (let r := oauth2_scope.applicationOAuth2PermissionScopeResourceCreateUpdate
              (example.scopeConfig "scope-2") (example.worldA "" true) in
   resourceId (snd r) = "app-1/scope-2" ∧ uuids (snd r) = ["uuid-1"] ∧
   scopesOf <$> applications (snd r) !! "app-1" =
     Some [example.scopeA;
           mkPermissionScope (Some "Read everything") (Some "Read") (Some "scope-2")
             (Some true) "User" (Some "Read everything") (Some "Read") (Some "read")]).
Proof.
  split.
  - destruct (proj1 create_appends_the_entry (example.roleConfig "")
                (example.worldA "" true) example.appA "uuid-1" [])
      as ((_ & _ & Hstored) & Hid & Hu); try reflexivity; try discriminate.
    cbv zeta. split; [exact Hid|]. split; [exact Hu | exact Hstored].
  - destruct (proj2 create_appends_the_entry (example.scopeConfig "scope-2")
                (example.worldA "" true) example.appA "scope-2" ["uuid-1"])
      as ((_ & _ & Hstored) & Hid & Hu); try reflexivity; try discriminate.
    cbv zeta. split; [exact Hid|]. split; [exact Hu | exact Hstored].
Defined.

(** * Applications: expanding and flattening the nested blocks *)

Section Blocks.
Import application_blocks.

Lemma flatten_expand_claim (l : list ClaimBlock) :
  flattenApplicationOptionalClaim (expandApplicationOptionalClaim l) = List.map claimOf l.
Proof.
  unfold flattenApplicationOptionalClaim, expandApplicationOptionalClaim.
  rewrite List.map_map. apply List.map_ext. intros b. unfold claimOf.
  destruct b as [name essential props source]. cbn [cb_name cb_essential
    cb_additional_properties cb_source].
  destruct source as [source|]; [destruct (nonEmptyString source) eqn:Hs|];
    destruct props as [[|p ps]|]; cbn; try reflexivity.
  all: unfold nonEmptyString in Hs; apply negb_false_iff, bool_decide_eq_true in Hs;
    by subst source.
Qed.

(** Expanding the [optional_claims] block of the configuration and
    flattening the result gives the block back: every claim keeps its
    name, its essential flag, its source (empty when it has none) and its
    additional properties (empty when it has none), in the order of the
    configuration.  A block whose two lists are both empty flattens to
    no block at all, like a configuration without the block. *)
Theorem optional_claims_round_trip (b : ClaimsBlock) (rest : list (option ClaimsBlock)) :
  flattenApplicationOptionalClaims (expandApplicationOptionalClaims (Some b :: rest)) =
    match cb_access_token b, cb_id_token b with
    | [], [] => []
    | accessToken, idToken =>
        [mkFlatClaims (List.map claimOf accessToken) (List.map claimOf idToken)]
    end ∧
  flattenApplicationOptionalClaims (expandApplicationOptionalClaims (None :: rest)) = [] ∧
  flattenApplicationOptionalClaims (expandApplicationOptionalClaims []) = [].
Proof.
  split; [|split; reflexivity].
  unfold flattenApplicationOptionalClaims, expandApplicationOptionalClaims.
  cbn [claims_AccessToken claims_IdToken]. rewrite !flatten_expand_claim.
  destruct (cb_access_token b) as [|a1 al], (cb_id_token b) as [|i1 il]; reflexivity.
Qed.

Lemma flatten_expand_access (l : list AccessBlock) :
  flattenApplicationResourceAccess (expandApplicationResourceAccess l) = List.map accessOf l.
Proof.
  unfold flattenApplicationResourceAccess, expandApplicationResourceAccess.
  rewrite List.map_map. reflexivity.
Qed.

(** Expanding the [required_resource_access] blocks of the configuration
    and flattening the result gives the blocks back, in their order:
    every block keeps its resource application ID and its accesses, and
    every access its ID and its type. *)
Theorem required_resource_access_round_trip (l : list ResourceBlock) :
  flattenApplicationRequiredResourceAccess (expandApplicationRequiredResourceAccess l) =
    List.map resourceOf l.
Proof.
  unfold flattenApplicationRequiredResourceAccess, expandApplicationRequiredResourceAccess.
  rewrite List.map_map. apply List.map_ext. intros b.
  cbn [required_ResourceAppId required_ResourceAccess].
  rewrite flatten_expand_access. reflexivity.
Qed.

End Blocks.

(** * Deleting a group, a user or an application *)

Section ParentDelete.
Context (Delete : string → M (Response unit)).

Ltac delete_refused HG :=
  rewrite !bind_run; cbn [Id fst snd]; rewrite HG; cbn [fst snd];
  rewrite bind_run; cbn [Id fst snd];
  match goal with
  | |- context [bool_decide ?P] => destruct (bool_decide P)
  end; cbn; (split; [by eexists _, _, _ | reflexivity]).

Ltac delete_issued HG :=
  unfold deleteIssued;
  rewrite !bind_run; cbn [Id fst snd]; rewrite HG; cbn [fst snd];
  rewrite !bind_run; cbn [Id fst snd];
  match goal with
  | |- context [Delete ?i ?w1] => destruct (Delete i w1) as [[? ?|? ?] ?]
  end; cbn; (split; [reflexivity|]); [reflexivity | by eexists _, _, _].

Lemma group_delete_refused w status err w1 :
  GroupsClient.Get (resourceId w) w = (Failed status err, w1) →
  deleteRefused
    (if bool_decide (status = http_StatusNotFound)
     then ErrorString "Group was not found" else err)
    w1 (deletes.groupResourceDelete Delete w).
Proof.
  intros HG. unfold deletes.groupResourceDelete, deleteRefused.
  delete_refused HG.
Qed.

Lemma user_delete_refused w status err w1 :
  UsersClient.Get (resourceId w) w = (Failed status err, w1) →
  deleteRefused
    (if bool_decide (status = http_StatusNotFound)
     then ErrorString "User was not found" else err)
    w1 (deletes.userResourceDelete Delete w).
Proof.
  intros HG. unfold deletes.userResourceDelete, deleteRefused.
  delete_refused HG.
Qed.

Lemma application_delete_refused w status err w1 :
  ApplicationsClient.Get (resourceId w) w = (Failed status err, w1) →
  deleteRefused
    (if bool_decide (status = http_StatusNotFound)
     then ErrorString "Application was not found" else err)
    w1 (deletes.applicationResourceDelete Delete w).
Proof.
  intros HG. unfold deletes.applicationResourceDelete, deleteRefused.
  delete_refused HG.
Qed.

Lemma group_delete_issued w g status w1 :
  GroupsClient.Get (resourceId w) w = (Ok g status, w1) →
  deleteIssued Delete w1 (deletes.groupResourceDelete Delete w).
Proof. intros HG. unfold deletes.groupResourceDelete. delete_issued HG. Qed.

Lemma user_delete_issued w u status w1 :
  UsersClient.Get (resourceId w) w = (Ok u status, w1) →
  deleteIssued Delete w1 (deletes.userResourceDelete Delete w).
Proof. intros HG. unfold deletes.userResourceDelete. delete_issued HG. Qed.

Lemma application_delete_issued w a status w1 :
  ApplicationsClient.Get (resourceId w) w = (Ok a status, w1) →
  deleteIssued Delete w1 (deletes.applicationResourceDelete Delete w).
Proof. intros HG. unfold deletes.applicationResourceDelete. delete_issued HG. Qed.

Lemma Groups_Get_missing (w : World) (i : string) :
  healthy w →
  groups w !! i = None →
  GroupsClient.Get i w = (notFound, logged (mkEvent (GroupsGet i) 404 false None) w).
Proof.
  intros Hh Hg. unfold GroupsClient.Get.
  erewrite exchange_run;
    [ | exact Hh | rewrite bind_run; simpl; rewrite Hg; reflexivity ].
  reflexivity.
Qed.

Lemma Users_Get_missing (w : World) (i : string) :
  healthy w →
  users w !! i = None →
  UsersClient.Get i w = (notFound, logged (mkEvent (UsersGet i) 404 false None) w).
Proof.
  intros Hh Hu. unfold UsersClient.Get.
  erewrite exchange_run;
    [ | exact Hh | rewrite bind_run; simpl; rewrite Hu; reflexivity ].
  reflexivity.
Qed.

Lemma Applications_Get_missing (w : World) (i : string) :
  healthy w →
  applications w !! i = None →
  ApplicationsClient.Get i w =
    (notFound, logged (mkEvent (ApplicationsGet i) 404 false None) w).
Proof.
  intros Hh Ha. unfold ApplicationsClient.Get.
  erewrite exchange_run;
    [ | exact Hh | rewrite bind_run; simpl; rewrite Ha; reflexivity ].
  reflexivity.
Qed.

(** Deleting a group, a user or an application starts with a Get of the
    object.  When the Get fails, the operation fails and makes no delete
    call, whatever the delete call would do; the error says that the
    object "was not found" when the status is 404, and is the error of
    the Get otherwise.  In particular, on a healthy service that no
    longer holds the object the delete fails: it is not a no-op.  When
    the Get succeeds, the delete call is made once, on the ID of the
    resource, and the operation fails exactly when that call fails. *)
Theorem parent_delete_needs_the_object (w : World) :
  ((∀ status err w1,
      GroupsClient.Get (resourceId w) w = (Failed status err, w1) →
      deleteRefused
        (if bool_decide (status = http_StatusNotFound)
         then ErrorString "Group was not found" else err)
        w1 (deletes.groupResourceDelete Delete w)) ∧
   (healthy w → groups w !! resourceId w = None →
    deleteRefused (ErrorString "Group was not found")
      (logged (mkEvent (GroupsGet (resourceId w)) 404 false None) w)
      (deletes.groupResourceDelete Delete w)) ∧
   (∀ g status w1,
      GroupsClient.Get (resourceId w) w = (Ok g status, w1) →
      deleteIssued Delete w1 (deletes.groupResourceDelete Delete w))) ∧
  ((∀ status err w1,
      UsersClient.Get (resourceId w) w = (Failed status err, w1) →
      deleteRefused
        (if bool_decide (status = http_StatusNotFound)
         then ErrorString "User was not found" else err)
        w1 (deletes.userResourceDelete Delete w)) ∧
   (healthy w → users w !! resourceId w = None →
    deleteRefused (ErrorString "User was not found")
      (logged (mkEvent (UsersGet (resourceId w)) 404 false None) w)
      (deletes.userResourceDelete Delete w)) ∧
   (∀ u status w1,
      UsersClient.Get (resourceId w) w = (Ok u status, w1) →
      deleteIssued Delete w1 (deletes.userResourceDelete Delete w))) ∧
  ((∀ status err w1,
      ApplicationsClient.Get (resourceId w) w = (Failed status err, w1) →
      deleteRefused
        (if bool_decide (status = http_StatusNotFound)
         then ErrorString "Application was not found" else err)
        w1 (deletes.applicationResourceDelete Delete w)) ∧
   (healthy w → applications w !! resourceId w = None →
    deleteRefused (ErrorString "Application was not found")
      (logged (mkEvent (ApplicationsGet (resourceId w)) 404 false None) w)
      (deletes.applicationResourceDelete Delete w)) ∧
   (∀ a status w1,
      ApplicationsClient.Get (resourceId w) w = (Ok a status, w1) →
      deleteIssued Delete w1 (deletes.applicationResourceDelete Delete w))).
Proof.
  split; [|split]; (split; [|split]).
  - apply group_delete_refused.
  - intros Hh Hg.
    apply (group_delete_refused w 404 (HttpError 404)), Groups_Get_missing; done.
  - apply group_delete_issued.
  - apply user_delete_refused.
  - intros Hh Hu.
    apply (user_delete_refused w 404 (HttpError 404)), Users_Get_missing; done.
  - apply user_delete_issued.
  - apply application_delete_refused.
  - intros Hh Ha.
    apply (application_delete_refused w 404 (HttpError 404)), Applications_Get_missing; done.
  - apply application_delete_issued.
Qed.

End ParentDelete.

(** A group that is gone cannot be deleted; one that is there is removed
    by the delete call. *)
Lemma parent_delete_needs_the_object_witness :
  deleteRefused (ErrorString "Group was not found")
    (logged (mkEvent (GroupsGet "grp-9") 404 false None) (example.emptyWorld "grp-9" []))
    (deletes.groupResourceDelete example2.removeGroup (example.emptyWorld "grp-9" [])) ∧
  deleteIssued example2.removeGroup
    (logged (mkEvent (GroupsGet "grp-1") 200 true (Some "grp-1")) example.worldG)
    (deletes.groupResourceDelete example2.removeGroup example.worldG).
Proof.
  split.
  - apply (proj1 (proj2 (proj1 (parent_delete_needs_the_object example2.removeGroup
                                  (example.emptyWorld "grp-9" []))))); reflexivity.
  - eapply (proj2 (proj2 (proj1 (parent_delete_needs_the_object example2.removeGroup
                                   example.worldG)))). reflexivity.
Defined.

(** * The users data source *)

Section UsersDataSource.
Import users_ds.
Context (List : string → M (Response (option (list User)))).
Context (hash : string → string).

Lemma findByUpn_count (upns : list string) (acc : list User) (w : World)
    (found : list User) :
  fst (findByUpn List false upns acc w) = inr found →
  length found = (length acc + length upns)%nat.
Proof.
  revert acc w. induction upns as [|v rest IH]; intros acc w; simpl.
  - intros [= <-]. lia.
  - rewrite bind_run. destruct (fst (List _ w)) as [[result|] s|s err]; simpl;
      try discriminate.
    destruct (bool_decide (1 < length result)%nat); simpl; [discriminate|].
    destruct result as [|u us]; simpl; [discriminate|].
    intros H. apply IH in H. rewrite length_app in H. simpl in H. lia.
Qed.

Lemma findByObjectId_count (ids : list string) (acc : list User) (w : World)
    (found : list User) :
  fst (findByObjectId false ids acc w) = inr found →
  length found = (length acc + length ids)%nat.
Proof.
  revert acc w. induction ids as [|v rest IH]; intros acc w; simpl.
  - intros [= <-]. lia.
  - rewrite bind_run. destruct (fst (UsersClient.Get v w)) as [u s|s err]; simpl.
    + intros H. apply IH in H. rewrite length_app in H. simpl in H. lia.
    + destruct (bool_decide (s = http_StatusNotFound)); simpl; discriminate.
Qed.

Lemma findByMailNickname_count (nicknames : list string) (acc : list User) (w : World)
    (found : list User) :
  fst (findByMailNickname List false nicknames acc w) = inr found →
  length found = (length acc + length nicknames)%nat.
Proof.
  revert acc w. induction nicknames as [|v rest IH]; intros acc w; simpl.
  - intros [= <-]. lia.
  - rewrite bind_run. destruct (fst (List _ w)) as [[result|] s|s err]; simpl;
      try discriminate.
    destruct (bool_decide (1 < length result)%nat); simpl; [discriminate|].
    destruct result as [|u us]; simpl; [discriminate|].
    intros H. apply IH in H. rewrite length_app in H. simpl in H. lia.
Qed.

Lemma lookup_count (c : Config) (w : World) (found : list User) (n : nat) :
  qc_ignore_missing c = false →
  fst (lookup List c w) = (inr found, n) →
  length found = n.
Proof.
  intros Him. unfold lookup. rewrite Him.
  destruct (qc_user_principal_names c) as [|u us] eqn:Eu;
    [destruct (qc_object_ids c) as [|i ids] eqn:Ei;
     [destruct (qc_mail_nicknames c) as [|m ms] eqn:Em|]|].
  - intros [= <- <-]. reflexivity.
  - rewrite bind_run. cbn [mret M_ret fst]. intros [= H <-].
    exact (findByMailNickname_count (m :: ms) [] w found H).
  - rewrite bind_run. cbn [mret M_ret fst]. intros [= H <-].
    exact (findByObjectId_count (i :: ids) [] w found H).
  - rewrite bind_run. cbn [mret M_ret fst]. intros [= H <-].
    exact (findByUpn_count (u :: us) [] w found H).
Qed.

Ltac other_diag := intros ? ? ?; discriminate.

Lemma findByUpn_diag im (upns : list string) (acc : list User) (w : World) ds :
  fst (findByUpn List im upns acc w) = inl ds →
  otherThan "Unexpected number of users returned" ds.
Proof.
  revert acc w. induction upns as [|v rest IH]; intros acc w; simpl; [discriminate|].
  rewrite bind_run. destruct (fst (List _ w)) as [[result|] s|s err]; simpl.
  - destruct (bool_decide (1 < length result)%nat); simpl;
      [intros [= <-]; other_diag|].
    destruct result as [|u us]; simpl; [|apply IH].
    destruct im; [apply IH | intros [= <-]; other_diag].
  - intros [= <-]; other_diag.
  - intros [= <-]; other_diag.
Qed.

Lemma findByObjectId_diag im (ids : list string) (acc : list User) (w : World) ds :
  fst (findByObjectId im ids acc w) = inl ds →
  otherThan "Unexpected number of users returned" ds.
Proof.
  revert acc w. induction ids as [|v rest IH]; intros acc w; simpl; [discriminate|].
  rewrite bind_run. destruct (fst (UsersClient.Get v w)) as [u s|s err]; simpl.
  - apply IH.
  - destruct (bool_decide (s = http_StatusNotFound)); simpl;
      [|intros [= <-]; other_diag].
    destruct im; [apply IH | intros [= <-]; other_diag].
Qed.

Lemma findByMailNickname_diag im (nicknames : list string) (acc : list User)
    (w : World) ds :
  fst (findByMailNickname List im nicknames acc w) = inl ds →
  otherThan "Unexpected number of users returned" ds.
Proof.
  revert acc w. induction nicknames as [|v rest IH]; intros acc w; simpl; [discriminate|].
  rewrite bind_run. destruct (fst (List _ w)) as [[result|] s|s err]; simpl.
  - destruct (bool_decide (1 < length result)%nat); simpl;
      [intros [= <-]; other_diag|].
    destruct result as [|u us]; simpl; [|apply IH].
    destruct im; [apply IH | intros [= <-]; other_diag].
  - intros [= <-]; other_diag.
  - intros [= <-]; other_diag.
Qed.

Lemma lookup_diag (c : Config) (w : World) ds (n : nat) :
  fst (lookup List c w) = (inl ds, n) →
  otherThan "Unexpected number of users returned" ds.
Proof.
  unfold lookup.
  destruct (qc_user_principal_names c) as [|u us] eqn:Eu;
    [destruct (qc_object_ids c) as [|i ids] eqn:Ei;
     [destruct (qc_mail_nicknames c) as [|m ms] eqn:Em|]|].
  - discriminate.
  - rewrite bind_run. cbn [mret M_ret fst]. intros [= H _].
    exact (findByMailNickname_diag _ (m :: ms) [] w ds H).
  - rewrite bind_run. cbn [mret M_ret fst]. intros [= H _].
    exact (findByObjectId_diag _ (i :: ids) [] w ds H).
  - rewrite bind_run. cbn [mret M_ret fst]. intros [= H _].
    exact (findByUpn_diag _ (u :: us) [] w ds H).
Qed.

(** Unless missing users are ignored, the lookup finds exactly as many
    users as were asked for whenever it does not return early: every
    name or ID either yields one user or ends the read with an error.
    The check of the number of users that follows the lookup can
    therefore never fail: whatever the configuration, the listing and
    the state of the service, the read never returns the "Unexpected
    number of users returned" error. *)
Theorem users_read_count_check_never_fails (c : Config) (w : World) :
  (∀ found n,
     qc_ignore_missing c = false →
     fst (lookup List c w) = (inr found, n) →
     length found = n) ∧
  otherThan "Unexpected number of users returned"
    (fst (fst (usersDataSourceRead List hash c w))).
Proof.
  split; [intros found n; apply lookup_count|].
  unfold usersDataSourceRead. cbv zeta. rewrite bind_run.
  destruct (fst (lookup List c w)) as [[ds|found] n] eqn:E.
  - cbn. by eapply lookup_diag.
  - destruct (qc_ignore_missing c) eqn:Him; cbn [negb andb].
    + destruct (collect found _); cbn; other_diag.
    + rewrite (lookup_count c w found n Him E).
      rewrite bool_decide_eq_true_2 by reflexivity. cbn [negb].
      destruct (collect found _); cbn; other_diag.
Qed.









End UsersDataSource.

(** Two object IDs that the directory holds: two users are found. *)
Lemma users_read_count_check_never_fails_witness :
  length (usersHeld ["u-1"; "u-2"] example2.worldU) = 2%nat.
Proof.
  apply (proj1 (users_read_count_check_never_fails example2.listNobody example2.plain
                  (users_ds.mkConfig [] ["u-1"; "u-2"] [] false) example2.worldU));
    reflexivity.
Defined.


(** * Groups *)

Lemma Groups_Get_found (w : World) (i : string) (e : GroupEntry) :
  healthy w →
  groups w !! i = Some e →
  GroupsClient.Get i w =
    (Ok (GroupsClient.set_grp_ID (Some i) (ge_props e)) 200,
     logged (mkEvent (GroupsGet i) 200 true (Some i)) w).
Proof.
  intros Hh He. unfold GroupsClient.Get.
  erewrite exchange_run;
    [ | exact Hh | rewrite bind_run; simpl; rewrite He; reflexivity ].
  reflexivity.
Qed.

Lemma Groups_Create_run (w : World) (g : Group) (i : string) (rest : list string) :
  healthy w →
  serverIds w = i :: rest →
  GroupsClient.Create g w =
    (Ok (GroupsClient.set_grp_ID (Some i) g) 201,
     logged (mkEvent (GroupsCreate g) 201 true (Some i))
       (set_groups
          (<[i := mkGroupEntry (GroupsClient.set_grp_ID (Some i) g)
                    (list_to_set (default_list (grp_Members g)))
                    (list_to_set (default_list (grp_Owners g)))]> (groups w))
          (set_serverIds rest w))).
Proof.
  intros Hh Hs. unfold GroupsClient.Create.
  erewrite exchange_run; [ | exact Hh | ].
  2:{ rewrite bind_run. unfold freshServerId. rewrite Hs. reflexivity. }
  reflexivity.
Qed.

Lemma foldl_AppendMember_keeps (g : Group) (l : list string) :
  let g' := foldl AppendMember g l in
  grp_DisplayName g' = grp_DisplayName g ∧ grp_Description g' = grp_Description g ∧
  grp_MailNickname g' = grp_MailNickname g ∧
  grp_SecurityEnabled g' = grp_SecurityEnabled g ∧
  grp_MailEnabled g' = grp_MailEnabled g ∧ grp_Owners g' = grp_Owners g.
Proof.
  revert g. induction l as [|x l IH]; intros g; simpl; [done|].
  destruct (IH (AppendMember g x)) as (-> & -> & -> & -> & -> & ->). done.
Qed.

Lemma foldl_AppendOwner_keeps (g : Group) (l : list string) :
  let g' := foldl AppendOwner g l in
  grp_DisplayName g' = grp_DisplayName g ∧ grp_Description g' = grp_Description g ∧
  grp_MailNickname g' = grp_MailNickname g ∧
  grp_SecurityEnabled g' = grp_SecurityEnabled g ∧
  grp_MailEnabled g' = grp_MailEnabled g ∧ grp_Members g' = grp_Members g.
Proof.
  revert g. induction l as [|x l IH]; intros g; simpl; [done|].
  destruct (IH (AppendOwner g x)) as (-> & -> & -> & -> & -> & ->). done.
Qed.

Lemma group_read_run (c : groups.Config) (w : World) (e : GroupEntry) :
  healthy w →
  groups w !! resourceId w = Some e →
  groups.groupResourceRead c w =
    ([], logged (mkEvent (GroupsListMembers (resourceId w)) 200 true None)
           (logged (mkEvent (GroupsListOwners (resourceId w)) 200 true None)
              (logged (mkEvent (GroupsGet (resourceId w)) 200 true (Some (resourceId w)))
                 w))).
Proof.
  intros Hh He. unfold groups.groupResourceRead.
  step. step_with ltac:(apply (Groups_Get_found _ _ e Hh He)).
  cbn [grp_ID GroupsClient.set_grp_ID].
  unfold GroupsClient.ListOwners, GroupsClient.ListMembers.
  step_with ltac:(apply (Groups_listOf_found _ _ _ _ e); [healthy | exact He]).
  step_with ltac:(apply (Groups_listOf_found _ _ _ _ e); [healthy | exact He]).
  reflexivity.
Qed.

(** On a healthy service with a UUID and an object ID to draw and a wait
    budget that is not zero, creating a group without the duplicate-name
    check succeeds: the calls are the create, the wait with its one
    probe, and the three calls of the read; the resource ID is the
    object ID that the service assigned, and the group stored under it
    is a security group with the configured name, description, members
    and owners, whose mail nickname is the UUID that was drawn. *)
Theorem group_create_stores_the_configuration (c : groups.Config) (w : World)
    (nickname objectId : string) (uuids' serverIds' : list string) :
  healthy w →
  groups.gc_prevent_duplicate_names c = false →
  uuids w = nickname :: uuids' →
  serverIds w = objectId :: serverIds' →
  (0 < retries w)%nat →
  let r := groups.groupResourceCreate c w in
  fst r = [] ∧
  resourceId (snd r) = objectId ∧
  (∃ e, groups (snd r) !! objectId = Some e ∧ configured c nickname e) ∧
  ∃ payload t,
    trace (snd r) = trace w ++ t ∧
    calls t = [GroupsCreate payload; ReplicationWait; GroupsGet objectId;
               GroupsGet objectId; GroupsListOwners objectId; GroupsListMembers objectId].
Proof.
  intros Hh Hprev Hu Hs Hretries r.
  destruct (retries w) as [|budget] eqn:Hb; [lia|].
  set (described := if nonEmptyString (groups.gc_description c)
                    then groups.set_Description (Some (groups.gc_description c))
                           (mkGroup None (Some (groups.gc_display_name c)) None
                              (Some nickname) (Some true) (Some false) None None)
                    else mkGroup None (Some (groups.gc_display_name c)) None
                           (Some nickname) (Some true) (Some false) None None).
  set (withMembers := foldl AppendMember described (groups.gc_members c)).
  set (payload := foldl AppendOwner withMembers (groups.gc_owners c)).
  eassert (Hrun : groups.groupResourceCreate c w = _).
  { unfold groups.groupResourceCreate. cbv zeta. rewrite Hprev.
    step.
    step_with ltac:(unfold GenerateUUID; rewrite Hu; reflexivity).
    fold described. fold withMembers. fold payload.
    step_with ltac:(apply (Groups_Create_run _ _ objectId serverIds'); [healthy | exact Hs]).
    cbn [grp_ID GroupsClient.set_grp_ID].
    step.
    unfold helpers.WaitForCreationReplication.
    step_with ltac:(eapply bind_eq; [reflexivity|]; cbv beta iota;
                    eapply bind_eq; [reflexivity|]; cbv beta iota;
                    cbn [retries logged set_trace set_resourceId set_groups set_serverIds
                         set_uuids];
                    rewrite Hb; cbn [helpers.poll];
                    eapply bind_eq;
                      [ eapply Groups_Get_found; [healthy | simpl; apply lookup_insert_eq]
                      | reflexivity ]).
    eapply group_read_run; [healthy | simpl; apply lookup_insert_eq]. }
  unfold r. rewrite Hrun. cbn [fst snd].
  split; [reflexivity|]. split; [reflexivity|]. split.
  - eexists. split; [simpl; apply lookup_insert_eq|].
    destruct (foldl_AppendOwner_keeps withMembers (groups.gc_owners c))
      as (Ho1 & Ho2 & Ho3 & Ho4 & Ho5 & Ho6).
    destruct (foldl_AppendMember_keeps described (groups.gc_members c))
      as (Hm1 & Hm2 & Hm3 & Hm4 & Hm5 & Hm6).
    destruct (foldl_AppendOwner withMembers (groups.gc_owners c)) as [_ Hown].
    destruct (foldl_AppendMember described (groups.gc_members c)) as [_ Hmem].
    fold withMembers in Hm1, Hm2, Hm3, Hm4, Hm5, Hm6, Hmem.
    fold payload in Ho1, Ho2, Ho3, Ho4, Ho5, Ho6, Hown.
    assert (Hd : grp_DisplayName described = Some (groups.gc_display_name c) ∧
                 grp_Description described =
                   applications.optString (groups.gc_description c) ∧
                 grp_MailNickname described = Some nickname ∧
                 grp_SecurityEnabled described = Some true ∧
                 grp_MailEnabled described = Some false ∧
                 grp_Members described = None ∧ grp_Owners described = None).
    { unfold described, applications.optString.
      destruct (nonEmptyString (groups.gc_description c)); done. }
    destruct Hd as (Hd1 & Hd2 & Hd3 & Hd4 & Hd5 & Hd6 & Hd7).
    unfold configured. cbn [ge_props ge_members ge_owners].
    change (grp_DisplayName (GroupsClient.set_grp_ID _ payload)) with (grp_DisplayName payload).
    change (grp_Description (GroupsClient.set_grp_ID _ payload)) with (grp_Description payload).
    change (grp_MailNickname (GroupsClient.set_grp_ID _ payload))
      with (grp_MailNickname payload).
    change (grp_SecurityEnabled (GroupsClient.set_grp_ID _ payload))
      with (grp_SecurityEnabled payload).
    change (grp_MailEnabled (GroupsClient.set_grp_ID _ payload)) with (grp_MailEnabled payload).
    rewrite Ho1, Ho2, Ho3, Ho4, Ho5, Ho6, Hm1, Hm2, Hm3, Hm4, Hm5, Hown, Hmem, Hm6.
    rewrite Hd1, Hd2, Hd3, Hd4, Hd5, Hd6, Hd7. done.
  - eexists payload, _. split; [simpl; rewrite <- !app_assoc; reflexivity|]. reflexivity.
Qed.

Lemma group_create_stores_the_configuration_witness :
  let r := groups.groupResourceCreate (example.groupConfig ["A"; "B"] [])
             (example.emptyWorld "" []) in
  fst r = [] ∧ resourceId (snd r) = "obj-1" ∧
  ∃ e, groups (snd r) !! "obj-1" = Some e ∧
       configured (example.groupConfig ["A"; "B"] []) "uuid-1" e.
Proof.
  destruct (group_create_stores_the_configuration (example.groupConfig ["A"; "B"] [])
              (example.emptyWorld "" []) "uuid-1" "obj-1" [] [])
    as (H1 & H2 & H3 & _); try reflexivity; [simpl; lia|].
  cbv zeta. split; [exact H1|]. split; [exact H2 | exact H3].
Defined.

(** ** Updating a group: the order of the calls *)

Lemma calls_app (t1 t2 : list Event) : calls (t1 ++ t2) = calls t1 ++ calls t2.
Proof. unfold calls. apply List.map_app. Qed.

(** The members block on a healthy service: the list, then the removal
    (if any), then the addition (if any). *)
Lemma reconcileMembers_run (c : groups.Config) (id : string) (group : Group)
    (w : World) (e : GroupEntry) :
  groups.gc_members_exists c = true →
  groups.HasChange c "members" = true →
  grp_ID group = Some id →
  grp_Members group = None →
  healthy w →
  groups w !! id = Some e →
  let removed := utils.Difference (elements (ge_members e)) (groups.gc_members c) in
  let added := utils.Difference (groups.gc_members c) (elements (ge_members e)) in
  ∃ group' w' e' t,
    groups.reconcileMembers c id group w = (inr group', w') ∧
    healthy w' ∧ resourceId w' = resourceId w ∧
    groups w' !! id = Some e' ∧
    ge_props e' = ge_props e ∧
    ge_members e' = asSet (groups.gc_members c) ∧
    ge_owners e' = ge_owners e ∧
    grp_ID group' = Some id ∧ grp_Owners group' = grp_Owners group ∧
    trace w' = trace w ++ t ∧
    ∃ payload,
      calls (List.filter isWrite t) =
        whenNonEmpty removed (GroupsRemoveMembers id removed) ++
        whenNonEmpty added (GroupsAddMembers payload) ∧
      default_list (grp_Members payload) = added.
Proof.
  intros Hex Hch Hid Hnone Hh He removed added.
  set (D := groups.gc_members c) in *.
  assert (HR : asSet removed = ge_members e ∖ asSet D)
    by (unfold removed; by rewrite asSet_Difference, asSet_elements).
  assert (HA : asSet added = asSet D ∖ ge_members e)
    by (unfold added; by rewrite asSet_Difference, asSet_elements).
  destruct (reconcile_sets (ge_members e) (asSet D)) as (_ & _ & Hfinal).
  rewrite <- HR, <- HA in Hfinal.
  unfold groups.reconcileMembers. rewrite Hex, Hch, Hid. cbn [andb]. cbv zeta.
  unfold GroupsClient.ListMembers. fold D. fold removed. fold added.
  destruct (foldl_AppendMember group added) as [Hgid Hgm].
  destruct (foldl_AppendMember_keeps group added) as (_ & _ & _ & _ & _ & Hgo).
  rewrite Hnone in Hgm. simpl in Hgm.
  set (payload := foldl AppendMember group added) in *.
  destruct removed as [|r removed'] eqn:ER; destruct added as [|a added'] eqn:EA.
  - eexists _, _, e, _. split; [|split; [|split; [|split; [|split; [|split; [|split;
      [|split; [|split; [|split]]]]]]]]].
    + step_with ltac:(apply (Groups_listOf_found _ _ _ _ e Hh He)).
      fold removed added. rewrite ER, EA. step. reflexivity.
    + healthy.
    + reflexivity.
    + exact He.
    + reflexivity.
    + rewrite <- Hfinal, asSet_nil. by rewrite gset_difference_empty, gset_union_empty.
    + reflexivity.
    + exact Hid.
    + reflexivity.
    + reflexivity.
    + exists payload. split; [reflexivity | assumption].
  - eexists _, _, _, _. split; [|split; [|split; [|split; [|split; [|split; [|split;
      [|split; [|split; [|split]]]]]]]]].
    + step_with ltac:(apply (Groups_listOf_found _ _ _ _ e Hh He)).
      fold removed added. rewrite ER, EA. step.
      unfold GroupsClient.AddMembers. fold payload. rewrite Hgid, Hid.
      step_with ltac:(apply (Groups_onEntry_found _ _ _ _ e); [healthy | exact He]).
      reflexivity.
    + healthy.
    + reflexivity.
    + simpl. apply lookup_insert_eq.
    + reflexivity.
    + cbn [ge_members]. rewrite Hgm, <- Hfinal, asSet_nil.
      by rewrite gset_difference_empty.
    + reflexivity.
    + by rewrite Hgid.
    + exact Hgo.
    + simpl. rewrite <- !app_assoc. reflexivity.
    + exists payload. split; [reflexivity | assumption].
  - eexists _, _, _, _. split; [|split; [|split; [|split; [|split; [|split; [|split;
      [|split; [|split; [|split]]]]]]]]].
    + step_with ltac:(apply (Groups_listOf_found _ _ _ _ e Hh He)).
      fold removed added. rewrite ER, EA.
      unfold GroupsClient.RemoveMembers.
      step_with ltac:(eapply bind_eq;
        [apply (Groups_onEntry_found _ _ _ _ e); [healthy | exact He] | reflexivity]).
      reflexivity.
    + healthy.
    + reflexivity.
    + simpl. apply lookup_insert_eq.
    + reflexivity.
    + cbn [ge_members]. rewrite <- Hfinal, asSet_nil. by rewrite gset_union_empty.
    + reflexivity.
    + exact Hid.
    + reflexivity.
    + simpl. rewrite <- !app_assoc. reflexivity.
    + exists payload. split; [reflexivity | assumption].
  - eexists _, _, _, _. split; [|split; [|split; [|split; [|split; [|split; [|split;
      [|split; [|split; [|split]]]]]]]]].
    + step_with ltac:(apply (Groups_listOf_found _ _ _ _ e Hh He)).
      fold removed added. rewrite ER, EA.
      unfold GroupsClient.RemoveMembers.
      step_with ltac:(eapply bind_eq;
        [apply (Groups_onEntry_found _ _ _ _ e); [healthy | exact He] | reflexivity]).
      unfold GroupsClient.AddMembers. fold payload. rewrite Hgid, Hid.
      step_with ltac:(eapply (Groups_onEntry_found _ _ _ _ _);
                      [healthy | simpl; apply lookup_insert_eq]).
      reflexivity.
    + healthy.
    + reflexivity.
    + simpl. apply lookup_insert_eq.
    + reflexivity.
    + cbn [ge_members]. rewrite Hgm. exact Hfinal.
    + reflexivity.
    + by rewrite Hgid.
    + exact Hgo.
    + simpl. rewrite <- !app_assoc. reflexivity.
    + exists payload. split; [reflexivity | assumption].
Qed.

(** The owners block on a healthy service: the list, then the addition
    (if any), then the removal (if any). *)
Lemma reconcileOwners_run (c : groups.Config) (id : string) (group : Group)
    (w : World) (e : GroupEntry) :
  groups.gc_owners_exists c = true →
  groups.HasChange c "owners" = true →
  grp_ID group = Some id →
  grp_Owners group = None →
  healthy w →
  groups w !! id = Some e →
  let removed := utils.Difference (elements (ge_owners e)) (groups.gc_owners c) in
  let added := utils.Difference (groups.gc_owners c) (elements (ge_owners e)) in
  ∃ group' w' e' t,
    groups.reconcileOwners c id group w = (inr group', w') ∧
    healthy w' ∧ resourceId w' = resourceId w ∧
    groups w' !! id = Some e' ∧
    ge_props e' = ge_props e ∧
    ge_owners e' = asSet (groups.gc_owners c) ∧
    ge_members e' = ge_members e ∧
    trace w' = trace w ++ t ∧
    ∃ payload,
      calls (List.filter isWrite t) =
        whenNonEmpty added (GroupsAddOwners payload) ++
        whenNonEmpty removed (GroupsRemoveOwners id removed) ∧
      default_list (grp_Owners payload) = added.
Proof.
  intros Hex Hch Hid Hnone Hh He removed added.
  set (D := groups.gc_owners c) in *.
  assert (HR : asSet removed = ge_owners e ∖ asSet D)
    by (unfold removed; by rewrite asSet_Difference, asSet_elements).
  assert (HA : asSet added = asSet D ∖ ge_owners e)
    by (unfold added; by rewrite asSet_Difference, asSet_elements).
  destruct (reconcile_sets (ge_owners e) (asSet D)) as (_ & Hfinal & _).
  rewrite <- HR, <- HA in Hfinal.
  unfold groups.reconcileOwners. rewrite Hex, Hch, Hid. cbn [andb]. cbv zeta.
  unfold GroupsClient.ListOwners. fold D.
  destruct (foldl_AppendOwner group added) as [Hgid Hgm].
  rewrite Hnone in Hgm. simpl in Hgm.
  set (payload := foldl AppendOwner group added) in *.
  destruct removed as [|r removed'] eqn:ER; destruct added as [|a added'] eqn:EA.
  - eexists _, _, e, _. split; [|split; [|split; [|split; [|split; [|split; [|split;
      [|split]]]]]]].
    + step_with ltac:(apply (Groups_listOf_found _ _ _ _ e Hh He)).
      fold removed added. rewrite ER, EA. step. reflexivity.
    + healthy.
    + reflexivity.
    + exact He.
    + reflexivity.
    + rewrite <- Hfinal, asSet_nil. by rewrite gset_union_empty, gset_difference_empty.
    + reflexivity.
    + reflexivity.
    + exists payload. split; [reflexivity | assumption].
  - eexists _, _, _, _. split; [|split; [|split; [|split; [|split; [|split; [|split;
      [|split]]]]]]].
    + step_with ltac:(apply (Groups_listOf_found _ _ _ _ e Hh He)).
      fold removed added. rewrite ER, EA.
      unfold GroupsClient.AddOwners. fold payload. rewrite Hgid, Hid.
      step_with ltac:(eapply bind_eq;
        [apply (Groups_onEntry_found _ _ _ _ e); [healthy | exact He] | reflexivity]).
      reflexivity.
    + healthy.
    + reflexivity.
    + simpl. apply lookup_insert_eq.
    + reflexivity.
    + cbn [ge_owners]. rewrite Hgm, <- Hfinal, asSet_nil.
      by rewrite gset_difference_empty.
    + reflexivity.
    + simpl. rewrite <- !app_assoc. reflexivity.
    + exists payload. split; [reflexivity | assumption].
  - eexists _, _, _, _. split; [|split; [|split; [|split; [|split; [|split; [|split;
      [|split]]]]]]].
    + step_with ltac:(apply (Groups_listOf_found _ _ _ _ e Hh He)).
      fold removed added. rewrite ER, EA. step.
      unfold GroupsClient.RemoveOwners.
      step_with ltac:(apply (Groups_onEntry_found _ _ _ _ e); [healthy | exact He]).
      reflexivity.
    + healthy.
    + reflexivity.
    + simpl. apply lookup_insert_eq.
    + reflexivity.
    + cbn [ge_owners]. rewrite <- Hfinal, asSet_nil. by rewrite gset_union_empty.
    + reflexivity.
    + simpl. rewrite <- !app_assoc. reflexivity.
    + exists payload. split; [reflexivity | assumption].
  - eexists _, _, _, _. split; [|split; [|split; [|split; [|split; [|split; [|split;
      [|split]]]]]]].
    + step_with ltac:(apply (Groups_listOf_found _ _ _ _ e Hh He)).
      fold removed added. rewrite ER, EA.
      unfold GroupsClient.AddOwners. fold payload. rewrite Hgid, Hid.
      step_with ltac:(eapply bind_eq;
        [apply (Groups_onEntry_found _ _ _ _ e); [healthy | exact He] | reflexivity]).
      unfold GroupsClient.RemoveOwners.
      step_with ltac:(eapply (Groups_onEntry_found _ _ _ _ _);
                      [healthy | simpl; apply lookup_insert_eq]).
      reflexivity.
    + healthy.
    + reflexivity.
    + simpl. apply lookup_insert_eq.
    + reflexivity.
    + cbn [ge_owners]. rewrite Hgm. exact Hfinal.
    + reflexivity.
    + simpl. rewrite <- !app_assoc. reflexivity.
    + exists payload. split; [reflexivity | assumption].
Qed.

Lemma filter_isWrite_read (i : string) (t : list Event) :
  List.filter isWrite
    (t ++ [mkEvent (GroupsGet i) 200 true (Some i);
           mkEvent (GroupsListOwners i) 200 true None;
           mkEvent (GroupsListMembers i) 200 true None]) =
  List.filter isWrite t.
Proof. rewrite List.filter_app. simpl. by rewrite app_nil_r. Qed.

(** On a healthy service that holds the group, and when no
    duplicate-name check is due (prevent_duplicate_names is unset or the
    display name has not changed), an update that changes members and
    owners succeeds and issues its write calls in this order: the update of the group's
    properties, the removal of the members that are no longer wanted,
    the addition of the new members, the addition of the new owners, the
    removal of the owners that are no longer wanted; a call for an empty
    difference is left out.  So owners are added before any is removed,
    and members are removed before any is added.  The stored group then
    has exactly the configured members and owners. *)
Theorem group_update_order (c : groups.Config) (w : World) (e : GroupEntry) :
  healthy w →
  groups w !! resourceId w = Some e →
  groups.gc_prevent_duplicate_names c && groups.HasChange c "display_name" = false →
  groups.gc_members_exists c = true →
  groups.HasChange c "members" = true →
  groups.gc_owners_exists c = true →
  groups.HasChange c "owners" = true →
  let id := resourceId w in
  let removedMembers := utils.Difference (elements (ge_members e)) (groups.gc_members c) in
  let addedMembers := utils.Difference (groups.gc_members c) (elements (ge_members e)) in
  let removedOwners := utils.Difference (elements (ge_owners e)) (groups.gc_owners c) in
  let addedOwners := utils.Difference (groups.gc_owners c) (elements (ge_owners e)) in
  let r := groups.groupResourceUpdate c w in
  fst r = [] ∧
  (∃ e', groups (snd r) !! id = Some e' ∧
         ge_members e' = asSet (groups.gc_members c) ∧
         ge_owners e' = asSet (groups.gc_owners c)) ∧
  ∃ t patch withMembers withOwners,
    trace (snd r) = trace w ++ t ∧
    calls (List.filter isWrite t) =
      [GroupsUpdate patch] ++
      whenNonEmpty removedMembers (GroupsRemoveMembers id removedMembers) ++
      whenNonEmpty addedMembers (GroupsAddMembers withMembers) ++
      whenNonEmpty addedOwners (GroupsAddOwners withOwners) ++
      whenNonEmpty removedOwners (GroupsRemoveOwners id removedOwners) ∧
    default_list (grp_Members withMembers) = addedMembers ∧
    default_list (grp_Owners withOwners) = addedOwners.
Proof.
  intros Hh He Hprev Hmex Hmch Hoex Hoch id removedMembers addedMembers removedOwners
    addedOwners r.
  set (named := if groups.HasChange c "display_name"
                then groups.set_DisplayName (Some (groups.gc_display_name c))
                       (GroupsClient.set_grp_ID (Some id) emptyGroup)
                else GroupsClient.set_grp_ID (Some id) emptyGroup).
  set (patch := if groups.HasChange c "description"
                then groups.set_Description (Some (groups.gc_description c)) named
                else named).
  assert (Hpatch : grp_ID patch = Some id ∧ grp_Members patch = None ∧
                   grp_Owners patch = None).
  { unfold patch, named.
    destruct (groups.HasChange c "description"), (groups.HasChange c "display_name"); done. }
  destruct Hpatch as (Hpid & Hpm & Hpo).
  set (e1 := GroupsClient.patch patch e).
  set (w1 := logged (mkEvent (GroupsUpdate patch) 204 true None)
               (set_groups (<[id := e1]> (groups w)) w)).
  assert (Hh1 : healthy w1) by healthy.
  assert (He1 : groups w1 !! id = Some e1) by (simpl; apply lookup_insert_eq).
  destruct (reconcileMembers_run c id patch w1 e1 Hmex Hmch Hpid Hpm Hh1 He1)
    as (g2 & w2 & e2 & t2 & Hrun2 & Hh2 & Hr2 & He2 & _ & Hm2 & Ho2 & Hg2 & Hgo2 & Ht2 &
        withMembers & Hc2 & Hwm).
  rewrite Hpo in Hgo2.
  destruct (reconcileOwners_run c id g2 w2 e2 Hoex Hoch Hg2 Hgo2 Hh2 He2)
    as (g3 & w3 & e3 & t3 & Hrun3 & Hh3 & Hr3 & He3 & _ & Ho3 & Hm3 & Ht3 &
        withOwners & Hc3 & Hwo).
  rewrite Ho2 in Hc3, Hwo.
  change (ge_owners e1) with (ge_owners e) in Hc3, Hwo.
  change (ge_members e1) with (ge_members e) in Hc2, Hwm.
  assert (Hid3 : resourceId w3 = id) by (rewrite Hr3, Hr2; reflexivity).
  assert (Hrun : groups.groupResourceUpdate c w =
                 ([], logged (mkEvent (GroupsListMembers id) 200 true None)
                        (logged (mkEvent (GroupsListOwners id) 200 true None)
                           (logged (mkEvent (GroupsGet id) 200 true (Some id)) w3)))).
  { unfold groups.groupResourceUpdate. cbv zeta.
    step. fold id.
    step_with ltac:(instantiate (1 := w); instantiate (1 := inr named);
                    unfold named; clear - Hprev;
                    destruct (groups.HasChange c "display_name");
                    destruct (groups.gc_prevent_duplicate_names c);
                    first [discriminate Hprev | reflexivity]).
    fold patch. unfold GroupsClient.Update. rewrite Hpid.
    step_with ltac:(apply (Groups_onEntry_found _ _ _ _ e Hh He)).
    fold e1. fold w1.
    step_with ltac:(exact Hrun2).
    step_with ltac:(exact Hrun3).
    rewrite <- Hid3. apply (group_read_run c w3 e3 Hh3). by rewrite Hid3. }
  unfold r. rewrite Hrun. cbn [fst snd].
  split; [reflexivity|]. split.
  - exists e3. split; [exact He3|]. split; [by rewrite Hm3 | exact Ho3].
  - exists ([mkEvent (GroupsUpdate patch) 204 true None] ++ t2 ++ t3 ++
            [mkEvent (GroupsGet id) 200 true (Some id);
             mkEvent (GroupsListOwners id) 200 true None;
             mkEvent (GroupsListMembers id) 200 true None]),
      patch, withMembers, withOwners.
    split; [|split; [|split]].
    + simpl. rewrite Ht3, Ht2. simpl. rewrite <- !app_assoc. reflexivity.
    + rewrite !app_assoc, filter_isWrite_read, <- !app_assoc.
      rewrite !List.filter_app, !calls_app, Hc2, Hc3. simpl.
      rewrite <- !app_assoc. reflexivity.
    + exact Hwm.
    + exact Hwo.
Qed.

(** Current members {A,B,C}, desired {B,C,D}: after the update of the
    properties, "A" is removed and then "D" is added. *)
Lemma group_update_order_witness :
  let r := groups.groupResourceUpdate
             (example.groupConfig ["B"; "C"; "D"] ["members"; "owners"]) example.worldG in
  fst r = [] ∧
  (∃ e', groups (snd r) !! "grp-1" = Some e' ∧
         ge_members e' = asSet ["B"; "C"; "D"] ∧ ge_owners e' = asSet []) ∧
  ∃ t patch withMembers,
    trace (snd r) = t ∧
    calls (List.filter isWrite t) =
      [GroupsUpdate patch; GroupsRemoveMembers "grp-1" ["A"]; GroupsAddMembers withMembers] ∧
    default_list (grp_Members withMembers) = ["D"].
Proof.
  destruct (group_update_order
              (example.groupConfig ["B"; "C"; "D"] ["members"; "owners"])
              example.worldG example.groupA)
    as (H1 & H2 & t & patch & withMembers & withOwners & Ht & Hc & Hm & _);
    try reflexivity.
  cbv zeta. split; [exact H1|]. split; [exact H2|].
  exists t, patch, withMembers. split; [exact Ht|]. split; [exact Hc | exact Hm].
Defined.

(** ** Updating a group: set-difference reconciliation *)

(** The members block, whether or not the members are to be reconciled. *)
Lemma reconcileMembers_outcome (c : groups.Config) (id : string) (group : Group)
    (w : World) (e : GroupEntry) :
  grp_ID group = Some id →
  grp_Members group = None →
  healthy w →
  groups w !! id = Some e →
  let on := groups.gc_members_exists c && groups.HasChange c "members" in
  let removed := utils.Difference (elements (ge_members e)) (groups.gc_members c) in
  let added := utils.Difference (groups.gc_members c) (elements (ge_members e)) in
  ∃ group' w' e' t,
    groups.reconcileMembers c id group w = (inr group', w') ∧
    healthy w' ∧ resourceId w' = resourceId w ∧
    groups w' !! id = Some e' ∧
    ge_members e' = (if on then asSet (groups.gc_members c) else ge_members e) ∧
    ge_owners e' = ge_owners e ∧
    grp_ID group' = Some id ∧ grp_Owners group' = grp_Owners group ∧
    trace w' = trace w ++ t ∧
    ∃ payload,
      calls (List.filter isWrite t) =
        (if on then whenNonEmpty removed (GroupsRemoveMembers id removed) ++
                    whenNonEmpty added (GroupsAddMembers payload)
         else []) ∧
      default_list (grp_Members payload) = added.
Proof.
  intros Hid Hnone Hh He on removed added.
  destruct (groups.gc_members_exists c) eqn:Hex;
    [destruct (groups.HasChange c "members") eqn:Hch|].
  - destruct (reconcileMembers_run c id group w e Hex Hch Hid Hnone Hh He)
      as (g' & w' & e' & t & H1 & H2 & H3 & H4 & _ & H5 & H6 & H7 & H8 & H9 & p & H10 & H11).
    exists g', w', e', t. unfold on. rewrite ?Hex, ?Hch. cbn [andb].
    repeat (split; [assumption|]). exists p. split; assumption.
  - exists group, w, e, []. unfold on, groups.reconcileMembers.
    rewrite ?Hex, ?Hch. cbn [andb].
    repeat (split; [first [assumption | reflexivity | by rewrite app_nil_r]|]).
    exists (foldl AppendMember group added). split; [reflexivity|].
    destruct (foldl_AppendMember group added) as [_ ->]. by rewrite Hnone.
  - exists group, w, e, []. unfold on, groups.reconcileMembers.
    rewrite ?Hex. cbn [andb].
    repeat (split; [first [assumption | reflexivity | by rewrite app_nil_r]|]).
    exists (foldl AppendMember group added). split; [reflexivity|].
    destruct (foldl_AppendMember group added) as [_ ->]. by rewrite Hnone.
Qed.

(** The owners block, whether or not the owners are to be reconciled. *)
Lemma reconcileOwners_outcome (c : groups.Config) (id : string) (group : Group)
    (w : World) (e : GroupEntry) :
  grp_ID group = Some id →
  grp_Owners group = None →
  healthy w →
  groups w !! id = Some e →
  let on := groups.gc_owners_exists c && groups.HasChange c "owners" in
  let removed := utils.Difference (elements (ge_owners e)) (groups.gc_owners c) in
  let added := utils.Difference (groups.gc_owners c) (elements (ge_owners e)) in
  ∃ group' w' e' t,
    groups.reconcileOwners c id group w = (inr group', w') ∧
    healthy w' ∧ resourceId w' = resourceId w ∧
    groups w' !! id = Some e' ∧
    ge_owners e' = (if on then asSet (groups.gc_owners c) else ge_owners e) ∧
    ge_members e' = ge_members e ∧
    trace w' = trace w ++ t ∧
    ∃ payload,
      calls (List.filter isWrite t) =
        (if on then whenNonEmpty added (GroupsAddOwners payload) ++
                    whenNonEmpty removed (GroupsRemoveOwners id removed)
         else []) ∧
      default_list (grp_Owners payload) = added.
Proof.
  intros Hid Hnone Hh He on removed added.
  destruct (groups.gc_owners_exists c) eqn:Hex;
    [destruct (groups.HasChange c "owners") eqn:Hch|].
  - destruct (reconcileOwners_run c id group w e Hex Hch Hid Hnone Hh He)
      as (g' & w' & e' & t & H1 & H2 & H3 & H4 & _ & H5 & H6 & H7 & p & H8 & H9).
    exists g', w', e', t. unfold on. rewrite ?Hex, ?Hch. cbn [andb].
    repeat (split; [assumption|]). exists p. split; assumption.
  - exists group, w, e, []. unfold on, groups.reconcileOwners.
    rewrite ?Hex, ?Hch. cbn [andb].
    repeat (split; [first [assumption | reflexivity | by rewrite app_nil_r]|]).
    exists (foldl AppendOwner group added). split; [reflexivity|].
    destruct (foldl_AppendOwner group added) as [_ ->]. by rewrite Hnone.
  - exists group, w, e, []. unfold on, groups.reconcileOwners.
    rewrite ?Hex. cbn [andb].
    repeat (split; [first [assumption | reflexivity | by rewrite app_nil_r]|]).
    exists (foldl AppendOwner group added). split; [reflexivity|].
    destruct (foldl_AppendOwner group added) as [_ ->]. by rewrite Hnone.
Qed.

(** The name check on a healthy service: one recorded call, which
    changes nothing. *)
Lemma GroupCheck_run (name : string) (exclude : option string) (w : World) :
  healthy w →
  ∃ found,
    helpers.GroupCheckNameAvailability name exclude w =
      (inr found, logged (mkEvent (CheckGroupName name exclude) 200 true found) w).
Proof.
  intros Hh. eexists. unfold helpers.GroupCheckNameAvailability.
  step_with ltac:(apply exchange_run; [exact Hh | rewrite bind_run; reflexivity]).
  reflexivity.
Qed.

(** The first step of an update whose name check does not stop it: the
    payload gets the display name when that has changed, and at most the
    check is recorded. *)
Lemma group_update_check (c : groups.Config) (w : World) :
  healthy w →
  nameIsFree c w →
  let group := GroupsClient.set_grp_ID (Some (resourceId w)) emptyGroup in
  let named := if groups.HasChange c "display_name"
               then groups.set_DisplayName (Some (groups.gc_display_name c)) group
               else group in
  ∃ w0 t0,
    (if groups.HasChange c "display_name" then
       chk ← (if groups.gc_prevent_duplicate_names c
              then groups.checkName c (groups.gc_display_name c) (grp_ID group)
              else mret None);
       match chk with
       | Some ds => mret (inl ds)
       | None => mret (inr (groups.set_DisplayName (Some (groups.gc_display_name c)) group))
       end
     else mret (inr group)) w = (inr named, w0) ∧
    healthy w0 ∧ groups w0 = groups w ∧ resourceId w0 = resourceId w ∧
    trace w0 = trace w ++ t0 ∧ List.filter isWrite t0 = [].
Proof.
  intros Hh Hfree group named. unfold nameIsFree in Hfree. unfold named.
  destruct (groups.HasChange c "display_name") eqn:Ech;
    destruct (groups.gc_prevent_duplicate_names c) eqn:Epr.
  - specialize (Hfree eq_refl).
    destruct (GroupCheck_run (groups.gc_display_name c) (Some (resourceId w)) w Hh)
      as [found Hrun].
    rewrite Hrun in Hfree. cbn [fst] in Hfree. injection Hfree as ->.
    eexists _, [_]. split; [|split; [|split; [|split; [|split]]]].
    + step_with ltac:(unfold groups.checkName; step_with ltac:(exact Hrun); reflexivity).
      reflexivity.
    + healthy.
    + reflexivity.
    + reflexivity.
    + reflexivity.
    + reflexivity.
  - exists w, []. rewrite app_nil_r. repeat split; assumption.
  - exists w, []. rewrite app_nil_r. repeat split; assumption.
  - exists w, []. rewrite app_nil_r. repeat split; assumption.
Qed.

(** C1: the additions are the desired entries that are not current, the
    removals the current entries that are not desired; the two are
    disjoint, applying them to the current set in either order gives the
    desired set, and a duplicate in an input counts once.  On a healthy
    service that holds the group, and unless the duplicate-name check
    stops the update, [groupResourceUpdate] succeeds and its write calls
    are the update of the properties and then, for the members and the
    owners that are to be reconciled, one removal call that carries
    exactly the removals and one addition call whose payload carries
    exactly the additions (a call for an empty difference is left out,
    and a relationship that is not to be reconciled gets no call); the
    stored group then has exactly the desired members and owners. *)
Theorem C1_set_diff_reconciliation :
  (∀ current desired : list string,
     let additions := utils.Difference desired current in
     let removals := utils.Difference current desired in
     asSet additions = asSet desired ∖ asSet current ∧
     asSet removals = asSet current ∖ asSet desired ∧
     asSet additions ## asSet removals ∧
     (asSet current ∪ asSet additions) ∖ asSet removals = asSet desired ∧
     (asSet current ∖ asSet removals) ∪ asSet additions = asSet desired ∧
     NoDup additions ∧ NoDup removals) ∧
  (∀ (c : groups.Config) (w : World) (e : GroupEntry),
     healthy w →
     groups w !! resourceId w = Some e →
     nameIsFree c w →
     let id := resourceId w in
     let members := groups.gc_members_exists c && groups.HasChange c "members" in
     let owners := groups.gc_owners_exists c && groups.HasChange c "owners" in
     let removedMembers :=
       utils.Difference (elements (ge_members e)) (groups.gc_members c) in
     let addedMembers :=
       utils.Difference (groups.gc_members c) (elements (ge_members e)) in
     let removedOwners :=
       utils.Difference (elements (ge_owners e)) (groups.gc_owners c) in
     let addedOwners :=
       utils.Difference (groups.gc_owners c) (elements (ge_owners e)) in
     let r := groups.groupResourceUpdate c w in
     fst r = [] ∧
     (∃ e', groups (snd r) !! id = Some e' ∧
            ge_members e' =
              (if members then asSet (groups.gc_members c) else ge_members e) ∧
            ge_owners e' =
              (if owners then asSet (groups.gc_owners c) else ge_owners e)) ∧
     ∃ t patch withMembers withOwners,
       trace (snd r) = trace w ++ t ∧
       calls (List.filter isWrite t) =
         [GroupsUpdate patch] ++
         (if members
          then whenNonEmpty removedMembers (GroupsRemoveMembers id removedMembers) ++
               whenNonEmpty addedMembers (GroupsAddMembers withMembers)
          else []) ++
         (if owners
          then whenNonEmpty addedOwners (GroupsAddOwners withOwners) ++
               whenNonEmpty removedOwners (GroupsRemoveOwners id removedOwners)
          else []) ∧
       default_list (grp_Members withMembers) = addedMembers ∧
       default_list (grp_Owners withOwners) = addedOwners).
Proof.
  split.
  { intros current desired additions removals. unfold additions, removals.
    rewrite !asSet_Difference.
    destruct (reconcile_sets (asSet current) (asSet desired)) as (H1 & H2 & H3).
    repeat split; try apply NoDup_Difference; assumption. }
  intros c w e Hh He Hfree id members owners removedMembers addedMembers removedOwners
    addedOwners r.
  destruct (group_update_check c w Hh Hfree)
    as (w0 & t0 & Hblock & Hh0 & Hg0 & Hr0 & Ht0 & Hf0).
  fold id in Hblock, Hr0.
  assert (He0 : groups w0 !! id = Some e) by (rewrite Hg0; exact He).
  set (named := if groups.HasChange c "display_name"
                then groups.set_DisplayName (Some (groups.gc_display_name c))
                       (GroupsClient.set_grp_ID (Some id) emptyGroup)
                else GroupsClient.set_grp_ID (Some id) emptyGroup) in *.
  set (patch := if groups.HasChange c "description"
                then groups.set_Description (Some (groups.gc_description c)) named
                else named).
  assert (Hpatch : grp_ID patch = Some id ∧ grp_Members patch = None ∧
                   grp_Owners patch = None).
  { unfold patch, named.
    destruct (groups.HasChange c "description"), (groups.HasChange c "display_name"); done. }
  destruct Hpatch as (Hpid & Hpm & Hpo).
  set (e1 := GroupsClient.patch patch e).
  set (w1 := logged (mkEvent (GroupsUpdate patch) 204 true None)
               (set_groups (<[id := e1]> (groups w0)) w0)).
  assert (Hh1 : healthy w1) by healthy.
  assert (He1 : groups w1 !! id = Some e1) by (simpl; apply lookup_insert_eq).
  destruct (reconcileMembers_outcome c id patch w1 e1 Hpid Hpm Hh1 He1)
    as (g2 & w2 & e2 & t2 & Hrun2 & Hh2 & Hr2 & He2 & Hm2 & Ho2 & Hg2 & Hgo2 & Ht2 &
        withMembers & Hc2 & Hwm).
  rewrite Hpo in Hgo2.
  destruct (reconcileOwners_outcome c id g2 w2 e2 Hg2 Hgo2 Hh2 He2)
    as (g3 & w3 & e3 & t3 & Hrun3 & Hh3 & Hr3 & He3 & Ho3 & Hm3 & Ht3 &
        withOwners & Hc3 & Hwo).
  rewrite Ho2 in Hc3, Hwo, Ho3.
  change (ge_owners e1) with (ge_owners e) in Hc3, Hwo, Ho3.
  change (ge_members e1) with (ge_members e) in Hc2, Hwm, Hm2.
  assert (Hid3 : resourceId w3 = id) by (rewrite Hr3, Hr2; exact Hr0).
  assert (Hrun : groups.groupResourceUpdate c w =
                 ([], logged (mkEvent (GroupsListMembers id) 200 true None)
                        (logged (mkEvent (GroupsListOwners id) 200 true None)
                           (logged (mkEvent (GroupsGet id) 200 true (Some id)) w3)))).
  { unfold groups.groupResourceUpdate. cbv zeta.
    step. fold id.
    step_with ltac:(exact Hblock).
    fold patch. unfold GroupsClient.Update. rewrite Hpid.
    step_with ltac:(apply (Groups_onEntry_found _ _ _ _ e Hh0 He0)).
    fold e1. fold w1.
    step_with ltac:(exact Hrun2).
    step_with ltac:(exact Hrun3).
    rewrite <- Hid3. apply (group_read_run c w3 e3 Hh3). by rewrite Hid3. }
  unfold r. rewrite Hrun. cbn [fst snd].
  split; [reflexivity|]. split.
  - exists e3. split; [exact He3|]. split; [by rewrite Hm3 | exact Ho3].
  - exists (t0 ++ [mkEvent (GroupsUpdate patch) 204 true None] ++ t2 ++ t3 ++
            [mkEvent (GroupsGet id) 200 true (Some id);
             mkEvent (GroupsListOwners id) 200 true None;
             mkEvent (GroupsListMembers id) 200 true None]),
      patch, withMembers, withOwners.
    split; [|split; [|split]].
    + simpl. rewrite Ht3, Ht2. simpl. rewrite Ht0, <- !app_assoc. reflexivity.
    + rewrite !app_assoc, filter_isWrite_read, <- !app_assoc.
      rewrite !List.filter_app, !calls_app, Hf0, Hc2, Hc3. reflexivity.
    + exact Hwm.
    + exact Hwo.
Qed.

(** The example of the specification: current {A,B,C}, desired {B,C,D},
    owners left alone.  After the update of the properties "A" is
    removed and then "D" is added, and the group holds B, C and D. *)
Lemma C1_witness :
  let r := groups.groupResourceUpdate
             (example.groupConfig ["B"; "C"; "D"] ["members"]) example.worldG in
  fst r = [] ∧
  (∃ e', groups (snd r) !! "grp-1" = Some e' ∧
         ge_members e' = asSet ["B"; "C"; "D"] ∧ ge_owners e' = ∅) ∧
  ∃ t patch withMembers,
    trace (snd r) = t ∧
    calls (List.filter isWrite t) =
      [GroupsUpdate patch; GroupsRemoveMembers "grp-1" ["A"]; GroupsAddMembers withMembers] ∧
    default_list (grp_Members withMembers) = ["D"].
Proof.
  destruct (proj2 C1_set_diff_reconciliation
              (example.groupConfig ["B"; "C"; "D"] ["members"])
              example.worldG example.groupA)
    as (H1 & H2 & t & patch & withMembers & withOwners & Ht & Hc & Hm & _);
    try reflexivity.
  { intros H. discriminate H. }
  cbv zeta. split; [exact H1|]. split; [exact H2|].
  exists t, patch, withMembers. split; [exact Ht|]. split; [exact Hc | exact Hm].
Defined.

(** ** Updating a group: a failure is not rolled back *)







(** * The duplicate-name check of groups and applications *)







